(** * The security core of the execution engine

    A shallow embedding of
      - [security/moduleBlocker.ts]      (class [ModuleSecurityManager]),
      - [security/environmentBlocker.ts] (class [EnvironmentBlocker]),
      - [security/timeoutManager.ts]     (class [TimeoutManager]),
      - [security/memoryMonitor.ts]      (class [MemoryMonitor]),
      - [security/securityManager.ts]    (class [MainSecurityManager]),
    followed by the properties of these classes that the specification
    states.

    Conventions of the embedding.
      - A JavaScript string that is scanned by a regular expression is a
        list of UTF-16 code units ([list N]); names (module ids, variable
        names, messages) are [string]s.
      - JavaScript numbers that hold counts, milliseconds or bytes are [Z].
      - Every class is a record of its fields; a method is a computation
        in the monad [M] of state and exceptions below.
      - [Date.now()] and [process.memoryUsage()] read the fields [now] and
        [memoryUsage] of the state.
      - A method that awaits a promise is resumed after everything that
        ran meanwhile: the candidate, the callbacks of the timers of the
        timeout manager, other requests.  All of it is one arbitrary state
        transformer, see [Executor].  The interval timer of the memory
        monitor, whose callback can throw, is kept apart: its handle is a
        field of the monitor and its callbacks run at every wait of the
        manager, see [suspend].  What a callback of a timer throws is
        caught by nobody and ends the process.
      - A call that finds the call stack full throws a RangeError; the
        room on the stack is a parameter of the runtime.
      - Emitted events and console output are not represented.
      - Arguments have the types that the signatures declare. *)

From Stdlib Require Import ZArith NArith Ascii Permutation.
From stdpp Require Import gmap strings list fin_maps.

Local Open Scope Z_scope.

(* ===================================================================== *)
(** ** JavaScript strings and the regular expressions of the analyzer     *)
(* ===================================================================== *)

Abbreviation jsstring := (list N).

(** The code units of an ASCII literal. *)
Fixpoint units (s : string) : jsstring :=
  match s with
  | EmptyString => []
  | String a s' => N_of_ascii a :: units s'
  end.

(** Canonicalisation of a code unit under the [i] flag (no [u] flag).  A
    code unit outside ASCII never canonicalises to an ASCII one, so against
    the ASCII literals of the patterns below only [a-z] fold. *)
Definition canonicalize (c : N) : N :=
  if ((97 <=? c) && (c <=? 122))%N then (c - 32)%N else c.

(** [\s]: WhiteSpace and LineTerminator code units. *)
Definition isWhiteSpace (c : N) : bool :=
  bool_decide (c ∈ [9; 10; 11; 12; 13; 32; 160; 5760; 8232; 8233; 8239; 8287;
                    12288; 65279]%N)
  || ((8192 <=? c) && (c <=? 8202))%N.

(** [.] (no [s] flag): anything but a line terminator. *)
Definition isLineTerminator (c : N) : bool :=
  bool_decide (c ∈ [10; 13; 8232; 8233]%N).

Inductive cclass : Type :=
  | CChar (c : N)          (* a literal character *)
  | CSpace                 (* \s *)
  | CDot                   (* . *)
  | CSet (cs : list N).    (* [...] *)

Definition accepts (cl : cclass) (x : N) : bool :=
  match cl with
  | CChar c => (canonicalize x =? canonicalize c)%N
  | CSpace => isWhiteSpace x
  | CDot => negb (isLineTerminator x)
  | CSet cs => bool_decide (canonicalize x ∈ map canonicalize cs)
  end.

(** The fragment of the pattern language that [DANGEROUS_PATTERNS] uses:
    the only quantifier is a greedy star over one character class. *)
Inductive regex : Type :=
  | Eps
  | Atom (cl : cclass)
  | Star (cl : cclass)
  | Seq (r1 r2 : regex)
  | Alt (r1 r2 : regex).

(** Backtracking matcher in continuation-passing style.  [k] is given the
    input that remains after the part matched so far; the answer is the
    input that remains after the whole match. *)
Fixpoint star_m (cl : cclass) (k : jsstring → option jsstring)
    (s : jsstring) : option jsstring :=
  match s with
  | x :: s' =>
      if accepts cl x then
        match star_m cl k s' with
        | Some out => Some out
        | None => k s
        end
      else k s
  | [] => k s
  end.

Fixpoint m (r : regex) (k : jsstring → option jsstring)
    (s : jsstring) : option jsstring :=
  match r with
  | Eps => k s
  | Atom cl =>
      match s with
      | x :: s' => if accepts cl x then k s' else None
      | [] => None
      end
  | Star cl => star_m cl k s
  | Seq r1 r2 => m r1 (m r2 k) s
  | Alt r1 r2 =>
      match m r1 k s with
      | Some out => Some out
      | None => m r2 k s
      end
  end.

(** The first match at or after the head of [s]: the number of code units
    left after it. *)
Fixpoint search (r : regex) (s : jsstring) : option nat :=
  match m r Some s with
  | Some out => Some (length out)
  | None =>
      match s with
      | [] => None
      | _ :: s' => search r s'
      end
  end.

(** A [RegExp] object with the flags [gi].  With [g], the property
    [lastIndex] is where the next [exec]/[test] starts and is written back
    after every call. *)
Record RegExp : Type := mkRegExp {
  source : regex;
  lastIndex : nat
}.

(** [RegExp.prototype.test] for a global pattern (RegExpBuiltinExec): start
    at [lastIndex]; past the end, or without a match, reset [lastIndex] to
    0 and answer false; on a match store its end index and answer true. *)
Definition test (p : RegExp) (s : jsstring) : bool * RegExp :=
  if (length s <? lastIndex p)%nat then (false, mkRegExp (source p) 0)
  else
    match search (source p) (drop (lastIndex p) s) with
    | Some rest => (true, mkRegExp (source p) (length s - rest))
    | None => (false, mkRegExp (source p) 0)
    end.

(** Pattern building blocks. *)
Fixpoint lit_units (cs : jsstring) : regex :=
  match cs with
  | [] => Eps
  | c :: cs' => Seq (Atom (CChar c)) (lit_units cs')
  end.

Definition lit (s : string) : regex := lit_units (units s).
Definition ws : regex := Star CSpace.
(** The class of the three quote characters: apostrophe, double quote and
    backtick. *)
Definition quote : regex := Atom (CSet [39; 34; 96]%N).

(** The pattern: require, \s*, an opening parenthesis, \s*, a quote, NAME,
    a quote, \s*, a closing parenthesis. *)
Definition requirePattern (name : string) : regex :=
  Seq (lit "require") (Seq ws (Seq (lit "(") (Seq ws (Seq quote
    (Seq (lit name) (Seq quote (Seq ws (lit ")")))))))).

(** What a regular expression denotes, independently of the matcher. *)
Inductive matches : regex → jsstring → Prop :=
  | matches_eps : matches Eps []
  | matches_atom cl x : accepts cl x = true → matches (Atom cl) [x]
  | matches_star_nil cl : matches (Star cl) []
  | matches_star_cons cl x w :
      accepts cl x = true → matches (Star cl) w → matches (Star cl) (x :: w)
  | matches_seq r1 r2 w1 w2 :
      matches r1 w1 → matches r2 w2 → matches (Seq r1 r2) (w1 ++ w2)
  | matches_alt_l r1 r2 w : matches r1 w → matches (Alt r1 r2) w
  | matches_alt_r r1 r2 w : matches r2 w → matches (Alt r1 r2) w.

(** The pattern occurs somewhere in the text. *)
Definition occurs (r : regex) (s : jsstring) : Prop :=
  ∃ pre w post, s = pre ++ w ++ post ∧ matches r w.

(* ===================================================================== *)
(** ** Computations with state and exceptions                             *)
(* ===================================================================== *)

(** What a [catch (error)] clause receives: an [Error] with its message,
    or some other thrown value ([error instanceof Error] is false). *)
Inductive Thrown : Type :=
  | ErrorObj (message : string)
  | OtherValue.

Inductive Completion (A : Type) : Type :=
  | Normal (a : A)
  | Throw (e : Thrown)
  | Never.               (* the call does not complete: an awaited promise
                            never settles, or the process has ended *)
Arguments Normal {A} a.
Arguments Throw {A} e.
Arguments Never {A}.

(** A method of an object with state [S].  State written before a [throw]
    stays written. *)
Definition M (S A : Type) : Type := S → Completion A * S.

Definition ret {S A} (a : A) : M S A := λ s, (Normal a, s).
Definition throw {S A} (e : Thrown) : M S A := λ s, (Throw e, s).
Definition bind {S A B} (c : M S A) (f : A → M S B) : M S B :=
  λ s, match c s with
       | (Normal a, s') => f a s'
       | (Throw e, s') => (Throw e, s')
       | (Never, s') => (Never, s')
       end.
Definition tryCatch {S A} (c : M S A) (h : Thrown → M S A) : M S A :=
  λ s, match c s with
       | (Normal a, s') => (Normal a, s')
       | (Throw e, s') => h e s'
       | (Never, s') => (Never, s')
       end.
(** [try { body } finally { cleanup }]: the cleanup runs after the body
    has returned or thrown, and a throw of the cleanup replaces the
    completion of the body. *)
Definition tryFinally {S A} (body : M S A) (cleanup : M S unit) : M S A :=
  λ s, match body s with
       | (Never, s') => (Never, s')
       | (r, s') =>
           match cleanup s' with
           | (Normal _, s'') => (r, s'')
           | (Throw e, s'') => (Throw e, s'')
           | (Never, s'') => (Never, s'')
           end
       end.

(** A call made where nothing catches what it throws, as the event
    loop calls the callback of a timer: a throw ends the process, and
    nothing that was waiting resumes. *)
Definition uncaught {S A} (c : M S A) : M S A :=
  λ s, match c s with
       | (Throw _, s') => (Never, s')
       | r => r
       end.

Definition gets {S A} (f : S → A) : M S A := λ s, (Normal (f s), s).
Definition modify {S} (f : S → S) : M S unit := λ s, (Normal tt, f s).

(** Run a method of a component inside the object that owns it. *)
Definition zoom {S T A} (get : S → T) (set : T → S → S) (c : M T A) : M S A :=
  λ s, let '(r, t') := c (get s) in (r, set t' s).

Declare Scope js_scope.
Delimit Scope js_scope with js.
Notation "x <~ c ;; k" := (bind c (λ x, k))
  (at level 100, c at next level, right associativity) : js_scope.
Notation "c ;;; k" := (bind c (λ _, k))
  (at level 100, right associativity) : js_scope.

(** [error instanceof Error ? error.message : fallback] *)
Definition messageOr (fallback : string) (e : Thrown) : string :=
  match e with
  | ErrorObj msg => msg
  | OtherValue => fallback
  end.

(** [wp c Qn Qt Qh s]: what the method [c] does when started in [s].  It
    completes normally with a value and a state that satisfy [Qn], or it
    throws a value in a state that satisfy [Qt], or it does not complete
    and leaves a state that satisfies [Qh]. *)
Definition wp {S A} (c : M S A) (Qn : A → S → Prop) (Qt : Thrown → S → Prop)
    (Qh : S → Prop) (s : S) : Prop :=
  match c s with
  | (Normal a, s') => Qn a s'
  | (Throw e, s') => Qt e s'
  | (Never, s') => Qh s'
  end.

(** The method returns to its caller: it neither throws nor hangs. *)
Definition returns {S A} (c : M S A) (Q : A → S → Prop) (s : S) : Prop :=
  wp c Q (λ _ _, False) (λ _, False) s.

(* ===================================================================== *)
(** ** What the host runtime provides                                     *)
(* ===================================================================== *)

(** Library functions of the runtime that the classes call and that are
    not part of the repository.  The development is parametric in them. *)
Record Runtime : Type := {
  (** values stored in the properties of a module object *)
  Value : Type;
  (** [createHash('sha256').update(code).digest('hex')] *)
  sha256_hex : jsstring → string;
  (** [String.prototype.toUpperCase] *)
  toUpperCase : string → string;
  (** the number of nested calls for which the call stack has room when
      a function of the repository is called; the call after the last of
      them throws a RangeError *)
  stackRoom : nat;
  (** [formatBytes] of the memory monitor (floating-point formatting) *)
  formatBytes : Z → string;
  (** conversion of a number inside a template string *)
  numberToString : Z → string
}.

Module Process.
(** The object returned by [process.memoryUsage()]. *)
Record MemoryUsage : Type := {
  heapUsed : Z;
  heapTotal : Z;
  rss : Z;
  external : Z;
  arrayBuffers : Z
}.
End Process.

Inductive Severity : Type := LOW | MEDIUM | HIGH | CRITICAL.

#[global] Instance Severity_eq_dec : EqDecision Severity.
Proof. solve_decision. Defined.

Inductive ViolationType : Type :=
  | BLOCKED_MODULE | DANGEROUS_PATTERN | SUSPICIOUS_BEHAVIOR
  | ENV_ACCESS_BLOCKED | SENSITIVE_VAR_ACCESS | ENV_ENUMERATION.

#[global] Instance ViolationType_eq_dec : EqDecision ViolationType.
Proof. solve_decision. Defined.

(* ===================================================================== *)
(** ** moduleBlocker.ts                                                   *)
(* ===================================================================== *)

Module ModuleSecurityManager.

Record SecurityViolation : Type := {
  type : ViolationType;
  severity : Severity;
  module : option string;
  (** [pattern.toString()]: the pattern stands for its text *)
  pattern : option regex;
  description : string;
  timestamp : Z;
  codeHash : option string
}.

(** The fields of the singleton that change: the log, and the twelve
    [RegExp] objects of the read-only array [DANGEROUS_PATTERNS], each
    with its own [lastIndex]. *)
Record t : Type := mk {
  violations : list SecurityViolation;
  DANGEROUS_PATTERNS : list RegExp
}.

Definition BLOCKED_MODULES : list string :=
  [ "fs"; "fs/promises"; "fs-extra"; "graceful-fs";
    "child_process"; "cluster"; "process"; "os";
    "net"; "http"; "https"; "http2"; "dgram"; "dns"; "tls";
    "vm"; "worker_threads"; "async_hooks"; "inspector";
    "perf_hooks"; "trace_events"; "v8"; "repl";
    "npm"; "yarn"; "pnpm";
    "mysql"; "mysql2"; "pg"; "mongodb"; "redis"; "sqlite3";
    "shelljs"; "node-cmd"; "exec"; "spawn-sync" ]%string.

Definition ALLOWED_MODULES : list string :=
  [ "crypto"; "util"; "events"; "stream"; "buffer";
    "string_decoder"; "querystring"; "url"; "path";
    "assert"; "constants"; "timers"; "console" ]%string.

(** The first five patterns: acquisition of a capability by [require]. *)
Definition CAPABILITY_PATTERNS : list regex :=
  [ requirePattern "child_process";
    requirePattern "fs";
    requirePattern "net";
    requirePattern "http";
    requirePattern "os" ].

Definition PATTERN_SOURCES : list regex :=
  CAPABILITY_PATTERNS ++
  [ Seq (lit "process.") (Alt (lit "exit") (Alt (lit "kill") (lit "abort")));
    Seq (lit "eval") (Seq ws (lit "("));
    Seq (lit "Function") (Seq ws (lit "("));
    Seq (lit "setTimeout") (Seq (Star CDot) (lit "eval"));
    Seq (lit "setInterval") (Seq (Star CDot) (lit "eval"));
    lit "global.";
    lit "globalThis." ].

(** The object right after construction. *)
Definition new : t :=
  {| violations := [];
     DANGEROUS_PATTERNS := map (λ r, mkRegExp r 0) PATTERN_SOURCES |}.

Definition push (v : SecurityViolation) (s : t) : t :=
  {| violations := violations s ++ [v];
     DANGEROUS_PATTERNS := DANGEROUS_PATTERNS s |}.

Section Methods.
Context (rt : Runtime).

(** The operation subsets that the proxies of three modules expose. *)
Definition exposed (moduleName : string) : option (list string) :=
  if String.eqb moduleName "crypto" then
    Some ["randomBytes"; "createHash"; "createHmac"; "timingSafeEqual"]%string
  else if String.eqb moduleName "util" then
    Some ["format"; "inspect"; "isArray"; "isDate"; "isError"]%string
  else if String.eqb moduleName "path" then
    Some ["join"; "resolve"; "basename"; "dirname"; "extname"; "parse";
          "format"; "sep"]%string
  else None.

(** [createSecureModuleProxy]: a fresh object holding the listed
    properties of the original for crypto, util and path; the original
    module itself in the default case. *)
Definition createSecureModuleProxy (moduleName : string)
    (originalModule : gmap string (Value rt)) : gmap string (Value rt) :=
  match exposed moduleName with
  | Some names => filter (λ kv, kv.1 ∈ names) originalModule
  | None => originalModule
  end.

(** [secureRequire], the function that [overrideGlobalRequire] installs
    as [global.require] and as [module.require].  Its [originalRequire]
    is the [require] of the module itself, captured before the override;
    that function calls [module.require], which after the override is
    [secureRequire], so the call for an allow-listed name comes back
    here.  [frames] is the room left on the call stack; a module object is
    the finite map from its property names to their values. *)
Fixpoint secureRequireWithin (frames : nat) (now : Z) (id : string)
    : M t (gmap string (Value rt)) :=
  if bool_decide (id ∈ BLOCKED_MODULES) then
    (modify (push {| type := BLOCKED_MODULE; severity := CRITICAL;
                     module := Some id; pattern := None;
                     description :=
                       "Attempt to require blocked module: " +:+ id;
                     timestamp := now; codeHash := None |}) ;;;
     throw (ErrorObj ("🚨 SECURITY: Module '" +:+ id +:+
                      "' is blocked for security reasons")))%js
  else if bool_decide (id ∈ ALLOWED_MODULES) then
    (originalModule <~
       match frames with
       | O => throw (ErrorObj "Maximum call stack size exceeded")
       | S frames' => secureRequireWithin frames' now id
       end ;;
     ret (createSecureModuleProxy id originalModule))%js
  else
    (modify (push {| type := BLOCKED_MODULE; severity := HIGH;
                     module := Some id; pattern := None;
                     description :=
                       "Attempt to require unknown/restricted module: "
                       +:+ id;
                     timestamp := now; codeHash := None |}) ;;;
     throw (ErrorObj ("🚨 SECURITY: Module '" +:+ id +:+
                      "' is not whitelisted")))%js.

Definition secureRequire (now : Z) (id : string)
    : M t (gmap string (Value rt)) :=
  secureRequireWithin (stackRoom rt) now id.

Definition patternViolation (now : Z) (hash : string) (p : RegExp)
    : SecurityViolation :=
  {| type := DANGEROUS_PATTERN; severity := HIGH; module := None;
     pattern := Some (source p);
     description := "Dangerous pattern detected in code";
     timestamp := now; codeHash := Some hash |}.

Definition sizeViolation (now : Z) (hash : string) : SecurityViolation :=
  {| type := SUSPICIOUS_BEHAVIOR; severity := MEDIUM; module := None;
     pattern := None;
     description := "Code size exceeds reasonable limits";
     timestamp := now; codeHash := Some hash |}.

(** The [forEach] over [DANGEROUS_PATTERNS]: the violations pushed, in
    the order of the patterns, and the patterns after their [test]. *)
Fixpoint scanPatterns (now : Z) (hash : string) (code : jsstring)
    (ps : list RegExp) : list SecurityViolation * list RegExp :=
  match ps with
  | [] => ([], [])
  | p :: ps' =>
      let '(hit, p') := test p code in
      let '(vs, ps'') := scanPatterns now hash code ps' in
      ((if hit then [patternViolation now hash p] else []) ++ vs,
       p' :: ps'')
  end.

Record CodeAnalysis : Type := {
  safe : bool;
  found : list SecurityViolation   (* the property [violations] *)
}.

Definition isSevere (v : SecurityViolation) : bool :=
  bool_decide (severity v = CRITICAL) || bool_decide (severity v = HIGH).

Definition analyzeCode (now : Z) (code : jsstring) : M t CodeAnalysis :=
  λ s,
    let hash := sha256_hex rt code in
    let '(hits, ps) := scanPatterns now hash code (DANGEROUS_PATTERNS s) in
    let foundViolations :=
      hits ++ (if 50000 <? Z.of_nat (length code)
               then [sizeViolation now hash] else []) in
    (Normal {| safe := (length (List.filter isSevere foundViolations)
                        =? 0)%nat;
               found := foundViolations |},
     {| violations := violations s ++ foundViolations;
        DANGEROUS_PATTERNS := ps |}).

Definition getViolations (s : t) : list SecurityViolation := violations s.

Definition clearViolations : M t unit :=
  modify (λ s, {| violations := [];
                  DANGEROUS_PATTERNS := DANGEROUS_PATTERNS s |}).

(** The object that [getSecurityReport] returns. *)
Record SecuritySummary : Type := {
  totalViolations : nat;
  criticalCount : nat;
  highCount : nat;
  mediumCount : nat;
  lowCount : nat;
  isSecure : bool
}.

(** [this.violations.filter(v => v.severity === sev).length] *)
Definition countOf (sev : Severity) (log : list SecurityViolation) : nat :=
  length (List.filter (λ v, bool_decide (severity v = sev)) log).

Definition getSecurityReport (s : t) : SecuritySummary :=
  let critical := countOf CRITICAL (violations s) in
  let high := countOf HIGH (violations s) in
  let medium := countOf MEDIUM (violations s) in
  let low := countOf LOW (violations s) in
  {| totalViolations := length (violations s);
     criticalCount := critical;
     highCount := high;
     mediumCount := medium;
     lowCount := low;
     isSecure := (critical =? 0)%nat && (high =? 0)%nat |}.

End Methods.
End ModuleSecurityManager.

(* ===================================================================== *)
(** ** environmentBlocker.ts                                              *)
(* ===================================================================== *)

Module EnvironmentBlocker.

Record EnvironmentViolation : Type := {
  type : ViolationType;
  severity : Severity;
  variable : option string;
  description : string;
  timestamp : Z
}.

(** [originalProcessEnv] is the copy of [process.env] taken by the
    constructor. *)
Record t : Type := mk {
  violations : list EnvironmentViolation;
  originalProcessEnv : gmap string string
}.

Definition SENSITIVE_VARS : list string :=
  [ "API_KEY"; "API_SECRET"; "API_TOKEN"; "ACCESS_TOKEN"; "SECRET_KEY";
    "JWT_SECRET"; "JWT_KEY"; "OAUTH_SECRET"; "GITHUB_TOKEN"; "SLACK_TOKEN";
    "DATABASE_URL"; "DB_PASSWORD"; "DB_USER"; "DB_HOST"; "DB_CONNECTION";
    "MYSQL_PASSWORD"; "POSTGRES_PASSWORD"; "MONGODB_URI"; "REDIS_PASSWORD";
    "AWS_ACCESS_KEY_ID"; "AWS_SECRET_ACCESS_KEY"; "AWS_SESSION_TOKEN";
    "GOOGLE_APPLICATION_CREDENTIALS"; "AZURE_CLIENT_SECRET";
    "FIREBASE_CONFIG";
    "SESSION_SECRET"; "ENCRYPTION_KEY"; "PRIVATE_KEY"; "CERTIFICATE";
    "WEBHOOK_SECRET"; "STRIPE_SECRET_KEY"; "TWILIO_AUTH_TOKEN";
    "HOME"; "USER"; "USERNAME"; "HOSTNAME"; "PWD"; "PATH";
    "SHELL"; "TERM"; "SSH_AUTH_SOCK"; "SSH_CLIENT"; "SSH_CONNECTION" ]%string.

Definition ALLOWED_VARS : list string :=
  [ "NODE_ENV"; "NODE_VERSION"; "TZ"; "LANG"; "LC_ALL" ]%string.

Definition new (env : gmap string string) : t :=
  {| violations := []; originalProcessEnv := env |}.

Definition push (v : EnvironmentViolation) (s : t) : t :=
  {| violations := violations s ++ [v];
     originalProcessEnv := originalProcessEnv s |}.

(** A property key of the proxy: a string, or a symbol (of which only
    the text of [prop.toString()] is used). *)
Inductive PropertyKey : Type :=
  | StringKey (name : string)
  | SymbolKey (text : string).

Definition keyText (prop : PropertyKey) : string :=
  match prop with
  | StringKey name => name
  | SymbolKey text => text
  end.

Section Methods.
Context (rt : Runtime).

(** The [get] trap of the proxy that replaces [process.env];
    [None] is [undefined]. *)
Definition get (now : Z) (prop : PropertyKey) : M t (option string) :=
  match prop with
  | SymbolKey _ => ret None
  | StringKey prop =>
      if bool_decide (toUpperCase rt prop ∈ SENSITIVE_VARS) then
        (modify (push
           {| type := SENSITIVE_VAR_ACCESS; severity := CRITICAL;
              variable := Some prop;
              description :=
                "Attempt to access sensitive environment variable: "
                +:+ prop;
              timestamp := now |}) ;;;
         throw (ErrorObj ("Access to environment variable '" +:+ prop +:+
                          "' is blocked for security reasons")))%js
      else if bool_decide (toUpperCase rt prop ∈ ALLOWED_VARS) then
        gets (λ s, originalProcessEnv s !! prop)
      else
        (modify (push
           {| type := ENV_ACCESS_BLOCKED; severity := HIGH;
              variable := Some prop;
              description :=
                "Attempt to access non-whitelisted environment variable: "
                +:+ prop;
              timestamp := now |}) ;;;
         ret None)%js
  end.

(** The [set] trap. *)
Definition set (now : Z) (prop : PropertyKey) (value : string)
    : M t bool :=
  (modify (push
     {| type := ENV_ACCESS_BLOCKED; severity := HIGH;
        variable := Some (keyText prop);
        description :=
          "Attempt to modify environment variable: " +:+ keyText prop;
        timestamp := now |}) ;;;
   throw (ErrorObj "Modifying environment variables is not allowed"))%js.

(** The [has] trap. *)
Definition has (prop : PropertyKey) : bool :=
  match prop with
  | SymbolKey _ => false
  | StringKey prop => bool_decide (toUpperCase rt prop ∈ ALLOWED_VARS)
  end.

(** The [ownKeys] trap. *)
Definition ownKeys (now : Z) : M t (list string) :=
  (modify (push
     {| type := ENV_ENUMERATION; severity := HIGH; variable := None;
        description := "Attempt to enumerate environment variables";
        timestamp := now |}) ;;;
   ret ALLOWED_VARS)%js.

Definition getViolations (s : t) : list EnvironmentViolation :=
  violations s.

Definition clearViolations : M t unit :=
  modify (λ s, {| violations := [];
                  originalProcessEnv := originalProcessEnv s |}).

(** The loop of [createSafeEnvironment] over [ALLOWED_VARS]. *)
Definition copyAllowed (env : gmap string string) (names : list string)
    : gmap string string :=
  foldl (λ safeEnv varName,
           match env !! varName with
           | Some value => <[varName := value]> safeEnv
           | None => safeEnv
           end) ∅ names.

Definition createSafeEnvironment (s : t) : gmap string string :=
  let safeEnv := copyAllowed (originalProcessEnv s) ALLOWED_VARS in
  let safeEnv := <["NODE_ENV" := "sandbox"]> safeEnv in
  <["SANDBOX" := "true"]> safeEnv.

(** The property descriptor that the [getOwnPropertyDescriptor] trap
    returns; [None] is [undefined]. *)
Record Descriptor : Type := {
  enumerable : bool;
  configurable : bool;
  value : option string
}.

Definition getOwnPropertyDescriptor (prop : PropertyKey) (s : t)
    : option Descriptor :=
  match prop with
  | SymbolKey _ => None
  | StringKey prop =>
      if bool_decide (toUpperCase rt prop ∈ ALLOWED_VARS) then
        Some {| enumerable := true; configurable := true;
                value := originalProcessEnv s !! prop |}
      else None
  end.

(** [Object.keys(process.env)] on the proxy: the [ownKeys] trap, then the
    [getOwnPropertyDescriptor] trap on each key; the keys with an
    enumerable descriptor are kept. *)
Definition objectKeys (now : Z) : M t (list string) :=
  (keys <~ ownKeys now ;;
   s <~ gets (λ s, s) ;;
   ret (List.filter
          (λ key, match getOwnPropertyDescriptor (StringKey key) s with
                  | Some d => enumerable d
                  | None => false
                  end) keys))%js.

(** The object that [getSecurityReport] returns. *)
Record SecuritySummary : Type := {
  totalViolations : nat;
  sensitiveAccessAttempts : nat;
  blockedAccessAttempts : nat;
  enumerationAttempts : nat;
  isSecure : bool
}.

Definition countType (ty : ViolationType) (log : list EnvironmentViolation)
    : nat :=
  length (List.filter (λ v, bool_decide (type v = ty)) log).

Definition getSecurityReport (s : t) : SecuritySummary :=
  let sensitiveAccess := countType SENSITIVE_VAR_ACCESS (violations s) in
  let blockedAccess := countType ENV_ACCESS_BLOCKED (violations s) in
  let enumeration := countType ENV_ENUMERATION (violations s) in
  let criticalViolations :=
    length (List.filter (λ v, bool_decide (severity v = CRITICAL))
              (violations s)) in
  {| totalViolations := length (violations s);
     sensitiveAccessAttempts := sensitiveAccess;
     blockedAccessAttempts := blockedAccess;
     enumerationAttempts := enumeration;
     isSecure := (criticalViolations =? 0)%nat |}.

(** The type and severity of a violation are as one of the traps of the
    proxy writes them. *)
Definition trapWritten (v : EnvironmentViolation) : Prop :=
  (type v = SENSITIVE_VAR_ACCESS ∧ severity v = CRITICAL)
  ∨ (type v = ENV_ACCESS_BLOCKED ∧ severity v = HIGH)
  ∨ (type v = ENV_ENUMERATION ∧ severity v = HIGH).

(** An element of the array [tests] that [testBlocking] returns. *)
Record TestOutcome : Type := {
  name : string;
  passed : bool;
  error : option string
}.

(** [testBlocking], with [process.env] being the proxy: its four tests in
    the order of the array, each with its own [try]/[catch]. *)
Definition testBlocking (now : Z) : M t (bool * list TestOutcome) :=
  (t1 <~ tryCatch
           (get now (StringKey "API_KEY") ;;;
            ret {| name := "Block sensitive variable access (API_KEY)";
                   passed := false;
                   error := Some "Should have thrown an error" |})
           (λ _, ret {| name := "Block sensitive variable access (API_KEY)";
                        passed := true; error := None |}) ;;
   t2 <~ tryCatch
           (get now (StringKey "NODE_ENV") ;;;
            ret {| name := "Allow whitelisted variable access (NODE_ENV)";
                   passed := true; error := None |})
           (λ _, ret {| name := "Allow whitelisted variable access (NODE_ENV)";
                        passed := false;
                        error := Some "Should have allowed access" |}) ;;
   t3 <~ tryCatch
           (set now (StringKey "TEST_VAR") "test" ;;;
            ret {| name := "Block environment variable modification";
                   passed := false;
                   error := Some "Should have thrown an error" |})
           (λ _, ret {| name := "Block environment variable modification";
                        passed := true; error := None |}) ;;
   t4 <~ tryCatch
           (keys <~ objectKeys now ;;
            let hasBlockedVars :=
              existsb (λ key,
                         bool_decide (toUpperCase rt key ∈ SENSITIVE_VARS)
                         || negb (bool_decide
                                    (toUpperCase rt key ∈ ALLOWED_VARS)))
                      keys in
            ret {| name := "Block environment enumeration";
                   passed := negb hasBlockedVars; error := None |})
           (λ e, ret {| name := "Block environment enumeration";
                        passed := false;
                        error := Some (messageOr "Unknown error" e) |}) ;;
   let results := [t1; t2; t3; t4] in
   ret (forallb passed results, results))%js.

End Methods.
End EnvironmentBlocker.

(* ===================================================================== *)
(** ** Promises that a method awaits                                      *)
(* ===================================================================== *)

(** How the promise of the candidate ends when it is raced against a
    deadline: with a value, with a thrown value, or not before the
    deadline. *)
Inductive Outcome (T : Type) : Type :=
  | Resolved (v : T)
  | Rejected (e : Thrown)
  | Pending.
Arguments Resolved {T} v.
Arguments Rejected {T} e.
Arguments Pending {T}.

(** The callback [() => Promise<T>] handed to [executeSecurely] and
    [executeWithTimeout], seen from the method that awaits it: all that
    has happened to the state [S] of the process when the method resumes,
    and how the promise ended. *)
Definition Executor (S T : Type) : Type := S → Outcome T * S.

(** Truthiness of an optional number: 0 and [undefined] are falsy. *)
Definition truthy (x : option Z) : bool :=
  match x with
  | Some v => negb (v =? 0)
  | None => false
  end.

(** [if (x) { f(x) }] *)
Definition whenTruthy {S} (x : option Z) (f : Z → M S unit) : M S unit :=
  match x with
  | Some v => if v =? 0 then ret tt else f v
  | None => ret tt
  end.

(** [x || d] *)
Definition orElse (x : option Z) (d : Z) : Z :=
  match x with
  | Some v => if v =? 0 then d else v
  | None => d
  end.

(* ===================================================================== *)
(** ** timeoutManager.ts                                                  *)
(* ===================================================================== *)

Module TimeoutManager.

Record TimeoutConfig : Type := {
  maxExecutionTime : Z;
  maxCpuTime : Z;
  checkInterval : Z
}.

Record ExecutionMetrics : Type := {
  startTime : Z;
  endTime : option Z;
  executionTime : Z;
  cpuUsage : Z;
  memoryPeak : Z;
  timedOut : bool;
  reason : option string
}.

(** An entry of [activeExecutions].  The metrics object of an entry is
    shared with whoever received it from [startExecution], so the entry
    holds its address in [objects].  The two timer handles of an entry
    are not represented: timers fire while a caller awaits, see
    [Executor]. *)
Record Execution : Type := {
  exec_startTime : Z;
  worker : option nat;
  metrics : nat
}.

Record t : Type := mk {
  config : TimeoutConfig;
  activeExecutions : gmap string Execution;
  objects : list ExecutionMetrics
}.

Definition DEFAULT_CONFIG : TimeoutConfig :=
  {| maxExecutionTime := 30000; maxCpuTime := 20000; checkInterval := 1000 |}.

Definition new (cfg : TimeoutConfig) : t :=
  {| config := cfg; activeExecutions := ∅; objects := [] |}.

(** The metrics object at an address. *)
Definition deref (s : t) (a : nat) : ExecutionMetrics :=
  default {| startTime := 0; endTime := None; executionTime := 0;
             cpuUsage := 0; memoryPeak := 0; timedOut := false;
             reason := None |} (objects s !! a).

Definition setMaxExecutionTime (v : Z) : M t unit :=
  modify (λ s,
    {| config := {| maxExecutionTime := v;
                    maxCpuTime := maxCpuTime (config s);
                    checkInterval := checkInterval (config s) |};
       activeExecutions := activeExecutions s;
       objects := objects s |}).

(** An assignment to fields of the metrics object at address [a]. *)
Definition mutate (a : nat) (f : ExecutionMetrics → ExecutionMetrics)
    : M t unit :=
  modify (λ s,
    {| config := config s;
       activeExecutions := activeExecutions s;
       objects := alter f a (objects s) |}).

Definition startExecution (now : Z) (executionId : string)
    (w : option nat) : M t nat :=
  λ s,
    let a := length (objects s) in
    (Normal a,
     {| config := config s;
        activeExecutions :=
          <[executionId := {| exec_startTime := now; worker := w;
                              metrics := a |}]> (activeExecutions s);
        objects := objects s ++
          [{| startTime := now; endTime := None; executionTime := 0;
              cpuUsage := 0; memoryPeak := 0; timedOut := false;
              reason := None |}] |}).

Definition forget (executionId : string) : M t unit :=
  modify (λ s,
    {| config := config s;
       activeExecutions := delete executionId (activeExecutions s);
       objects := objects s |}).

Definition stopExecution (now : Z) (executionId : string)
    : M t (option nat) :=
  (entry <~ gets (λ s, activeExecutions s !! executionId) ;;
   match entry with
   | None => ret None
   | Some execution =>
       mutate (metrics execution) (λ x,
         {| startTime := startTime x; endTime := Some now;
            executionTime := now - exec_startTime execution;
            cpuUsage := cpuUsage x; memoryPeak := memoryPeak x;
            timedOut := timedOut x; reason := reason x |}) ;;;
       forget executionId ;;;
       ret (Some (metrics execution))
   end)%js.

(** [worker.terminate()] and the emitted event have no effect on the
    fields above. *)
Definition terminateExecution (now : Z) (executionId : string)
    (why : string) : M t bool :=
  (entry <~ gets (λ s, activeExecutions s !! executionId) ;;
   match entry with
   | None => ret false
   | Some execution =>
       mutate (metrics execution) (λ x,
         {| startTime := startTime x; endTime := Some now;
            executionTime := now - exec_startTime execution;
            cpuUsage := cpuUsage x; memoryPeak := memoryPeak x;
            timedOut := true; reason := Some why |}) ;;;
       forget executionId ;;;
       ret true
   end)%js.

Definition getActiveExecutions (s : t) : list string :=
  (map_to_list (activeExecutions s)).*1.

Definition terminateAllExecutions (now : Z) (why : string) : M t nat :=
  (ids <~ gets getActiveExecutions ;;
   foldl (λ acc executionId,
            n <~ acc ;;
            done <~ terminateExecution now executionId why ;;
            ret (if done : bool then S n else n))
         (ret 0%nat) ids)%js.

Definition getConfig (s : t) : TimeoutConfig := config s.

(** Every entry holds the address of a metrics object that exists and
    that no other entry holds. *)
Definition wellFormed (s : t) : Prop :=
  (∀ id e, activeExecutions s !! id = Some e →
           (metrics e < length (objects s))%nat)
  ∧ (∀ id id' e e',
       id ≠ id' → activeExecutions s !! id = Some e →
       activeExecutions s !! id' = Some e' → metrics e ≠ metrics e').

Record TimeoutResult (T : Type) : Type := {
  result : option T;
  finalMetrics : ExecutionMetrics;   (* the property [metrics] *)
  success : bool;
  error : option string
}.
Arguments result {T} _.
Arguments finalMetrics {T} _.
Arguments success {T} _.
Arguments error {T} _.

(** [executeWithTimeout] awaits a callback that may touch anything in the
    process, so it is stated over the state [S] of whatever owns the
    manager: [clock] is [Date.now()], [getTM] and [setTM] reach the
    manager inside [S]. *)
Section Hosted.
Context {S : Type} (clock : S → Z) (getTM : S → t) (setTM : t → S → S).

Definition dateNow : M S Z := gets clock.
Definition on {A} (c : M t A) : M S A := zoom getTM setTM c.

(** The candidate, and whatever else runs while it is awaited, leaves
    [config] as it was. *)
Definition keepsConfig {T} (execution : Executor S T) : Prop :=
  ∀ s, config (getTM (execution s).2) = config (getTM s).

(** [Promise.race([execution(), deadline])].  When the candidate is
    still pending after [config.maxExecutionTime], the timer armed by
    [startExecution] calls [terminateExecution]; the racing timer, set
    just after it for the same delay, then rejects. *)
Definition race {T} (executionId : string) (execution : Executor S T)
    : M S T :=
  λ s,
    match execution s with
    | (Resolved v, s') => (Normal v, s')
    | (Rejected e, s') => (Throw e, s')
    | (Pending, s') =>
        (now <~ dateNow ;;
         on (terminateExecution now executionId "EXECUTION_TIMEOUT") ;;;
         throw (ErrorObj "Execution timeout"))%js s'
    end.

(** The state in which [executeWithTimeout] calls the candidate: the
    override applied, the execution registered. *)
Definition started (executionId : string) (customTimeout : option Z)
    (s : S) : S :=
  let s0 := (whenTruthy customTimeout
               (λ v, on (setMaxExecutionTime v)) s).2 in
  (on (startExecution (clock s0) executionId None) s0).2.

Definition executeWithTimeout {T} (executionId : string)
    (execution : Executor S T) (customTimeout : option Z)
    : M S (TimeoutResult T) :=
  (originalTimeout <~ gets (λ s, maxExecutionTime (config (getTM s))) ;;
   whenTruthy customTimeout (λ v, on (setMaxExecutionTime v)) ;;;
   now <~ dateNow ;;
   metricsRef <~ on (startExecution now executionId None) ;;
   tryFinally
     (tryCatch
        (value <~ race executionId execution ;;
         now <~ dateNow ;;
         stopped <~ on (stopExecution now executionId) ;;
         final <~ gets (λ s, deref (getTM s) (default metricsRef stopped)) ;;
         ret {| result := Some value; finalMetrics := final;
                success := true; error := None |})
        (λ e,
         now <~ dateNow ;;
         stopped <~ on (stopExecution now executionId) ;;
         on (mutate (default metricsRef stopped) (λ x,
           {| startTime := startTime x; endTime := endTime x;
              executionTime := executionTime x;
              cpuUsage := cpuUsage x; memoryPeak := memoryPeak x;
              timedOut := true;
              reason := Some (messageOr "Unknown error" e) |})) ;;;
         final <~ gets (λ s, deref (getTM s) (default metricsRef stopped)) ;;
         ret {| result := None; finalMetrics := final;
                success := false;
                error := Some (messageOr "Unknown error" e) |}))
     (whenTruthy customTimeout
        (λ _, on (setMaxExecutionTime originalTimeout))))%js.

End Hosted.

(** [updateConfig] with a [Partial<TimeoutConfig>]. *)
Definition updateConfig (newMax newCpu newInterval : option Z) : M t unit :=
  modify (λ s,
    {| config :=
         {| maxExecutionTime := default (maxExecutionTime (config s)) newMax;
            maxCpuTime := default (maxCpuTime (config s)) newCpu;
            checkInterval := default (checkInterval (config s)) newInterval |};
       activeExecutions := activeExecutions s;
       objects := objects s |}).

End TimeoutManager.

(* ===================================================================== *)
(** ** memoryMonitor.ts                                                   *)
(* ===================================================================== *)

Module MemoryMonitor.

Record MemoryLimits : Type := {
  maxHeapSize : Z;
  maxRssSize : Z;
  maxArrayBufferSize : Z;
  checkInterval : Z
}.

Record MemoryMetrics : Type := {
  heapUsed : Z;
  heapTotal : Z;
  rss : Z;
  external : Z;
  arrayBuffers : Z;
  peakHeapUsed : Z;
  peakRss : Z;
  timestamp : Z
}.

Inductive MemoryViolationType : Type :=
  | HEAP_LIMIT_EXCEEDED | RSS_LIMIT_EXCEEDED
  | ARRAY_BUFFER_LIMIT_EXCEEDED | MEMORY_GROWTH_ANOMALY.

Record MemoryViolation : Type := {
  type : MemoryViolationType;
  severity : Severity;
  limit : Z;
  actual : Z;
  v_timestamp : Z;
  description : string
}.

(** [monitoringInterval] is the handle of the interval timer: the period
    with which it was armed, or [None] for [null]. *)
Record t : Type := mk {
  limits : MemoryLimits;
  memoryHistory : list MemoryMetrics;
  violations : list MemoryViolation;
  isMonitoring : bool;
  peakMetrics : MemoryMetrics;
  monitoringInterval : option Z
}.

Definition DEFAULT_LIMITS : MemoryLimits :=
  {| maxHeapSize := 128 * 1024 * 1024;
     maxRssSize := 256 * 1024 * 1024;
     maxArrayBufferSize := 64 * 1024 * 1024;
     checkInterval := 500 |}.

Definition createEmptyMetrics (now : Z) : MemoryMetrics :=
  {| heapUsed := 0; heapTotal := 0; rss := 0; external := 0;
     arrayBuffers := 0; peakHeapUsed := 0; peakRss := 0; timestamp := now |}.

Definition new (now : Z) (l : MemoryLimits) : t :=
  {| limits := l; memoryHistory := []; violations := [];
     isMonitoring := false; peakMetrics := createEmptyMetrics now;
     monitoringInterval := None |}.

Definition pushViolation (v : MemoryViolation) : M t unit :=
  modify (λ s,
    {| limits := limits s; memoryHistory := memoryHistory s;
       violations := violations s ++ [v];
       isMonitoring := isMonitoring s; peakMetrics := peakMetrics s;
       monitoringInterval := monitoringInterval s |}).

Section Methods.
Context (rt : Runtime).

Definition handleViolation (v : MemoryViolation) : M t unit :=
  if bool_decide (severity v = CRITICAL) then
    throw (ErrorObj ("Memory limit exceeded: " +:+ description v))
  else ret tt.

Definition report (v : MemoryViolation) : M t unit :=
  (pushViolation v ;;; handleViolation v)%js.

Definition checkLimits (metrics : MemoryMetrics) : M t unit :=
  (l <~ gets limits ;;
   (if maxHeapSize l <? heapUsed metrics then
      report {| type := HEAP_LIMIT_EXCEEDED; severity := CRITICAL;
                limit := maxHeapSize l; actual := heapUsed metrics;
                v_timestamp := timestamp metrics;
                description :=
                  "Heap memory exceeded limit: " +:+
                  formatBytes rt (heapUsed metrics) +:+ " > " +:+
                  formatBytes rt (maxHeapSize l) |}
    else ret tt) ;;;
   (if maxRssSize l <? rss metrics then
      report {| type := RSS_LIMIT_EXCEEDED; severity := CRITICAL;
                limit := maxRssSize l; actual := rss metrics;
                v_timestamp := timestamp metrics;
                description :=
                  "RSS memory exceeded limit: " +:+
                  formatBytes rt (rss metrics) +:+ " > " +:+
                  formatBytes rt (maxRssSize l) |}
    else ret tt) ;;;
   (if maxArrayBufferSize l <? arrayBuffers metrics then
      report {| type := ARRAY_BUFFER_LIMIT_EXCEEDED; severity := HIGH;
                limit := maxArrayBufferSize l;
                actual := arrayBuffers metrics;
                v_timestamp := timestamp metrics;
                description :=
                  "ArrayBuffer memory exceeded limit: " +:+
                  formatBytes rt (arrayBuffers metrics) +:+ " > " +:+
                  formatBytes rt (maxArrayBufferSize l) |}
    else ret tt))%js.

Definition checkMemoryGrowthAnomalies (metrics : MemoryMetrics)
    : M t unit :=
  (history <~ gets memoryHistory ;;
   if (length history <? 10)%nat then ret tt
   else
     match drop (length history - 10) history with
     | [] => ret tt
     | oldestRecent :: _ =>
         let timeDiff := timestamp metrics - timestamp oldestRecent in
         let heapGrowth := heapUsed metrics - heapUsed oldestRecent in
         if (timeDiff <? 5000) && (50 * 1024 * 1024 <? heapGrowth) then
           report {| type := MEMORY_GROWTH_ANOMALY; severity := HIGH;
                     limit := 50 * 1024 * 1024; actual := heapGrowth;
                     v_timestamp := timestamp metrics;
                     description :=
                       "Suspicious rapid memory growth: " +:+
                       formatBytes rt heapGrowth +:+ " in " +:+
                       numberToString rt timeDiff +:+ "ms" |}
         else ret tt
     end)%js.

(** [checkMemoryUsage], given what [process.memoryUsage()] and
    [Date.now()] return. *)
Definition checkMemoryUsage (usage : Process.MemoryUsage) (now : Z)
    : M t unit :=
  (peak <~ gets peakMetrics ;;
   let metrics :=
     {| heapUsed := Process.heapUsed usage;
        heapTotal := Process.heapTotal usage;
        rss := Process.rss usage;
        external := Process.external usage;
        arrayBuffers := Process.arrayBuffers usage;
        peakHeapUsed := Z.max (peakHeapUsed peak) (Process.heapUsed usage);
        peakRss := Z.max (peakRss peak) (Process.rss usage);
        timestamp := now |} in
   modify (λ s,
     let history := memoryHistory s ++ [metrics] in
     {| limits := limits s;
        memoryHistory :=
          if (100 <? length history)%nat then drop 1 history else history;
        violations := violations s;
        isMonitoring := isMonitoring s;
        peakMetrics :=
          {| heapUsed := heapUsed peak; heapTotal := heapTotal peak;
             rss := rss peak; external := external peak;
             arrayBuffers := arrayBuffers peak;
             peakHeapUsed := peakHeapUsed metrics;
             peakRss := peakRss metrics;
             timestamp := timestamp peak |};
        monitoringInterval := monitoringInterval s |}) ;;;
   checkLimits metrics ;;;
   checkMemoryGrowthAnomalies metrics)%js.

(** [startMonitoring]: the interval timer is armed, with
    [checkMemoryUsage] as its callback, before the first check is made. *)
Definition startMonitoring (usage : Process.MemoryUsage) (now : Z)
    : M t unit :=
  (monitoring <~ gets isMonitoring ;;
   if monitoring : bool then ret tt
   else
     modify (λ s,
       {| limits := limits s; memoryHistory := []; violations := [];
          isMonitoring := true;
          peakMetrics := createEmptyMetrics now;
          monitoringInterval := Some (checkInterval (limits s)) |}) ;;;
     checkMemoryUsage usage now)%js.

Definition stopMonitoring (now : Z) : M t MemoryMetrics :=
  (monitoring <~ gets isMonitoring ;;
   if monitoring : bool then
     modify (λ s,
       {| limits := limits s; memoryHistory := memoryHistory s;
          violations := violations s; isMonitoring := false;
          peakMetrics := peakMetrics s;
          monitoringInterval := None |}) ;;;
     gets peakMetrics
   else ret (createEmptyMetrics now))%js.

Definition getCurrentMemoryUsage (usage : Process.MemoryUsage) (now : Z)
    (s : t) : MemoryMetrics :=
  {| heapUsed := Process.heapUsed usage;
     heapTotal := Process.heapTotal usage;
     rss := Process.rss usage;
     external := Process.external usage;
     arrayBuffers := Process.arrayBuffers usage;
     peakHeapUsed := peakHeapUsed (peakMetrics s);
     peakRss := peakRss (peakMetrics s);
     timestamp := now |}.

Definition isMemoryUsageSafe (usage : Process.MemoryUsage) (now : Z)
    (s : t) : bool :=
  let current := getCurrentMemoryUsage usage now s in
  (heapUsed current <=? maxHeapSize (limits s))
  && (rss current <=? maxRssSize (limits s))
  && (arrayBuffers current <=? maxArrayBufferSize (limits s)).

Definition getViolations (s : t) : list MemoryViolation := violations s.

Definition getPeakMemoryUsage (s : t) : MemoryMetrics := peakMetrics s.

Definition getMemoryHistory (s : t) : list MemoryMetrics := memoryHistory s.

(** [updateLimits] with a [Partial<MemoryLimits>]. *)
Definition updateLimits (newHeap newRss newArrayBuffer newInterval : option Z)
    : M t unit :=
  modify (λ s,
    {| limits :=
         {| maxHeapSize := default (maxHeapSize (limits s)) newHeap;
            maxRssSize := default (maxRssSize (limits s)) newRss;
            maxArrayBufferSize :=
              default (maxArrayBufferSize (limits s)) newArrayBuffer;
            checkInterval := default (checkInterval (limits s)) newInterval |};
       memoryHistory := memoryHistory s; violations := violations s;
       isMonitoring := isMonitoring s; peakMetrics := peakMetrics s;
       monitoringInterval := monitoringInterval s |}).

Definition clearHistory (now : Z) : M t unit :=
  modify (λ s,
    {| limits := limits s; memoryHistory := []; violations := [];
       isMonitoring := isMonitoring s;
       peakMetrics := createEmptyMetrics now;
       monitoringInterval := monitoringInterval s |}).

(** The monitor after a sequence of calls of [checkMemoryUsage], each
    with its reading of the process and of the clock, however each call
    completes. *)
Definition sampleAll (samples : list (Process.MemoryUsage * Z)) (s : t) : t :=
  foldl (λ s sample, (checkMemoryUsage sample.1 sample.2 s).2) s samples.

End Methods.
End MemoryMonitor.

(* ===================================================================== *)
(** ** securityManager.ts                                                 *)
(* ===================================================================== *)

Module SecurityConfig.
Record t : Type := {
  enableModuleBlocking : bool;
  enableEnvironmentBlocking : bool;
  enableTimeoutManagement : bool;
  enableMemoryMonitoring : bool;
  maxExecutionTime : Z;
  maxMemoryUsage : Z;
  strictMode : bool
}.
End SecurityConfig.

Module SecureExecutionContext.
Record t : Type := {
  executionId : string;
  code : jsstring;
  language : string;
  timeout : option Z;
  memoryLimit : option Z
}.
End SecureExecutionContext.

Module SecurityReport.
(** An element of the array [violations] of a report. *)
Record Entry : Type := {
  type : ViolationType;
  severity : Severity;
  description : string;
  module : option string
}.

Record MemoryUsage : Type := {
  peak : Z;
  current : Z;
  withinLimits : bool    (* the property [safe] of [memoryUsage] *)
}.

Record t : Type := {
  executionId : string;
  timestamp : Z;
  safe : bool;
  riskLevel : Severity;
  violations : list Entry;
  memoryUsage : MemoryUsage;
  executionTime : Z;
  securityScore : Z
}.
End SecurityReport.

Module MainSecurityManager.

(** The singleton with the objects it reaches: the two module-level
    singletons it imports, its two supervisors, the two readings of the
    process that its methods take, and the readings that the timer of
    the memory monitor takes while a method waits. *)
Record t : Type := mk {
  now : Z;                                  (* [Date.now()] *)
  memoryUsage : Process.MemoryUsage;        (* [process.memoryUsage()] *)
  moduleBlocker : ModuleSecurityManager.t;
  environmentBlocker : EnvironmentBlocker.t;
  timeoutManager : TimeoutManager.t;
  memoryMonitor : MemoryMonitor.t;
  config : SecurityConfig.t;
  initialized : bool;
  (** what [process.memoryUsage()] and [Date.now()] returned to the
      interval timer of the memory monitor at each of its ticks during
      the latest wait for a promise, oldest first *)
  ticks : list (Process.MemoryUsage * Z)
}.

Definition setModuleBlocker (x : ModuleSecurityManager.t) (s : t) : t :=
  {| now := now s; memoryUsage := memoryUsage s; moduleBlocker := x;
     environmentBlocker := environmentBlocker s;
     timeoutManager := timeoutManager s; memoryMonitor := memoryMonitor s;
     config := config s; initialized := initialized s; ticks := ticks s |}.

Definition setTimeoutManager (x : TimeoutManager.t) (s : t) : t :=
  {| now := now s; memoryUsage := memoryUsage s;
     moduleBlocker := moduleBlocker s;
     environmentBlocker := environmentBlocker s;
     timeoutManager := x; memoryMonitor := memoryMonitor s;
     config := config s; initialized := initialized s; ticks := ticks s |}.

Definition setMemoryMonitor (x : MemoryMonitor.t) (s : t) : t :=
  {| now := now s; memoryUsage := memoryUsage s;
     moduleBlocker := moduleBlocker s;
     environmentBlocker := environmentBlocker s;
     timeoutManager := timeoutManager s; memoryMonitor := x;
     config := config s; initialized := initialized s; ticks := ticks s |}.

Definition setEnvironmentBlocker (x : EnvironmentBlocker.t) (s : t) : t :=
  {| now := now s; memoryUsage := memoryUsage s;
     moduleBlocker := moduleBlocker s; environmentBlocker := x;
     timeoutManager := timeoutManager s; memoryMonitor := memoryMonitor s;
     config := config s; initialized := initialized s; ticks := ticks s |}.

Definition setInitialized (b : bool) (s : t) : t :=
  {| now := now s; memoryUsage := memoryUsage s;
     moduleBlocker := moduleBlocker s;
     environmentBlocker := environmentBlocker s;
     timeoutManager := timeoutManager s; memoryMonitor := memoryMonitor s;
     config := config s; initialized := b; ticks := ticks s |}.

(** The configuration set by the constructor. *)
Definition defaultConfig : SecurityConfig.t :=
  {| SecurityConfig.enableModuleBlocking := true;
     SecurityConfig.enableEnvironmentBlocking := true;
     SecurityConfig.enableTimeoutManagement := true;
     SecurityConfig.enableMemoryMonitoring := true;
     SecurityConfig.maxExecutionTime := 30000;
     SecurityConfig.maxMemoryUsage := 128 * 1024 * 1024;
     SecurityConfig.strictMode := true |}.

Record Result (T : Type) : Type := {
  result : option T;
  securityReport : SecurityReport.t;
  success : bool;
  error : option string
}.
Arguments result {T} _.
Arguments securityReport {T} _.
Arguments success {T} _.
Arguments error {T} _.

Definition ofCode (v : ModuleSecurityManager.SecurityViolation)
    : SecurityReport.Entry :=
  {| SecurityReport.type := ModuleSecurityManager.type v;
     SecurityReport.severity := ModuleSecurityManager.severity v;
     SecurityReport.description := ModuleSecurityManager.description v;
     SecurityReport.module := ModuleSecurityManager.module v |}.

Definition ofEnvironment (v : EnvironmentBlocker.EnvironmentViolation)
    : SecurityReport.Entry :=
  {| SecurityReport.type := EnvironmentBlocker.type v;
     SecurityReport.severity := EnvironmentBlocker.severity v;
     SecurityReport.description := EnvironmentBlocker.description v;
     SecurityReport.module := None |}.

(** The two shared logs of [s'] extend those of [s]. *)
Definition grows (s s' : t) : Prop :=
  ModuleSecurityManager.violations (moduleBlocker s)
    `prefix_of` ModuleSecurityManager.violations (moduleBlocker s')
  ∧ EnvironmentBlocker.violations (environmentBlocker s)
    `prefix_of` EnvironmentBlocker.violations (environmentBlocker s').

(** A candidate that reaches the logs only through [secureRequire] and
    the proxy of [process.env]: whatever
    happens while it is awaited, entries are appended and none is removed. *)
Definition appendOnly {T} (executor : Executor t T) : Prop :=
  ∀ s, grows s (executor s).2.

(** Across a call that awaits [executor], the logs of [s'] extend those of
    [s] provided the candidate only appends. *)
Definition within {T} (executor : Executor t T) (s s' : t) : Prop :=
  appendOnly executor → grows s s'.

(** During the latest wait the timer of the memory monitor was not armed,
    or none of its readings was over the heap or the RSS limit. *)
Definition quiet (s : t) : Prop :=
  MemoryMonitor.monitoringInterval (memoryMonitor s) = None
  ∨ Forall (λ sample : Process.MemoryUsage * Z,
              Process.heapUsed sample.1
              ≤ MemoryMonitor.maxHeapSize (MemoryMonitor.limits (memoryMonitor s))
              ∧ Process.rss sample.1
                ≤ MemoryMonitor.maxRssSize
                    (MemoryMonitor.limits (memoryMonitor s)))
      (ticks s).

(** [allViolations.filter(v => v.severity === sev).length] *)
Definition countSeverity (sev : Severity)
    (allViolations : list SecurityReport.Entry) : Z :=
  Z.of_nat (length (List.filter
    (λ v, bool_decide (SecurityReport.severity v = sev)) allViolations)).

Section Methods.
Context (rt : Runtime).

Definition dateNow : M t Z := gets now.
Definition onModuleBlocker {A} (c : M ModuleSecurityManager.t A)
    : M t A := zoom moduleBlocker setModuleBlocker c.
Definition onTimeoutManager {A} (c : M TimeoutManager.t A) : M t A :=
  zoom timeoutManager setTimeoutManager c.
Definition onMemoryMonitor {A} (c : M MemoryMonitor.t A) : M t A :=
  zoom memoryMonitor setMemoryMonitor c.

Definition onEnvironmentBlocker {A} (c : M EnvironmentBlocker.t A) : M t A :=
  zoom environmentBlocker setEnvironmentBlocker c.

(** [createSecurityReport]; the fifth parameter [timeoutMetrics] is
    never read by the method and is left out. *)
Definition createSecurityReport (executionId : string)
    (codeViolations : list ModuleSecurityManager.SecurityViolation)
    (startTime : Z) (memoryMetrics : option MemoryMonitor.MemoryMetrics)
    (s : t) : SecurityReport.t :=
  let endTime := now s in
  let executionTime := endTime - startTime in
  let allViolations :=
    map ofCode codeViolations
    ++ map ofCode (ModuleSecurityManager.getViolations (moduleBlocker s))
    ++ map ofEnvironment
         (EnvironmentBlocker.getViolations (environmentBlocker s)) in
  let criticalCount := countSeverity CRITICAL allViolations in
  let highCount := countSeverity HIGH allViolations in
  let mediumCount := countSeverity MEDIUM allViolations in
  let riskLevel :=
    if 0 <? criticalCount then CRITICAL
    else if 2 <? highCount then HIGH
    else if (0 <? highCount) || (3 <? mediumCount) then MEDIUM
    else LOW in
  let securityScore := 100 in
  let securityScore := securityScore - criticalCount * 50 in
  let securityScore := securityScore - highCount * 20 in
  let securityScore := securityScore - mediumCount * 10 in
  let securityScore := Z.max 0 securityScore in
  {| SecurityReport.executionId := executionId;
     SecurityReport.timestamp := now s;
     SecurityReport.safe := (criticalCount =? 0) && (highCount =? 0);
     SecurityReport.riskLevel := riskLevel;
     SecurityReport.violations := allViolations;
     SecurityReport.memoryUsage :=
       {| SecurityReport.peak :=
            from_option MemoryMonitor.peakHeapUsed 0 memoryMetrics;
          SecurityReport.current :=
            from_option MemoryMonitor.heapUsed 0 memoryMetrics;
          SecurityReport.withinLimits :=
            MemoryMonitor.isMemoryUsageSafe (memoryUsage s) (now s)
              (memoryMonitor s) |};
     SecurityReport.executionTime := executionTime;
     SecurityReport.securityScore := securityScore |}.

(** [emergencyCleanup]: its body is one [try] whose [catch] only logs. *)
Definition emergencyCleanup (executionId : string) : M t unit :=
  tryCatch
    (t0 <~ dateNow ;;
     onTimeoutManager (TimeoutManager.terminateExecution t0 executionId
                         "EMERGENCY_CLEANUP") ;;;
     t1 <~ dateNow ;;
     onMemoryMonitor (MemoryMonitor.stopMonitoring t1) ;;;
     ret tt)%js
    (λ _, ret tt).

(** The promise of [executor()] without a deadline. *)
Definition await {T} (executor : Executor t T) : M t T :=
  λ s, match executor s with
       | (Resolved v, s') => (Normal v, s')
       | (Rejected e, s') => (Throw e, s')
       | (Pending, s') => (Never, s')
       end.

(** The callbacks of the interval timer of the memory monitor for the
    readings given, in the order of the ticks.  Each is a call of
    [checkMemoryUsage] made by the event loop: what it throws is caught
    by nobody. *)
Fixpoint runTicks (samples : list (Process.MemoryUsage * Z)) : M t unit :=
  match samples with
  | [] => ret tt
  | sample :: rest =>
      (uncaught (onMemoryMonitor
                   (MemoryMonitor.checkMemoryUsage rt sample.1 sample.2)) ;;;
       runTicks rest)%js
  end.

(** What the event loop runs of the memory monitor during a wait: nothing
    when the timer is not armed. *)
Definition intervalTicks : M t unit :=
  (handle <~ gets (λ s, MemoryMonitor.monitoringInterval (memoryMonitor s)) ;;
   samples <~ gets ticks ;;
   match handle with
   | Some _ => runTicks samples
   | None => ret tt
   end)%js.

(** [await c]: the method is suspended until [c] has completed, and the
    event loop runs the armed timers meanwhile.  Their callbacks touch the
    memory monitor only, so they are placed after what [c] does.  The
    method resumes with the completion of [c] unless a callback has ended
    the process. *)
Definition suspend {A} (c : M t A) : M t A :=
  λ s, match c s with
       | (Never, s1) => (Never, s1)
       | (completion, s1) =>
           match intervalTicks s1 with
           | (Normal _, s2) => (completion, s2)
           | (_, s2) => (Never, s2)
           end
       end.

Definition when {S} (b : bool) (c : M S unit) : M S unit :=
  if b then c else ret tt.

Definition executeSecurely {T} (context : SecureExecutionContext.t)
    (executor : Executor t T) : M t (Result T) :=
  let executionId := SecureExecutionContext.executionId context in
  let code := SecureExecutionContext.code context in
  let timeout := SecureExecutionContext.timeout context in
  (ready <~ gets initialized ;;
   if negb ready then throw (ErrorObj "Security manager not initialized")
   else
   startTime <~ dateNow ;;
   codeAnalysis <~
     onModuleBlocker (ModuleSecurityManager.analyzeCode rt startTime code) ;;
   strict <~ gets (λ s, SecurityConfig.strictMode (config s)) ;;
   if negb (ModuleSecurityManager.safe codeAnalysis) && strict then
     report <~ gets (createSecurityReport executionId
                       (ModuleSecurityManager.found codeAnalysis)
                       startTime None) ;;
     ret {| result := None; securityReport := report; success := false;
            error := Some "Code failed security analysis - contains dangerous patterns" |}
   else
   monitorMemory <~
     gets (λ s, SecurityConfig.enableMemoryMonitoring (config s)) ;;
   when monitorMemory
     (usage <~ gets memoryUsage ;;
      t0 <~ dateNow ;;
      onMemoryMonitor (MemoryMonitor.startMonitoring rt usage t0)) ;;;
   manageTimeout <~
     gets (λ s, SecurityConfig.enableTimeoutManagement (config s)) ;;
   when manageTimeout
     (t0 <~ dateNow ;;
      onTimeoutManager (TimeoutManager.startExecution t0 executionId None) ;;;
      ret tt) ;;;
   tryCatch
     (manageTimeout <~
        gets (λ s, SecurityConfig.enableTimeoutManagement (config s)) ;;
      executionResult <~
        (if manageTimeout : bool then
           limit <~ gets (λ s, SecurityConfig.maxExecutionTime (config s)) ;;
           r <~ suspend
                  (TimeoutManager.executeWithTimeout now timeoutManager
                     setTimeoutManager executionId executor
                     (Some (orElse timeout limit))) ;;
           ret (TimeoutManager.result r, TimeoutManager.success r,
                TimeoutManager.error r)
         else
           value <~ suspend (await executor) ;;
           ret (Some value, true, None)) ;;
      monitorMemory <~
        gets (λ s, SecurityConfig.enableMemoryMonitoring (config s)) ;;
      finalMemoryMetrics <~
        (if monitorMemory : bool then
           t0 <~ dateNow ;;
           metrics <~ onMemoryMonitor (MemoryMonitor.stopMonitoring t0) ;;
           ret (Some metrics)
         else ret None) ;;
      manageTimeout <~
        gets (λ s, SecurityConfig.enableTimeoutManagement (config s)) ;;
      when manageTimeout
        (t0 <~ dateNow ;;
         onTimeoutManager (TimeoutManager.stopExecution t0 executionId) ;;;
         ret tt) ;;;
      report <~ gets (createSecurityReport executionId
                        (ModuleSecurityManager.found codeAnalysis)
                        startTime finalMemoryMetrics) ;;
      ret {| result := executionResult.1.1; securityReport := report;
             success := executionResult.1.2;
             error := executionResult.2 |})
     (λ e,
      emergencyCleanup executionId ;;;
      report <~ gets (createSecurityReport executionId
                        (ModuleSecurityManager.found codeAnalysis)
                        startTime None) ;;
      ret {| result := None; securityReport := report; success := false;
             error := Some (messageOr "Security execution failed" e) |}))%js.

Definition shutdown : M t unit :=
  (t0 <~ dateNow ;;
   onTimeoutManager
     (TimeoutManager.terminateAllExecutions t0 "SYSTEM_SHUTDOWN") ;;;
   t1 <~ dateNow ;;
   onMemoryMonitor (MemoryMonitor.stopMonitoring t1) ;;;
   modify (setInitialized false))%js.

(** One call of the candidate into the secure [require] or into the proxy
    of [process.env]. *)
Inductive GateCall : Type :=
  | Require (id : string)
  | EnvGet (prop : EnvironmentBlocker.PropertyKey)
  | EnvSet (prop : EnvironmentBlocker.PropertyKey) (value : string)
  | EnvKeys.

(** The state after such a call, whether it returned or threw. *)
Definition afterCall (call : GateCall) (s : t) : t :=
  match call with
  | Require id =>
      (onModuleBlocker (ModuleSecurityManager.secureRequire rt (now s) id) s).2
  | EnvGet prop =>
      (onEnvironmentBlocker (EnvironmentBlocker.get rt (now s) prop) s).2
  | EnvSet prop value =>
      (onEnvironmentBlocker (EnvironmentBlocker.set (now s) prop value) s).2
  | EnvKeys =>
      (onEnvironmentBlocker (EnvironmentBlocker.ownKeys (now s)) s).2
  end.

(** A candidate that makes the given calls, catching what they throw, and
    whose promise then ends as [outcome]. *)
Definition throughGates {T} (calls : list GateCall) (outcome : Outcome T)
    : Executor t T :=
  λ s, (outcome, foldl (λ s call, afterCall call s) s calls).

End Methods.
End MainSecurityManager.

(* ===================================================================== *)
(** ** secureExecutionEngine.ts                                           *)
(* ===================================================================== *)

Module SecureExecutionEngine.

(** [\d] *)
Definition isDigit (c : ascii) : bool :=
  let n := N_of_ascii c in ((48 <=? n) && (n <=? 57))%N.

(** The longest prefix of digits of a string, and what follows it. *)
Fixpoint spanDigits (s : string) : string * string :=
  match s with
  | EmptyString => (EmptyString, EmptyString)
  | String c s' =>
      if isDigit c then
        let '(digits, rest) := spanDigits s' in (String c digits, rest)
      else (EmptyString, s)
  end.

(** [parseInt] on a string of digits (exact below 2^53). *)
Fixpoint parseDigits (acc : Z) (digits : string) : Z :=
  match digits with
  | EmptyString => acc
  | String c digits' =>
      parseDigits (10 * acc + Z.of_N (N_of_ascii c - 48)) digits'
  end.

Inductive MemoryUnit : Type := KB | MB | GB.

(** The letter [upper], in either case. *)
Definition isLetter (upper : ascii) (c : ascii) : bool :=
  (N_of_ascii c =? N_of_ascii upper)%N
  || (N_of_ascii c =? N_of_ascii upper + 32)%N.

(** The rest of the pattern after the digits: an optional unit, in either
    case, then the end of the string.  [None]: no match; [Some None]: a
    match without the unit. *)
Definition unitOf (rest : string) : option (option MemoryUnit) :=
  match rest with
  | EmptyString => Some None
  | String a (String b EmptyString) =>
      if isLetter "B" b then
        if isLetter "M" a then Some (Some MB)
        else if isLetter "G" a then Some (Some GB)
        else if isLetter "K" a then Some (Some KB)
        else None
      else None
  | _ => None
  end.

(** [parseMemoryLimit]; [None] is an absent argument. *)
Definition parseMemoryLimit (memoryLimit : option string) : Z :=
  match memoryLimit with
  | None => 128 * 1024 * 1024
  | Some EmptyString => 128 * 1024 * 1024
  | Some s =>
      let '(digits, rest) := spanDigits s in
      match digits, unitOf rest with
      | String _ _, Some unit =>
          let value := parseDigits 0 digits in
          match default MB unit with
          | KB => value * 1024
          | MB => value * 1024 * 1024
          | GB => value * 1024 * 1024 * 1024
          end
      | _, _ => 128 * 1024 * 1024
      end
  end.

Record Improvements : Type := {
  codeImprovements : list string;
  performanceOptimizations : list string;
  securityEnhancements : list string
}.

(** The body of the [forEach] of [generateSecurityImprovements].  Its
    cases for MEMORY_LIMIT_EXCEEDED and EXECUTION_TIMEOUT name types that
    no entry of a report has. *)
Definition suggest (improvements : Improvements) (violation : SecurityReport.Entry)
    : Improvements :=
  match SecurityReport.type violation with
  | BLOCKED_MODULE =>
      {| codeImprovements := codeImprovements improvements;
         performanceOptimizations := performanceOptimizations improvements;
         securityEnhancements :=
           securityEnhancements improvements ++
           ["Avoid using the '" +:+
            from_option (λ m, m) "undefined" (SecurityReport.module violation)
            +:+ "' module. Consider safer alternatives for your use case."] |}
  | DANGEROUS_PATTERN =>
      {| codeImprovements :=
           codeImprovements improvements ++
           ["Remove dangerous code patterns like eval(), dynamic require(), or process manipulation."];
         performanceOptimizations := performanceOptimizations improvements;
         securityEnhancements := securityEnhancements improvements |}
  | _ => improvements
  end.

Definition generateSecurityImprovements (securityReport : SecurityReport.t)
    : Improvements :=
  let improvements :=
    foldl suggest
      {| codeImprovements := []; performanceOptimizations := [];
         securityEnhancements := [] |}
      (SecurityReport.violations securityReport) in
  if SecurityReport.securityScore securityReport <? 80 then
    {| codeImprovements := codeImprovements improvements;
       performanceOptimizations := performanceOptimizations improvements;
       securityEnhancements :=
         securityEnhancements improvements ++
         ["Follow secure coding practices to improve security score.";
          "Avoid system-level operations and stick to safe computational tasks.";
          "Use whitelisted modules and avoid dynamic code execution."] |}
  else improvements.

End SecureExecutionEngine.

(* ===================================================================== *)
(** ** Concrete instances used in the examples                            *)
(* ===================================================================== *)

Module Sample.

(** [toUpperCase] on ASCII names. *)
Fixpoint asciiUpper (s : string) : string :=
  match s with
  | EmptyString => EmptyString
  | String c s' =>
      let n := N_of_ascii c in
      String (if ((97 <=? n) && (n <=? 122))%N
              then ascii_of_N (n - 32) else c)
             (asciiUpper s')
  end.

(** A runtime with room for a thousand nested calls. *)
Definition runtime : Runtime :=
  {| Value := string;
     sha256_hex := λ _, "e3b0c442"%string;
     toUpperCase := asciiUpper;
     stackRoom := 1000;
     formatBytes := λ _, "0 Bytes"%string;
     numberToString := λ _, "0"%string |}.

Definition idleProcess : Process.MemoryUsage :=
  {| Process.heapUsed := 0; Process.heapTotal := 0; Process.rss := 0;
     Process.external := 0; Process.arrayBuffers := 0 |}.

(** The manager as its constructor leaves it, at time 0 in a process
    with the environment [env], with the flag [initialized] as given. *)
Definition manager (env : gmap string string) (ready : bool)
    : MainSecurityManager.t :=
  {| MainSecurityManager.now := 0;
     MainSecurityManager.memoryUsage := idleProcess;
     MainSecurityManager.moduleBlocker := ModuleSecurityManager.new;
     MainSecurityManager.environmentBlocker := EnvironmentBlocker.new env;
     MainSecurityManager.timeoutManager :=
       TimeoutManager.new TimeoutManager.DEFAULT_CONFIG;
     MainSecurityManager.memoryMonitor :=
       MemoryMonitor.new 0 MemoryMonitor.DEFAULT_LIMITS;
     MainSecurityManager.config := MainSecurityManager.defaultConfig;
     MainSecurityManager.initialized := ready;
     MainSecurityManager.ticks := [] |}.

Definition request (id : string) (source : string)
    : SecureExecutionContext.t :=
  {| SecureExecutionContext.executionId := id;
     SecureExecutionContext.code := units source;
     SecureExecutionContext.language := "javascript";
     SecureExecutionContext.timeout := Some 1000;
     SecureExecutionContext.memoryLimit := None |}.

(** Candidates that touch nothing: one resolves, one rejects, one never
    settles. *)
Definition resolves {S} (v : string) : Executor S string :=
  λ s, (Resolved v, s).
Definition rejects {S} (msg : string) : Executor S string :=
  λ s, (Rejected (ErrorObj msg), s).
Definition hangs {S} : Executor S string := λ s, (Pending, s).

(** A candidate that touches none of the objects and ends as given, while
    the timer of the memory monitor takes the readings given. *)
Definition waits (outcome : Outcome string)
    (readings : list (Process.MemoryUsage * Z))
    : Executor MainSecurityManager.t string :=
  λ s, (outcome,
        {| MainSecurityManager.now := MainSecurityManager.now s;
           MainSecurityManager.memoryUsage := MainSecurityManager.memoryUsage s;
           MainSecurityManager.moduleBlocker :=
             MainSecurityManager.moduleBlocker s;
           MainSecurityManager.environmentBlocker :=
             MainSecurityManager.environmentBlocker s;
           MainSecurityManager.timeoutManager :=
             MainSecurityManager.timeoutManager s;
           MainSecurityManager.memoryMonitor :=
             MainSecurityManager.memoryMonitor s;
           MainSecurityManager.config := MainSecurityManager.config s;
           MainSecurityManager.initialized := MainSecurityManager.initialized s;
           MainSecurityManager.ticks := readings |}).

End Sample.

(* ===================================================================== *)
(** ** The matcher against the denotation of a pattern                    *)
(* ===================================================================== *)

Section Matcher.
Implicit Types (r : regex) (k : jsstring → option jsstring)
               (s w : jsstring).

(** The matcher finds a match whenever one exists. *)
Lemma m_complete r w :
  matches r w →
  ∀ k rest, is_Some (k rest) → is_Some (m r k (w ++ rest)).
Proof.
  induction 1 as [ | cl x Hx | cl | cl x w Hx _ IH | r1 r2 w1 w2 _ IH1 _ IH2
                 | r1 r2 w _ IH | r1 r2 w _ IH ]; intros k rest Hk; simpl.
  - done.
  - by rewrite Hx.
  - destruct rest as [|y rest']; simpl; [done|].
    destruct (accepts cl y); [|done].
    by destruct (star_m cl k rest').
  - rewrite Hx. specialize (IH k rest Hk). simpl in IH.
    by destruct IH as [out ->].
  - rewrite <- app_assoc. apply IH1. by apply IH2.
  - destruct (IH k rest Hk) as [out ->]. done.
  - destruct (m r1 k (w ++ rest)); [done|]. by apply IH.
Qed.

Lemma star_m_sound cl k s out :
  star_m cl k s = Some out →
  ∃ w rest, s = w ++ rest ∧ matches (Star cl) w ∧ k rest = Some out.
Proof.
  induction s as [|x s IH]; simpl; intros H.
  - exists [], []. split_and!; [done | constructor | done].
  - destruct (accepts cl x) eqn:Hx.
    + destruct (star_m cl k s) as [out'|] eqn:Hs.
      * injection H as ->.
        destruct (IH eq_refl) as (w & rest & -> & Hw & Hk).
        exists (x :: w), rest. split_and!; [done | by constructor | done].
      * exists [], (x :: s). split_and!; [done | constructor | done].
    + exists [], (x :: s). split_and!; [done | constructor | done].
Qed.

(** Whatever the matcher finds is a match. *)
Lemma m_sound r :
  ∀ k s out, m r k s = Some out →
  ∃ w rest, s = w ++ rest ∧ matches r w ∧ k rest = Some out.
Proof.
  induction r as [ | cl | cl | r1 IH1 r2 IH2 | r1 IH1 r2 IH2 ];
    intros k s out H; simpl in H.
  - exists [], s. split_and!; [done | constructor | done].
  - destruct s as [|x s]; [done|].
    destruct (accepts cl x) eqn:Hx; [|done].
    exists [x], s. split_and!; [done | by constructor | done].
  - by apply star_m_sound.
  - destruct (IH1 _ _ _ H) as (w1 & rest1 & -> & Hw1 & H2).
    destruct (IH2 _ _ _ H2) as (w2 & rest2 & -> & Hw2 & Hk).
    exists (w1 ++ w2), rest2. rewrite <- app_assoc.
    split_and!; [done | by constructor | done].
  - destruct (m r1 k s) as [out'|] eqn:H1.
    + injection H as ->.
      destruct (IH1 _ _ _ H1) as (w & rest & -> & Hw & Hk).
      exists w, rest. split_and!; [done | by apply matches_alt_l | done].
    + destruct (IH2 _ _ _ H) as (w & rest & -> & Hw & Hk).
      exists w, rest. split_and!; [done | by apply matches_alt_r | done].
Qed.

Lemma search_occurs r s : is_Some (search r s) ↔ occurs r s.
Proof.
  split.
  - induction s as [|x s IH]; simpl.
    + destruct (m r Some []) as [out|] eqn:Hm; [|by intros [? ?]].
      intros _. destruct (m_sound _ _ _ _ Hm) as (w & rest & E & Hw & _).
      exists [], w, rest. by split.
    + destruct (m r Some (x :: s)) as [out|] eqn:Hm.
      * intros _. destruct (m_sound _ _ _ _ Hm) as (w & rest & E & Hw & _).
        exists [], w, rest. by split.
      * intros Hs. destruct (IH Hs) as (pre & w & post & -> & Hw).
        exists (x :: pre), w, post. by split.
  - intros (pre & w & post & -> & Hw).
    induction pre as [|x pre IH]; simpl.
    + destruct (m_complete r w Hw Some post) as [out Hout]; [done|].
      simpl in Hout.
      destruct (w ++ post); simpl in *; rewrite Hout; done.
    + destruct (m r Some (x :: pre ++ w ++ post)); [done|]. exact IH.
Qed.

Lemma m_length r s out : m r Some s = Some out → (length out ≤ length s)%nat.
Proof.
  intros Hm. destruct (m_sound _ _ _ _ Hm) as (w & rest & -> & _ & [= ->]).
  rewrite length_app. lia.
Qed.

Lemma search_length r s n : search r s = Some n → (n ≤ length s)%nat.
Proof.
  revert n. induction s as [|x s IH]; intros n; cbn [search].
  - destruct (m r Some []) as [out|] eqn:Hm; [|done].
    intros [= <-]. by apply m_length in Hm.
  - destruct (m r Some (x :: s)) as [out|] eqn:Hm.
    + intros [= <-]. by apply m_length in Hm.
    + intros Hs. specialize (IH _ Hs). simpl. lia.
Qed.

Lemma occurs_drop r s i : occurs r (drop i s) → occurs r s.
Proof.
  intros (pre & w & post & E & Hw).
  exists (take i s ++ pre), w, post. split; [|done].
  rewrite <- app_assoc, <- E. by rewrite take_drop.
Qed.

(** With its cursor at the start, [test] answers whether the pattern
    occurs. *)
Lemma test_from_start (p : RegExp) s :
  lastIndex p = 0%nat → ((test p s).1 = true ↔ occurs (source p) s).
Proof.
  intros H0. unfold test. rewrite H0. simpl.
  rewrite drop_0, <- search_occurs.
  destruct (search (source p) s); simpl; split; done.
Qed.

(** A text without the pattern resets the cursor, wherever it was. *)
Lemma test_absent (p : RegExp) s :
  ¬ occurs (source p) s → test p s = (false, mkRegExp (source p) 0).
Proof.
  intros Hn. unfold test.
  destruct (length s <? lastIndex p)%nat; [done|].
  destruct (search (source p) (drop (lastIndex p) s)) eqn:Hs; [|done].
  exfalso. apply Hn, (occurs_drop _ _ (lastIndex p)), search_occurs.
  by rewrite Hs.
Qed.

Lemma test_source (p : RegExp) s : source (test p s).2 = source p.
Proof.
  unfold test. destruct (length s <? lastIndex p)%nat; [done|].
  by destruct (search (source p) (drop (lastIndex p) s)).
Qed.

(** After a call the cursor is inside the text that was scanned. *)
Lemma test_lastIndex (p : RegExp) s : (lastIndex (test p s).2 ≤ length s)%nat.
Proof.
  unfold test. destruct (length s <? lastIndex p)%nat; simpl; [lia|].
  destruct (search (source p) (drop (lastIndex p) s)); simpl; lia.
Qed.

End Matcher.


(* ===================================================================== *)
(** ** The secure [require]                                               *)
(* ===================================================================== *)

Lemma allowed_not_blocked (id : string) :
  id ∈ ModuleSecurityManager.ALLOWED_MODULES →
  id ∉ ModuleSecurityManager.BLOCKED_MODULES.
Proof.
  assert (H : Forall (λ x, x ∉ ModuleSecurityManager.BLOCKED_MODULES)
                ModuleSecurityManager.ALLOWED_MODULES).
  { apply (bool_decide_unpack _). vm_compute. exact I. }
  rewrite Forall_forall in H. exact (H id).
Qed.

Lemma exposed_only (id : string) (names : list string) :
  ModuleSecurityManager.exposed id = Some names →
  id ∈ ["crypto"; "util"; "path"]%string.
Proof.
  unfold ModuleSecurityManager.exposed.
  destruct (String.eqb_spec id "crypto") as [->|_]; [set_solver|].
  destruct (String.eqb_spec id "util") as [->|_]; [set_solver|].
  destruct (String.eqb_spec id "path") as [->|_]; [set_solver|done].
Qed.

(** A proxy built from a list of names holds exactly the properties of the
    original that are on the list. *)
Lemma proxy_lookup (rt : Runtime) (id : string) (names : list string)
    (original : gmap string (Value rt)) (k : string) :
  ModuleSecurityManager.exposed id = Some names →
  ModuleSecurityManager.createSecureModuleProxy rt id original !! k
  = if decide (k ∈ names) then original !! k else None.
Proof.
  intros E. unfold ModuleSecurityManager.createSecureModuleProxy. rewrite E.
  destruct (decide (k ∈ names)) as [Hin|Hout].
  - destruct (original !! k) as [v|] eqn:Hk.
    + by apply map_lookup_filter_Some.
    + apply map_lookup_filter_None. left. done.
  - apply map_lookup_filter_None. right. intros v _. exact Hout.
Qed.

(** The call for an allow-listed name re-enters itself until the call
    stack is full: whatever room there is, the RangeError of the innermost
    call is what reaches the caller, and nothing is logged. *)
Lemma secureRequireWithin_allowed (rt : Runtime) (frames : nat) (now : Z)
    (id : string) (s : ModuleSecurityManager.t) :
  id ∈ ModuleSecurityManager.ALLOWED_MODULES →
  ModuleSecurityManager.secureRequireWithin rt frames now id s
  = (Throw (ErrorObj "Maximum call stack size exceeded"), s).
Proof.
  intros Ha. pose proof (allowed_not_blocked id Ha) as Hb.
  induction frames as [|frames IH]; simpl;
    rewrite (bool_decide_eq_false_2 _ Hb), (bool_decide_eq_true_2 _ Ha);
    unfold bind.
  - reflexivity.
  - by rewrite IH.
Qed.



(* ===================================================================== *)
(** ** The proxy of [process.env] and the safe environment                *)
(* ===================================================================== *)

Lemma allowed_not_sensitive (name : string) :
  name ∈ EnvironmentBlocker.ALLOWED_VARS →
  name ∉ EnvironmentBlocker.SENSITIVE_VARS.
Proof.
  assert (H : Forall (λ x, x ∉ EnvironmentBlocker.SENSITIVE_VARS)
                EnvironmentBlocker.ALLOWED_VARS).
  { apply (bool_decide_unpack _). vm_compute. exact I. }
  rewrite Forall_forall in H. exact (H name).
Qed.

(** C8, as the code has it.  The proxy compares the upper-cased name with
    its two lists.  A read of a name that is allow-listed once upper-cased
    returns what [originalProcessEnv] holds for the name as given and
    records nothing; a read of a name that is sensitive once upper-cased
    raises and appends a CRITICAL violation; a read of any other name
    returns [undefined] and appends a HIGH violation. *)
Theorem env_get_cases (rt : Runtime) (now : Z) (name : string)
    (s : EnvironmentBlocker.t) :
  let out := EnvironmentBlocker.get rt now (EnvironmentBlocker.StringKey name) s in
  (toUpperCase rt name ∈ EnvironmentBlocker.ALLOWED_VARS →
     out = (Normal (EnvironmentBlocker.originalProcessEnv s !! name), s))
  ∧ (toUpperCase rt name ∈ EnvironmentBlocker.SENSITIVE_VARS →
     ∃ v msg s',
       out = (Throw (ErrorObj msg), s')
       ∧ EnvironmentBlocker.violations s'
         = EnvironmentBlocker.violations s ++ [v]
       ∧ EnvironmentBlocker.severity v = CRITICAL
       ∧ EnvironmentBlocker.variable v = Some name)
  ∧ (toUpperCase rt name ∉ EnvironmentBlocker.ALLOWED_VARS →
     toUpperCase rt name ∉ EnvironmentBlocker.SENSITIVE_VARS →
     ∃ v s',
       out = (Normal None, s')
       ∧ EnvironmentBlocker.violations s'
         = EnvironmentBlocker.violations s ++ [v]
       ∧ EnvironmentBlocker.severity v = HIGH
       ∧ EnvironmentBlocker.variable v = Some name).
Proof.
  unfold EnvironmentBlocker.get. split_and!.
  - intros Ha. pose proof (allowed_not_sensitive _ Ha) as Hs.
    by rewrite (bool_decide_eq_false_2 _ Hs), (bool_decide_eq_true_2 _ Ha).
  - intros Hs. rewrite (bool_decide_eq_true_2 _ Hs).
    eexists _, _, _. split_and!; reflexivity.
  - intros Ha Hs.
    rewrite (bool_decide_eq_false_2 _ Hs), (bool_decide_eq_false_2 _ Ha).
    eexists _, _. split_and!; reflexivity.
Qed.

Lemma env_get_cases_witness :
  let s := EnvironmentBlocker.new {[ "TZ"%string := "UTC"%string ]} in
  EnvironmentBlocker.get Sample.runtime 7 (EnvironmentBlocker.StringKey "TZ") s
    = (Normal (Some "UTC"%string), s)
  ∧ (∃ v msg s',
       EnvironmentBlocker.get Sample.runtime 7
         (EnvironmentBlocker.StringKey "api_key") s
       = (Throw (ErrorObj msg), s')
       ∧ EnvironmentBlocker.violations s' = [] ++ [v]
       ∧ EnvironmentBlocker.severity v = CRITICAL
       ∧ EnvironmentBlocker.variable v = Some "api_key"%string)
  ∧ (∃ v s',
       EnvironmentBlocker.get Sample.runtime 7
         (EnvironmentBlocker.StringKey "EDITOR") s
       = (Normal None, s')
       ∧ EnvironmentBlocker.violations s' = [] ++ [v]
       ∧ EnvironmentBlocker.severity v = HIGH
       ∧ EnvironmentBlocker.variable v = Some "EDITOR"%string).
Proof.
  intros s. split_and!.
  - apply (env_get_cases Sample.runtime 7 "TZ" s).
    apply (bool_decide_unpack _). vm_compute. exact I.
  - apply (env_get_cases Sample.runtime 7 "api_key" s).
    apply (bool_decide_unpack _). vm_compute. exact I.
  - apply (env_get_cases Sample.runtime 7 "EDITOR" s);
      apply (bool_decide_unpack _); vm_compute; exact I.
Defined.

(** C8 as stated fails on names that are on a list only once they are
    upper-cased.  The name [api_key] is on neither list, yet a read of it
    raises and the violation recorded is CRITICAL; the name [tz] is on
    neither list, yet a read of it returns what the environment holds
    under that name and records nothing. *)
Lemma env_get_other_spelling :
  let s := EnvironmentBlocker.new {[ "tz"%string := "UTC"%string ]} in
  ("api_key"%string ∉ EnvironmentBlocker.ALLOWED_VARS)
  ∧ ("api_key"%string ∉ EnvironmentBlocker.SENSITIVE_VARS)
  ∧ (∃ v msg s',
       EnvironmentBlocker.get Sample.runtime 7
         (EnvironmentBlocker.StringKey "api_key") s
       = (Throw (ErrorObj msg), s')
       ∧ EnvironmentBlocker.violations s' = [v]
       ∧ EnvironmentBlocker.severity v = CRITICAL)
  ∧ ("tz"%string ∉ EnvironmentBlocker.ALLOWED_VARS)
  ∧ ("tz"%string ∉ EnvironmentBlocker.SENSITIVE_VARS)
  ∧ EnvironmentBlocker.get Sample.runtime 7
      (EnvironmentBlocker.StringKey "tz") s
    = (Normal (Some "UTC"%string), s).
Proof.
  intros s. split_and!.
  - apply (bool_decide_unpack _). vm_compute. exact I.
  - apply (bool_decide_unpack _). vm_compute. exact I.
  - eexists _, _, _. split_and!; reflexivity.
  - apply (bool_decide_unpack _). vm_compute. exact I.
  - apply (bool_decide_unpack _). vm_compute. exact I.
  - reflexivity.
Qed.

(** For a name that is spelled as on a list, given that [toUpperCase]
    leaves the upper-case names of the two lists as they are. *)
Lemma env_get_listed (rt : Runtime) (now : Z) (name : string)
    (s : EnvironmentBlocker.t) :
  (∀ n, n ∈ EnvironmentBlocker.ALLOWED_VARS ++ EnvironmentBlocker.SENSITIVE_VARS →
        toUpperCase rt n = n) →
  (name ∈ EnvironmentBlocker.ALLOWED_VARS →
     EnvironmentBlocker.get rt now (EnvironmentBlocker.StringKey name) s
     = (Normal (EnvironmentBlocker.originalProcessEnv s !! name), s))
  ∧ (name ∈ EnvironmentBlocker.SENSITIVE_VARS →
     ∃ msg s',
       EnvironmentBlocker.get rt now (EnvironmentBlocker.StringKey name) s
       = (Throw (ErrorObj msg), s')).
Proof.
  intros Hup. unfold EnvironmentBlocker.get. split; intros Hin.
  - rewrite Hup by (apply elem_of_app; by left).
    pose proof (allowed_not_sensitive _ Hin) as Hs.
    by rewrite (bool_decide_eq_false_2 _ Hs), (bool_decide_eq_true_2 _ Hin).
  - rewrite Hup by (apply elem_of_app; by right).
    rewrite (bool_decide_eq_true_2 _ Hin). by eexists _, _.
Qed.

Lemma copyAllowed_lookup (env : gmap string string) (names : list string)
    (k : string) :
  EnvironmentBlocker.copyAllowed env names !! k
  = if decide (k ∈ names) then env !! k else None.
Proof.
  unfold EnvironmentBlocker.copyAllowed.
  assert (G : ∀ acc : gmap string string,
    foldl (λ safeEnv varName,
             match env !! varName with
             | Some value => <[varName := value]> safeEnv
             | None => safeEnv
             end) acc names !! k
    = if decide (k ∈ names)
      then match env !! k with Some v => Some v | None => acc !! k end
      else acc !! k).
  { induction names as [|n names IH]; intros acc; cbn [foldl].
    - by rewrite decide_False by set_solver.
    - rewrite IH.
      destruct (decide (k ∈ names)) as [Hin|Hout].
      + rewrite decide_True by set_solver.
        destruct (env !! k) eqn:Ek; [done|].
        destruct (env !! n) eqn:En; [|done].
        rewrite lookup_insert_ne; [done|]. intros ->. congruence.
      + destruct (decide (k = n)) as [->|Hne].
        * rewrite decide_True by set_solver.
          destruct (env !! n); [by rewrite lookup_insert_eq|done].
        * rewrite decide_False by (intros [?|?]%elem_of_cons; done).
          destruct (env !! n); [by rewrite lookup_insert_ne|done]. }
  rewrite G, lookup_empty. destruct (decide (k ∈ names)); [|done].
  by destruct (env !! k).
Qed.

(** C9, as the code has it.  Every key of the map that
    [createSafeEnvironment] returns is an allow-listed name or the added
    key SANDBOX.  SANDBOX is always there with the value true, NODE_ENV
    always with the value sandbox, and any other allow-listed name has the
    entry that [originalProcessEnv] has for it, if any. *)
Theorem createSafeEnvironment_keys (s : EnvironmentBlocker.t) :
  let safeEnv := EnvironmentBlocker.createSafeEnvironment s in
  (∀ k, is_Some (safeEnv !! k) →
        k ∈ EnvironmentBlocker.ALLOWED_VARS ∨ k = "SANDBOX"%string)
  ∧ safeEnv !! "SANDBOX"%string = Some "true"%string
  ∧ safeEnv !! "NODE_ENV"%string = Some "sandbox"%string
  ∧ (∀ k, k ∈ EnvironmentBlocker.ALLOWED_VARS → k ≠ "NODE_ENV"%string →
          safeEnv !! k = EnvironmentBlocker.originalProcessEnv s !! k).
Proof.
  unfold EnvironmentBlocker.createSafeEnvironment. split_and!.
  - intros k Hk.
    destruct (decide (k = "SANDBOX"%string)) as [->|H1]; [by right|].
    destruct (decide (k = "NODE_ENV"%string)) as [->|H2]; [left; set_solver|].
    rewrite !lookup_insert_ne, copyAllowed_lookup in Hk by done.
    destruct (decide (k ∈ EnvironmentBlocker.ALLOWED_VARS)); [by left|].
    by destruct Hk.
  - by rewrite lookup_insert_eq.
  - rewrite lookup_insert_ne by done. by rewrite lookup_insert_eq.
  - intros k Hin Hne.
    assert (k ≠ "SANDBOX"%string).
    { intros ->. revert Hin. apply (bool_decide_unpack _). vm_compute. exact I. }
    rewrite !lookup_insert_ne, copyAllowed_lookup by done.
    by rewrite decide_True.
Qed.

Lemma createSafeEnvironment_keys_witness :
  let s := EnvironmentBlocker.new
             {[ "TZ"%string := "UTC"%string; "HOME"%string := "/root"%string ]} in
  let safeEnv := EnvironmentBlocker.createSafeEnvironment s in
  ("TZ"%string ∈ EnvironmentBlocker.ALLOWED_VARS ∨ "TZ"%string = "SANDBOX"%string)
  ∧ safeEnv !! "TZ"%string = EnvironmentBlocker.originalProcessEnv s !! "TZ"%string.
Proof.
  intros s safeEnv.
  destruct (createSafeEnvironment_keys s) as (Hkeys & _ & _ & Hvals).
  split.
  - apply (Hkeys "TZ"%string). vm_compute. eauto.
  - apply (Hvals "TZ"%string).
    + apply (bool_decide_unpack _). vm_compute. exact I.
    + discriminate.
Defined.

(** C9 as stated fails in every state: the key SANDBOX is in the returned
    map and is not an allow-listed name. *)
Lemma createSafeEnvironment_has_SANDBOX :
  let safeEnv :=
    EnvironmentBlocker.createSafeEnvironment (EnvironmentBlocker.new ∅) in
  safeEnv !! "SANDBOX"%string = Some "true"%string
  ∧ "SANDBOX"%string ∉ EnvironmentBlocker.ALLOWED_VARS.
Proof.
  split.
  - reflexivity.
  - apply (bool_decide_unpack _). vm_compute. exact I.
Qed.

(* ===================================================================== *)
(** ** The report: score, risk level and the flag [safe]                  *)
(* ===================================================================== *)

Lemma countSeverity_nonneg (sev : Severity) (vs : list SecurityReport.Entry) :
  0 ≤ MainSecurityManager.countSeverity sev vs.
Proof. unfold MainSecurityManager.countSeverity. lia. Qed.

Lemma countSeverity_app (sev : Severity) (vs ws : list SecurityReport.Entry) :
  MainSecurityManager.countSeverity sev (vs ++ ws)
  = MainSecurityManager.countSeverity sev vs
    + MainSecurityManager.countSeverity sev ws.
Proof.
  unfold MainSecurityManager.countSeverity.
  rewrite List.filter_app, length_app. lia.
Qed.


Lemma countSeverity_pos (sev : Severity) (vs : list SecurityReport.Entry) :
  0 < MainSecurityManager.countSeverity sev vs
  ↔ ∃ v, v ∈ vs ∧ SecurityReport.severity v = sev.
Proof.
  unfold MainSecurityManager.countSeverity.
  induction vs as [|x vs IH]; simpl.
  - split; [lia | intros (v & Hv & _); by apply elem_of_nil in Hv].
  - destruct (bool_decide (SecurityReport.severity x = sev)) eqn:Hx; simpl.
    + apply bool_decide_eq_true_1 in Hx. split; [|lia].
      intros _. exists x. split; [by left|done].
    + apply bool_decide_eq_false_1 in Hx. rewrite IH. split.
      * intros (v & Hv & Hs). exists v. split; [by right|done].
      * intros (v & Hv & Hs). exists v. split; [|done].
        apply elem_of_cons in Hv as [->|Hv]; [done|exact Hv].
Qed.



Lemma securityScore_range (executionId : string)
    (codeViolations : list ModuleSecurityManager.SecurityViolation)
    (startTime : Z) (memoryMetrics : option MemoryMonitor.MemoryMetrics)
    (s : MainSecurityManager.t) :
  0 ≤ SecurityReport.securityScore
        (MainSecurityManager.createSecurityReport executionId codeViolations
           startTime memoryMetrics s) ≤ 100.
Proof.
  unfold MainSecurityManager.createSecurityReport. cbn.
  set (all := _ ++ _ ++ _).
  pose proof (countSeverity_nonneg CRITICAL all).
  pose proof (countSeverity_nonneg HIGH all).
  pose proof (countSeverity_nonneg MEDIUM all).
  lia.
Qed.



(* ===================================================================== *)
(** ** Rules for [wp]                                                     *)
(* ===================================================================== *)

Section Rules.
Context {S : Type}.
Implicit Types (s : S) (Qt : Thrown → S → Prop) (Qh : S → Prop).

Lemma wp_ret {A} (a : A) (Qn : A → S → Prop) Qt Qh s :
  Qn a s → wp (ret a) Qn Qt Qh s.
Proof. done. Qed.

Lemma wp_throw {A} (e : Thrown) (Qn : A → S → Prop) Qt Qh s :
  Qt e s → wp (throw e) Qn Qt Qh s.
Proof. done. Qed.

Lemma wp_gets {A} (f : S → A) (Qn : A → S → Prop) Qt Qh s :
  Qn (f s) s → wp (gets f) Qn Qt Qh s.
Proof. done. Qed.

Lemma wp_modify (f : S → S) (Qn : unit → S → Prop) Qt Qh s :
  Qn tt (f s) → wp (modify f) Qn Qt Qh s.
Proof. done. Qed.

Lemma wp_bind {A B} (c : M S A) (f : A → M S B) (Qn : B → S → Prop)
    Qt Qh s :
  wp c (λ a s', wp (f a) Qn Qt Qh s') Qt Qh s → wp (bind c f) Qn Qt Qh s.
Proof. unfold wp, bind. by destruct (c s) as [[a|e|] s']. Qed.

Lemma wp_tryCatch {A} (c : M S A) (h : Thrown → M S A)
    (Qn : A → S → Prop) Qt Qh s :
  wp c Qn (λ e s', wp (h e) Qn Qt Qh s') Qh s →
  wp (tryCatch c h) Qn Qt Qh s.
Proof. unfold wp, tryCatch. by destruct (c s) as [[a|e|] s']. Qed.

Lemma wp_tryFinally {A} (body : M S A) (cleanup : M S unit)
    (Qn : A → S → Prop) Qt Qh s :
  wp body (λ a s', returns cleanup (λ _, Qn a) s')
          (λ e s', returns cleanup (λ _, Qt e) s') Qh s →
  wp (tryFinally body cleanup) Qn Qt Qh s.
Proof.
  unfold returns, wp, tryFinally.
  destruct (body s) as [[a|e|] s']; [| |done];
    by destruct (cleanup s') as [[[]|e'|] s''].
Qed.

Lemma wp_zoom {T A} (get : S → T) (set : T → S → S) (c : M T A)
    (Qn : A → S → Prop) Qt Qh s :
  wp c (λ a t, Qn a (set t s)) (λ e t, Qt e (set t s)) (λ t, Qh (set t s))
     (get s) →
  wp (zoom get set c) Qn Qt Qh s.
Proof. unfold wp, zoom. by destruct (c (get s)) as [[a|e|] t]. Qed.

Lemma wp_mono {A} (c : M S A) (Qn Qn' : A → S → Prop) Qt Qt' Qh Qh' s :
  wp c Qn Qt Qh s →
  (∀ a s', Qn a s' → Qn' a s') → (∀ e s', Qt e s' → Qt' e s') →
  (∀ s', Qh s' → Qh' s') →
  wp c Qn' Qt' Qh' s.
Proof.
  unfold wp. intros H Hn Ht Hh. destruct (c s) as [[a|e|] s']; auto.
Qed.

(** A method that returns can stand where any outcome is allowed. *)
Lemma wp_returns {A} (c : M S A) (Q Qn : A → S → Prop) Qt Qh s :
  returns c Q s → (∀ a s', Q a s' → Qn a s') → wp c Qn Qt Qh s.
Proof. intros H Hn. eapply wp_mono; [exact H|exact Hn|done..]. Qed.

Lemma wp_whenTruthy (x : option Z) (f : Z → M S unit)
    (Qn : unit → S → Prop) Qt Qh s :
  (truthy x = true → ∀ v, x = Some v → wp (f v) Qn Qt Qh s) →
  (truthy x = false → Qn tt s) →
  wp (whenTruthy x f) Qn Qt Qh s.
Proof.
  unfold whenTruthy, truthy.
  destruct x as [v|]; [|intros _ H2; by apply wp_ret, H2].
  destruct (v =? 0); simpl; intros H1 H2; [by apply wp_ret, H2|by apply H1].
Qed.

Lemma returns_elim {A} (c : M S A) (Q : A → S → Prop) s :
  returns c Q s → ∃ a s', c s = (Normal a, s') ∧ Q a s'.
Proof.
  unfold returns, wp. destruct (c s) as [[a|e|] s']; [by eauto|done..].
Qed.

Lemma returns_intro {A} (c : M S A) (Q : A → S → Prop) s a s' :
  c s = (Normal a, s') → Q a s' → returns c Q s.
Proof. unfold returns, wp. by intros ->. Qed.

Lemma returns_conj {A} (c : M S A) (Q1 Q2 : A → S → Prop) s :
  returns c Q1 s → returns c Q2 s → returns c (λ a s', Q1 a s' ∧ Q2 a s') s.
Proof. unfold returns, wp. by destruct (c s) as [[a|e|] s']. Qed.

Lemma wp_elim {A} (c : M S A) (Qn : A → S → Prop) Qt Qh s a s' :
  wp c Qn Qt Qh s → c s = (Normal a, s') → Qn a s'.
Proof. unfold wp. intros H E. by rewrite E in H. Qed.

End Rules.

(* ===================================================================== *)
(** ** The timeout manager                                                *)
(* ===================================================================== *)

Section TimeoutFacts.
Import TimeoutManager.
Implicit Types (s : TimeoutManager.t) (Qt : Thrown → TimeoutManager.t → Prop).

(** None of the bookkeeping methods throws, and none touches [config]. *)
Lemma startExecution_config now id w s :
  returns (startExecution now id w) (λ _ s', config s' = config s) s.
Proof. done. Qed.

Lemma mutate_config a f s :
  returns (mutate a f) (λ _ s', config s' = config s) s.
Proof. done. Qed.

Lemma stopExecution_config now id s :
  returns (stopExecution now id) (λ _ s', config s' = config s) s.
Proof.
  unfold returns, wp, stopExecution, bind, gets. simpl.
  by destruct (activeExecutions s !! id).
Qed.

Lemma terminateExecution_config now id why s :
  returns (terminateExecution now id why) (λ _ s', config s' = config s) s.
Proof.
  unfold returns, wp, terminateExecution, bind, gets. simpl.
  by destruct (activeExecutions s !! id).
Qed.

Lemma setMaxExecutionTime_config v s :
  returns (setMaxExecutionTime v)
    (λ _ s', maxExecutionTime (config s') = v
             ∧ maxCpuTime (config s') = maxCpuTime (config s)
             ∧ checkInterval (config s') = checkInterval (config s)) s.
Proof. done. Qed.

Lemma config_ext (c1 c2 : TimeoutConfig) :
  maxExecutionTime c1 = maxExecutionTime c2 →
  maxCpuTime c1 = maxCpuTime c2 →
  checkInterval c1 = checkInterval c2 → c1 = c2.
Proof. destruct c1, c2; simpl; by intros -> -> ->. Qed.

End TimeoutFacts.

Section HostedTimeout.
Import TimeoutManager.
Context {S T : Type} (clock : S → Z) (getTM : S → TimeoutManager.t)
        (setTM : TimeoutManager.t → S → S).
Hypothesis get_set : ∀ x s, getTM (setTM x s) = x.

Lemma on_config {A} (c : M TimeoutManager.t A) (s : S) :
  returns c (λ _ t', config t' = config (getTM s)) (getTM s) →
  returns (on getTM setTM c) (λ _ s', config (getTM s') = config (getTM s)) s.
Proof.
  intros H. apply wp_zoom. eapply wp_mono; [exact H| |done..].
  intros a t' Ht. by rewrite get_set.
Qed.

Lemma race_config (id : string) (execution : Executor S T) (s : S) :
  wp (race clock getTM setTM id execution)
     (λ _ s', keepsConfig getTM execution → config (getTM s') = config (getTM s))
     (λ _ s', keepsConfig getTM execution → config (getTM s') = config (getTM s))
     (λ _, False) s.
Proof.
  unfold wp, race. pose proof (λ H : keepsConfig getTM execution, H s) as Hk.
  destruct (execution s) as [[v|e|] s1]; simpl in *; [done..|].
  pose proof (terminateExecution_config (clock s1) id "EXECUTION_TIMEOUT"
                (getTM s1)) as Ht.
  apply on_config, returns_elim in Ht as (b & s2 & E & Hc).
  unfold bind, dateNow, gets. rewrite E. simpl.
  intros H. rewrite Hc. by apply Hk.
Qed.

(** The [try]/[catch] of [executeWithTimeout] always completes normally. *)
Lemma guarded_config (id : string) (execution : Executor S T)
    (metricsRef : nat) (s : S) :
  returns
    (tryCatch
       (value <~ race clock getTM setTM id execution ;;
        now <~ dateNow clock ;;
        stopped <~ on getTM setTM (stopExecution now id) ;;
        final <~ gets (λ s, deref (getTM s) (default metricsRef stopped)) ;;
        ret {| result := Some value; finalMetrics := final;
               success := true; error := None |})
       (λ e,
        now <~ dateNow clock ;;
        stopped <~ on getTM setTM (stopExecution now id) ;;
        on getTM setTM (mutate (default metricsRef stopped) (λ x,
          {| startTime := startTime x; endTime := endTime x;
             executionTime := executionTime x;
             cpuUsage := cpuUsage x; memoryPeak := memoryPeak x;
             timedOut := true;
             reason := Some (messageOr "Unknown error" e) |})) ;;;
        final <~ gets (λ s, deref (getTM s) (default metricsRef stopped)) ;;
        ret {| result := None; finalMetrics := final;
               success := false;
               error := Some (messageOr "Unknown error" e) |}))%js
    (λ _ s', keepsConfig getTM execution → config (getTM s') = config (getTM s)) s.
Proof.
  unfold returns. apply wp_tryCatch, wp_bind.
  eapply wp_mono; [apply race_config| | |done].
  - intros v s1 H1. apply wp_bind, wp_gets, wp_bind.
    eapply wp_mono; [apply on_config, stopExecution_config| |done..].
    intros stopped s2 H2. simpl. apply wp_bind, wp_gets, wp_ret.
    intros Hk. rewrite H2. by apply H1.
  - intros e s1 H1. apply wp_bind, wp_gets, wp_bind.
    eapply wp_mono; [apply on_config, stopExecution_config| |done..].
    intros stopped s2 H2. simpl. apply wp_bind.
    eapply wp_mono; [apply on_config, mutate_config| |done..].
    intros [] s3 H3. simpl. apply wp_bind, wp_gets, wp_ret.
    intros Hk. rewrite H3, H2. by apply H1.
Qed.

(** [executeWithTimeout] never throws and never hangs; an override of the
    timeout is undone when it returns, and [config] as a whole is as
    before when the candidate leaves it alone. *)
Lemma executeWithTimeout_returns (id : string) (execution : Executor S T)
    (customTimeout : option Z) (s : S) :
  returns (executeWithTimeout clock getTM setTM id execution customTimeout)
    (λ _ s',
       (truthy customTimeout = true →
        maxExecutionTime (config (getTM s'))
        = maxExecutionTime (config (getTM s)))
       ∧ (keepsConfig getTM execution → config (getTM s') = config (getTM s))) s.
Proof.
  unfold returns, executeWithTimeout.
  apply wp_bind, wp_gets, wp_bind.
  set (Q := λ s1 : S,
         maxCpuTime (config (getTM s1)) = maxCpuTime (config (getTM s))
         ∧ checkInterval (config (getTM s1)) = checkInterval (config (getTM s))
         ∧ (truthy customTimeout = false → config (getTM s1) = config (getTM s))).
  apply (wp_mono _ (λ _ s1, Q s1) _ (λ _ _, False) _ (λ _, False)); [| |done..].
  { apply wp_whenTruthy.
    - intros Ht v _. apply wp_zoom. unfold setMaxExecutionTime.
      apply wp_modify. unfold Q. rewrite !get_set. simpl.
      split_and!; [done..|]. by rewrite Ht.
    - intros _. unfold Q. done. }
  intros [] s1 (Hcpu & Hint & Hsame). simpl.
  apply wp_bind, wp_gets, wp_bind.
  eapply wp_mono; [apply on_config, startExecution_config| |done..].
  intros metricsRef s2 H2. simpl.
  apply wp_tryFinally.
  eapply wp_mono; [apply guarded_config| |done..].
  intros r s3 H3. simpl.
  apply wp_whenTruthy.
  - intros Ht v _. apply wp_zoom. unfold setMaxExecutionTime.
    apply wp_modify. rewrite !get_set. simpl.
    split; [done|]. intros Hk. apply config_ext; simpl; [done|..].
    + by rewrite (H3 Hk), H2.
    + by rewrite (H3 Hk), H2.
  - intros Hf. split; [by rewrite Hf|].
    intros Hk. by rewrite (H3 Hk), H2, (Hsame Hf).
Qed.

(** Outside the manager, [executeWithTimeout] changes what the candidate
    changes: a preorder on states that the writes to the manager and the
    candidate respect relates the state before to the state after. *)
Section Frame.
Context (R : S → S → Prop) `{!Reflexive R, !Transitive R}.
Hypothesis R_set : ∀ x s0, R s0 (setTM x s0).

Lemma on_frame {A} (c : M TimeoutManager.t A) (Q : A → TimeoutManager.t → Prop)
    (s s0 : S) :
  R s s0 → returns c Q (getTM s0) →
  returns (on getTM setTM c) (λ _ s', R s s') s0.
Proof.
  intros H0 Hc. apply wp_zoom. eapply wp_mono; [exact Hc| |done..].
  intros a t' _. etrans; [exact H0|apply R_set].
Qed.

Lemma executeWithTimeout_frame (id : string) (execution : Executor S T)
    (customTimeout : option Z) (s : S) :
  (∀ s0, R s0 (execution s0).2) →
  returns (executeWithTimeout clock getTM setTM id execution customTimeout)
    (λ _ s', R s s') s.
Proof.
  intros Hex. unfold returns, executeWithTimeout.
  assert (Hwhen : ∀ f s0, R s s0 →
    returns (whenTruthy customTimeout
               (λ v, on getTM setTM (setMaxExecutionTime (f v))))
            (λ _ s', R s s') s0).
  { intros f s0 H0. apply wp_whenTruthy; [|done].
    intros _ v _. eapply on_frame; [exact H0|].
    apply setMaxExecutionTime_config. }
  apply wp_bind, wp_gets, wp_bind.
  eapply wp_mono; [apply (Hwhen (λ v, v) s); reflexivity| |done..].
  intros [] s1 H1. simpl.
  apply wp_bind, wp_gets, wp_bind.
  eapply wp_mono;
    [eapply on_frame; [exact H1|apply startExecution_config]| |done..].
  intros metricsRef s2 H2. simpl.
  apply wp_tryFinally.
  apply (wp_mono _ (λ _ s', R s s') _ (λ _ _, False) _ (λ _, False));
    [|intros a s' H'; by apply (Hwhen (λ _, _))|done..].
  apply wp_tryCatch, wp_bind.
  assert (Hrace : wp (race clock getTM setTM id execution)
            (λ _ s', R s s') (λ _ s', R s s') (λ _, False) s2).
  { unfold wp, race. pose proof (Hex s2) as H3.
    destruct (execution s2) as [[v|e|] s3]; simpl in H3;
      [exact (transitivity H2 H3)..|].
    pose proof (transitivity H2 H3 : R s s3) as H4.
    pose proof (on_frame _ _ s s3 H4
      (terminateExecution_config (clock s3) id "EXECUTION_TIMEOUT" _)) as Ht.
    apply returns_elim in Ht as (b & s4 & E & H5).
    unfold bind, dateNow, gets. rewrite E. exact H5. }
  eapply wp_mono; [exact Hrace| | |done].
  - intros v s3 H3. simpl. apply wp_bind, wp_gets, wp_bind.
    eapply wp_mono;
      [eapply on_frame; [exact H3|apply stopExecution_config]| |done..].
    intros stopped s4 H4. simpl. by apply wp_bind, wp_gets, wp_ret.
  - intros e s3 H3. simpl. apply wp_bind, wp_gets, wp_bind.
    eapply wp_mono;
      [eapply on_frame; [exact H3|apply stopExecution_config]| |done..].
    intros stopped s4 H4. simpl. apply wp_bind.
    eapply wp_mono;
      [eapply on_frame; [exact H4|apply mutate_config]| |done..].
    intros [] s5 H5. simpl. by apply wp_bind, wp_gets, wp_ret.
Qed.

End Frame.

(** What holds of every state that the candidate leaves, and is not
    affected by writes to the timeout manager, holds when
    [executeWithTimeout] returns: the candidate is called on every path. *)
Lemma executeWithTimeout_after (P Q : S → Prop) (id : string)
    (execution : Executor S T) (customTimeout : option Z) (s : S) :
  (∀ x s0, P s0 → P (setTM x s0)) →
  (∀ x s0, Q s0 → Q (setTM x s0)) →
  (∀ s0, P s0 → Q (execution s0).2) →
  P s →
  returns (executeWithTimeout clock getTM setTM id execution customTimeout)
    (λ _ s', Q s') s.
Proof.
  intros HsetP Hset Hex HP. unfold returns, executeWithTimeout.
  assert (Hon : ∀ {A} (c : M TimeoutManager.t A) post s0,
            Q s0 → returns c post (getTM s0) →
            returns (on getTM setTM c) (λ _ s', Q s') s0).
  { intros A c post s0 H0 Hc. apply wp_zoom. eapply wp_mono; [exact Hc| |done..].
    intros a t' _. by apply Hset. }
  assert (Hwhen : ∀ f s0, Q s0 →
    returns (whenTruthy customTimeout
               (λ v, on getTM setTM (setMaxExecutionTime (f v))))
            (λ _ s', Q s') s0).
  { intros f s0 H0. apply wp_whenTruthy; [|done].
    intros _ v _. eapply Hon; [exact H0|].
    apply setMaxExecutionTime_config. }
  apply wp_bind, wp_gets, wp_bind.
  eapply (wp_returns _ (λ _ s', P s')).
  { apply wp_whenTruthy; [|done]. intros _ v _. apply wp_zoom.
    eapply wp_mono; [apply setMaxExecutionTime_config| |done..].
    intros a t' _. by apply HsetP. }
  intros [] s1 HP1. simpl.
  apply wp_bind, wp_gets, wp_bind.
  eapply (wp_returns _ (λ _ s', P s')).
  { apply wp_zoom. eapply wp_mono; [apply startExecution_config| |done..].
    intros a t' _. by apply HsetP. }
  intros metricsRef s2 HP2. simpl.
  apply wp_tryFinally.
  apply (wp_mono _ (λ _ s', Q s') _ (λ _ _, False) _ (λ _, False));
    [|intros a s' H'; by apply (Hwhen (λ _, _))|done..].
  apply wp_tryCatch, wp_bind.
  assert (Hrace : wp (race clock getTM setTM id execution)
            (λ _ s', Q s') (λ _ s', Q s') (λ _, False) s2).
  { unfold wp, race. pose proof (Hex s2 HP2) as H3.
    destruct (execution s2) as [[v|e|] s3]; simpl in H3; [exact H3..|].
    pose proof (Hon _ _ _ s3 H3
      (terminateExecution_config (clock s3) id "EXECUTION_TIMEOUT" _)) as Ht.
    apply returns_elim in Ht as (b & s4 & E & H5).
    unfold bind, dateNow, gets. rewrite E. exact H5. }
  eapply wp_mono; [exact Hrace| | |done].
  - intros v s3 H3. simpl. apply wp_bind, wp_gets, wp_bind.
    eapply wp_mono;
      [eapply Hon; [exact H3|apply stopExecution_config]| |done..].
    intros stopped s4 H4. simpl. by apply wp_bind, wp_gets, wp_ret.
  - intros e s3 H3. simpl. apply wp_bind, wp_gets, wp_bind.
    eapply wp_mono;
      [eapply Hon; [exact H3|apply stopExecution_config]| |done..].
    intros stopped s4 H4. simpl. apply wp_bind.
    eapply wp_mono;
      [eapply Hon; [exact H4|apply mutate_config]| |done..].
    intros [] s5 H5. simpl. by apply wp_bind, wp_gets, wp_ret.
Qed.

End HostedTimeout.

(** C10.  A call of [executeWithTimeout] with a custom timeout returns a
    result on every path: the candidate resolves, the candidate rejects,
    or the deadline passes.  When it returns, [config.maxExecutionTime]
    holds the value it held before the call, whatever the candidate did
    meanwhile; and when the candidate leaves the configuration alone, the
    whole of [config] is as before. *)
Theorem executeWithTimeout_restores_limit {S T : Type} (clock : S → Z)
    (getTM : S → TimeoutManager.t) (setTM : TimeoutManager.t → S → S)
    (id : string) (execution : Executor S T) (customTimeout : option Z)
    (s : S) :
  (∀ x s0, getTM (setTM x s0) = x) →
  truthy customTimeout = true →
  ∃ r s',
    TimeoutManager.executeWithTimeout clock getTM setTM id execution
      customTimeout s = (Normal r, s')
    ∧ TimeoutManager.maxExecutionTime (TimeoutManager.config (getTM s'))
      = TimeoutManager.maxExecutionTime (TimeoutManager.config (getTM s))
    ∧ (TimeoutManager.keepsConfig getTM execution →
       TimeoutManager.config (getTM s') = TimeoutManager.config (getTM s)).
Proof.
  intros Hlens Hcustom.
  pose proof (executeWithTimeout_returns clock getTM setTM Hlens id execution
                customTimeout s) as H.
  apply returns_elim in H as (r & s' & E & Hmax & Hcfg).
  exists r, s'. split_and!; [exact E|by apply Hmax|exact Hcfg].
Qed.

Lemma executeWithTimeout_restores_limit_witness :
  let s := Sample.manager ∅ true in
  let run (execution : Executor MainSecurityManager.t string) :=
    TimeoutManager.executeWithTimeout MainSecurityManager.now
      MainSecurityManager.timeoutManager MainSecurityManager.setTimeoutManager
      "job" execution (Some 1000) s in
  (∃ r s', run (Sample.resolves "4") = (Normal r, s')
     ∧ TimeoutManager.maxExecutionTime
         (TimeoutManager.config (MainSecurityManager.timeoutManager s'))
       = 30000
     ∧ (TimeoutManager.keepsConfig MainSecurityManager.timeoutManager
          (Sample.resolves "4") →
        TimeoutManager.config (MainSecurityManager.timeoutManager s')
        = TimeoutManager.DEFAULT_CONFIG))
  ∧ (∃ r s', run (Sample.rejects "boom") = (Normal r, s')
     ∧ TimeoutManager.maxExecutionTime
         (TimeoutManager.config (MainSecurityManager.timeoutManager s'))
       = 30000
     ∧ (TimeoutManager.keepsConfig MainSecurityManager.timeoutManager
          (Sample.rejects "boom") →
        TimeoutManager.config (MainSecurityManager.timeoutManager s')
        = TimeoutManager.DEFAULT_CONFIG))
  ∧ (∃ r s', run Sample.hangs = (Normal r, s')
     ∧ TimeoutManager.maxExecutionTime
         (TimeoutManager.config (MainSecurityManager.timeoutManager s'))
       = 30000
     ∧ (TimeoutManager.keepsConfig MainSecurityManager.timeoutManager
          Sample.hangs →
        TimeoutManager.config (MainSecurityManager.timeoutManager s')
        = TimeoutManager.DEFAULT_CONFIG)).
Proof.
  intros s run. split_and!.
  - apply (executeWithTimeout_restores_limit MainSecurityManager.now
             MainSecurityManager.timeoutManager
             MainSecurityManager.setTimeoutManager "job"
             (Sample.resolves "4") (Some 1000) s); reflexivity.
  - apply (executeWithTimeout_restores_limit MainSecurityManager.now
             MainSecurityManager.timeoutManager
             MainSecurityManager.setTimeoutManager "job"
             (Sample.rejects "boom") (Some 1000) s); reflexivity.
  - apply (executeWithTimeout_restores_limit MainSecurityManager.now
             MainSecurityManager.timeoutManager
             MainSecurityManager.setTimeoutManager "job"
             Sample.hangs (Some 1000) s); reflexivity.
Defined.

(** The three paths on a concrete call: what is returned, and that the
    limit in force while the candidate ran was the custom one. *)
Example executeWithTimeout_paths :
  let s := Sample.manager ∅ true in
  let run (execution : Executor MainSecurityManager.t string) :=
    (TimeoutManager.executeWithTimeout MainSecurityManager.now
       MainSecurityManager.timeoutManager MainSecurityManager.setTimeoutManager
       "job" execution (Some 1000) s).1 in
  let outcome c :=
    match c with
    | Normal r => Some (TimeoutManager.result r, TimeoutManager.success r,
                        TimeoutManager.error r,
                        TimeoutManager.timedOut (TimeoutManager.finalMetrics r))
    | _ => None
    end in
  outcome (run (Sample.resolves "4")) = Some (Some "4"%string, true, None, false)
  ∧ outcome (run (Sample.rejects "boom"))
    = Some (None, false, Some "boom"%string, true)
  ∧ outcome (run Sample.hangs)
    = Some (None, false, Some "Execution timeout"%string, true)
  ∧ (let observed : Executor MainSecurityManager.t Z := λ s0,
       (Resolved (TimeoutManager.maxExecutionTime
                    (TimeoutManager.config
                       (MainSecurityManager.timeoutManager s0))), s0) in
     match (TimeoutManager.executeWithTimeout MainSecurityManager.now
              MainSecurityManager.timeoutManager
              MainSecurityManager.setTimeoutManager "job" observed
              (Some 1000) s).1 with
     | Normal r => TimeoutManager.result r
     | _ => None
     end = Some 1000).
Proof. vm_compute. done. Qed.

(* ===================================================================== *)
(** ** The static analyzer                                                *)
(* ===================================================================== *)

Section Analyzer.
Import ModuleSecurityManager.
Context (rt : Runtime).
Implicit Types (ps : list RegExp) (code : jsstring) (s : ModuleSecurityManager.t).

Lemma scanPatterns_sources now hash code ps :
  map source (scanPatterns now hash code ps).2 = map source ps.
Proof.
  induction ps as [|p ps IH]; simpl; [done|].
  pose proof (test_source p code) as Hp.
  destruct (test p code) as [hit p'].
  destruct (scanPatterns now hash code ps) as [vs ps'']. simpl in *.
  by rewrite Hp, IH.
Qed.

(** Every finding of the scan is a DANGEROUS_PATTERN of severity HIGH. *)
Lemma scanPatterns_findings now hash code ps v :
  v ∈ (scanPatterns now hash code ps).1 →
  type v = DANGEROUS_PATTERN ∧ severity v = HIGH.
Proof.
  induction ps as [|p ps IH]; simpl.
  - by intros ?%elem_of_nil.
  - destruct (test p code) as [hit p'].
    destruct (scanPatterns now hash code ps) as [vs ps'']. simpl in *.
    intros [Hv|Hv]%elem_of_app; [|by apply IH].
    destruct hit; [|by apply elem_of_nil in Hv].
    by apply list_elem_of_singleton in Hv as ->.
Qed.

(** A pattern object whose cursor is at the start is reported whenever it
    occurs in the code. *)
Lemma scanPatterns_hit now hash code ps p :
  p ∈ ps → lastIndex p = 0%nat → occurs (source p) code →
  patternViolation now hash p ∈ (scanPatterns now hash code ps).1.
Proof.
  intros Hin H0 Hocc. induction ps as [|q ps IH]; simpl.
  - by apply elem_of_nil in Hin.
  - pose proof (test_from_start q code) as Hq.
    destruct (test q code) as [hit q'].
    destruct (scanPatterns now hash code ps) as [vs ps'']. simpl in *.
    apply elem_of_app. apply elem_of_cons in Hin as [<-|Hin].
    + left. rewrite (proj2 (Hq H0) Hocc). by apply list_elem_of_singleton.
    + right. by apply IH.
Qed.

(** Code in which no pattern occurs yields no finding and leaves every
    cursor at the start, wherever the cursors were. *)
Lemma scanPatterns_absent now hash code ps :
  (∀ p, p ∈ ps → ¬ occurs (source p) code) →
  scanPatterns now hash code ps = ([], map (λ p, mkRegExp (source p) 0) ps).
Proof.
  induction ps as [|p ps IH]; simpl; intros Hno; [done|].
  rewrite (test_absent p code) by (apply Hno; by left).
  rewrite IH by (intros q Hq; apply Hno; by right). done.
Qed.

Lemma isSevere_size now hash : isSevere (sizeViolation now hash) = false.
Proof. done. Qed.

Lemma filter_isSevere_hits now hash code ps :
  List.filter isSevere (scanPatterns now hash code ps).1
  = (scanPatterns now hash code ps).1.
Proof.
  pose proof (scanPatterns_findings now hash code ps) as H.
  induction ((scanPatterns now hash code ps).1) as [|v vs IH]; simpl; [done|].
  destruct (H v) as [_ Hs]; [by left|].
  unfold isSevere at 1. rewrite Hs. simpl. f_equal.
  apply IH. intros w Hw. apply H. by right.
Qed.

(** What a call of [analyzeCode] returns and what it leaves behind. *)
Lemma analyzeCode_unfold now code s :
  let hash := sha256_hex rt code in
  let hits := (scanPatterns now hash code (DANGEROUS_PATTERNS s)).1 in
  let size := if 50000 <? Z.of_nat (length code)
              then [sizeViolation now hash] else [] in
  analyzeCode rt now code s
  = (Normal {| safe := bool_decide (hits = []); found := hits ++ size |},
     {| violations := violations s ++ hits ++ size;
        DANGEROUS_PATTERNS :=
          (scanPatterns now hash code (DANGEROUS_PATTERNS s)).2 |}).
Proof.
  cbv zeta. unfold analyzeCode.
  pose proof (filter_isSevere_hits now (sha256_hex rt code) code
                (DANGEROUS_PATTERNS s)) as Hf.
  destruct (scanPatterns now (sha256_hex rt code) code (DANGEROUS_PATTERNS s))
    as [hits ps]. simpl in *.
  do 3 f_equal. rewrite List.filter_app, Hf, length_app.
  destruct (50000 <? Z.of_nat (length code)); simpl;
    destruct hits; simpl; done.
Qed.

(** The array [DANGEROUS_PATTERNS] keeps its patterns; only their cursors
    move. *)
Lemma analyzeCode_patterns now code s :
  map source (DANGEROUS_PATTERNS (analyzeCode rt now code s).2)
  = map source (DANGEROUS_PATTERNS s).
Proof.
  pose proof (analyzeCode_unfold now code s) as H. cbv zeta in H.
  rewrite H. simpl. apply scanPatterns_sources.
Qed.

(** [analyzeCode] returns, and appends what it returns to the log. *)
Lemma analyzeCode_appends now code s :
  ∃ a s',
    analyzeCode rt now code s = (Normal a, s')
    ∧ violations s' = violations s ++ found a.
Proof. eexists _, _. split; [apply analyzeCode_unfold|done]. Qed.

End Analyzer.

(** C6, as the code has it.  A call of [analyzeCode] returns (it never
    throws) and appends the violations it returns to the log of the
    analyzer.  For code in which none of the patterns occurs, the result
    does not depend on the state of the analyzer: the call reports the
    code safe, with the size violation as its only possible finding, and a
    second call in the state left by the first returns the same, up to the
    time stamp. *)
Theorem analyzeCode_effect (rt : Runtime) (now : Z) (code : jsstring)
    (s : ModuleSecurityManager.t) :
  ∃ r s',
    ModuleSecurityManager.analyzeCode rt now code s = (Normal r, s')
    ∧ ModuleSecurityManager.getViolations s'
      = ModuleSecurityManager.getViolations s ++ ModuleSecurityManager.found r
    ∧ ((∀ p, p ∈ ModuleSecurityManager.DANGEROUS_PATTERNS s →
             ¬ occurs (source p) code) →
       let size t :=
         if 50000 <? Z.of_nat (length code)
         then [ModuleSecurityManager.sizeViolation t (sha256_hex rt code)]
         else [] in
       ModuleSecurityManager.safe r = true
       ∧ ModuleSecurityManager.found r = size now
       ∧ ∀ now', ∃ r' s'',
           ModuleSecurityManager.analyzeCode rt now' code s' = (Normal r', s'')
           ∧ ModuleSecurityManager.safe r' = true
           ∧ ModuleSecurityManager.found r' = size now').
Proof.
  eexists _, _. split; [apply analyzeCode_unfold|]. split; [done|].
  intros Hno. cbn [ModuleSecurityManager.safe ModuleSecurityManager.found].
  rewrite (scanPatterns_absent now _ code _ Hno). simpl.
  split_and!; [done..|].
  intros now'. eexists _, _. split; [apply analyzeCode_unfold|].
  cbn [ModuleSecurityManager.safe ModuleSecurityManager.found
       ModuleSecurityManager.DANGEROUS_PATTERNS].
  rewrite scanPatterns_absent; [done|].
  intros p (q & -> & Hq)%list_elem_of_fmap. simpl. by apply Hno.
Qed.

Lemma absent_by_search (r : regex) (code : jsstring) :
  search r code = None → ¬ occurs r code.
Proof. intros Hs Hocc%search_occurs. rewrite Hs in Hocc. by destruct Hocc. Qed.

Lemma occurs_by_search (r : regex) (code : jsstring) (n : nat) :
  search r code = Some n → occurs r code.
Proof. intros Hs. apply search_occurs. by rewrite Hs. Qed.

Lemma analyzeCode_effect_witness :
  ∃ r s',
    ModuleSecurityManager.analyzeCode Sample.runtime 0 (units "1 + 1")
      ModuleSecurityManager.new = (Normal r, s')
    ∧ ModuleSecurityManager.safe r = true.
Proof.
  destruct (analyzeCode_effect Sample.runtime 0 (units "1 + 1")
              ModuleSecurityManager.new) as (r & s' & E & _ & H).
  exists r, s'. split; [exact E|].
  apply H. intros p Hp. apply absent_by_search. revert p Hp.
  apply Forall_forall. apply (bool_decide_unpack _). vm_compute. exact I.
Defined.

(** C6 as stated fails on the code eval(1), scanned twice by a new
    analyzer at the same time of day: the first call reports a finding and
    answers unsafe, the second reports nothing and answers safe, because
    the first call left the cursor of the pattern behind the match; and
    the first call has changed the log that [getViolations] returns. *)
Lemma analyzeCode_not_repeatable :
  let code := units "eval(1)" in
  ∃ r1 s1 r2 s2,
    ModuleSecurityManager.analyzeCode Sample.runtime 0 code
      ModuleSecurityManager.new = (Normal r1, s1)
    ∧ ModuleSecurityManager.analyzeCode Sample.runtime 0 code s1
      = (Normal r2, s2)
    ∧ ModuleSecurityManager.safe r1 = false
    ∧ ModuleSecurityManager.safe r2 = true
    ∧ length (ModuleSecurityManager.found r1) = 1%nat
    ∧ ModuleSecurityManager.found r2 = []
    ∧ ModuleSecurityManager.getViolations ModuleSecurityManager.new = []
    ∧ length (ModuleSecurityManager.getViolations s1) = 1%nat
    ∧ map lastIndex (ModuleSecurityManager.DANGEROUS_PATTERNS s1)
      = [0; 0; 0; 0; 0; 0; 5; 0; 0; 0; 0; 0]%nat.
Proof.
  intros code. eexists _, _, _, _.
  split; [vm_compute; reflexivity|].
  split; [vm_compute; reflexivity|].
  vm_compute. done.
Qed.

(** The self-test that [initialize] runs scans a text that starts with a
    require of fs in double quotes, thirteen code units long.  The cursor
    that this leaves on the second pattern lets the code require('fs'),
    also thirteen code units long, pass the next scan. *)
Example cursor_left_by_self_test :
  let selfTest :=
    units "require(" ++ [34%N] ++ units "fs" ++ [34%N]
    ++ units ").readFileSync(" ++ [34%N] ++ units "/etc/passwd" ++ [34%N]
    ++ units ")" in
  let tested :=
    (ModuleSecurityManager.analyzeCode Sample.runtime 0 selfTest
       ModuleSecurityManager.new).2 in
  map lastIndex (ModuleSecurityManager.DANGEROUS_PATTERNS tested)
  = [0; 13; 0; 0; 0; 0; 0; 0; 0; 0; 0; 0]%nat
  ∧ match (ModuleSecurityManager.analyzeCode Sample.runtime 0
             (units "require('fs')") tested).1 with
    | Normal r => ModuleSecurityManager.safe r = true
    | _ => False
    end.
Proof. vm_compute. done. Qed.

(* ===================================================================== *)
(** ** The memory monitor                                                 *)
(* ===================================================================== *)

Section MemoryFacts.
Import MemoryMonitor.
Context (rt : Runtime).
Implicit Types (s : MemoryMonitor.t).

Lemma stopMonitoring_returns now s :
  returns (stopMonitoring now) (λ _ _, True) s.
Proof.
  unfold returns, wp, stopMonitoring, bind, gets. simpl.
  by destruct (isMonitoring s).
Qed.

(** [startMonitoring] throws only from its first sample, and only when the
    monitor was idle and the sample is above the heap or the RSS limit. *)
Lemma startMonitoring_wp usage now s :
  wp (startMonitoring rt usage now) (λ _ s', limits s' = limits s)
     (λ _ _, isMonitoring s = false
             ∧ (maxHeapSize (limits s) < Process.heapUsed usage
                ∨ maxRssSize (limits s) < Process.rss usage))
     (λ _, False) s.
Proof.
  cbv [wp startMonitoring checkMemoryUsage checkLimits report pushViolation
       handleViolation checkMemoryGrowthAnomalies bind gets modify throw ret].
  destruct (isMonitoring s) eqn:Hm; [done|]. cbn.
  assert (Hc : bool_decide (CRITICAL = CRITICAL) = true) by done.
  assert (Hh : bool_decide (HIGH = CRITICAL) = false) by done.
  destruct (Z.ltb_spec (maxHeapSize (limits s)) (Process.heapUsed usage));
    cbn; [rewrite Hc; by auto|].
  destruct (Z.ltb_spec (maxRssSize (limits s)) (Process.rss usage));
    cbn; [rewrite Hc; by auto|].
  destruct (maxArrayBufferSize (limits s) <? Process.arrayBuffers usage);
    cbn; [by rewrite Hh|done].
Qed.

(** A check leaves the limits, the timer and the current reading of the
    peak record as they are, however it completes. *)
Lemma checkMemoryUsage_keeps usage now s :
  let s' := (checkMemoryUsage rt usage now s).2 in
  limits s' = limits s
  ∧ monitoringInterval s' = monitoringInterval s
  ∧ heapUsed (peakMetrics s') = heapUsed (peakMetrics s).
Proof.
  cbv [checkMemoryUsage checkLimits report pushViolation
       handleViolation checkMemoryGrowthAnomalies bind gets modify throw ret].
  cbn [limits memoryHistory violations isMonitoring peakMetrics
       monitoringInterval fst snd severity heapUsed rss arrayBuffers].
  assert (Hc : bool_decide (CRITICAL = CRITICAL) = true) by done.
  assert (Hh : bool_decide (HIGH = CRITICAL) = false) by done.
  destruct (maxHeapSize (limits s) <? Process.heapUsed usage);
    cbn [limits memoryHistory violations isMonitoring peakMetrics
         monitoringInterval fst snd severity]; [rewrite Hc; done|].
  destruct (maxRssSize (limits s) <? Process.rss usage);
    cbn [limits memoryHistory violations isMonitoring peakMetrics
         monitoringInterval fst snd severity]; [rewrite Hc; done|].
  destruct (maxArrayBufferSize (limits s) <? Process.arrayBuffers usage);
    cbn [limits memoryHistory violations isMonitoring peakMetrics
         monitoringInterval fst snd severity]; rewrite ?Hh;
    cbn [limits memoryHistory violations isMonitoring peakMetrics
         monitoringInterval fst snd severity].
  all: match goal with
       | |- context [(length ?h <? 10)%nat] => destruct (length h <? 10)%nat
       end; [done|].
  all: match goal with
       | |- context [drop ?n ?h] =>
           destruct (drop n h) as [|oldest ?]; [done|]
       end.
  all: match goal with
       | |- context [?a && ?b] => destruct (a && b)
       end;
    cbn [limits memoryHistory violations isMonitoring peakMetrics
         monitoringInterval fst snd severity]; rewrite ?Hh; done.
Qed.

(** A check of a reading within the heap and the RSS limit returns. *)
Lemma checkMemoryUsage_within_limits usage now s :
  Process.heapUsed usage ≤ maxHeapSize (limits s) →
  Process.rss usage ≤ maxRssSize (limits s) →
  (checkMemoryUsage rt usage now s).1 = Normal tt.
Proof.
  intros Hheap Hrss.
  cbv [checkMemoryUsage checkLimits report pushViolation
       handleViolation checkMemoryGrowthAnomalies bind gets modify throw ret].
  cbn [limits memoryHistory violations isMonitoring peakMetrics
       monitoringInterval fst snd severity heapUsed rss arrayBuffers].
  assert (Hh : bool_decide (HIGH = CRITICAL) = false) by done.
  destruct (Z.ltb_spec (maxHeapSize (limits s)) (Process.heapUsed usage));
    [lia|].
  destruct (Z.ltb_spec (maxRssSize (limits s)) (Process.rss usage)); [lia|].
  destruct (maxArrayBufferSize (limits s) <? Process.arrayBuffers usage);
    cbn [limits memoryHistory violations isMonitoring peakMetrics
         monitoringInterval fst snd severity]; rewrite ?Hh;
    cbn [limits memoryHistory violations isMonitoring peakMetrics
         monitoringInterval fst snd severity].
  all: match goal with
       | |- context [(length ?h <? 10)%nat] => destruct (length h <? 10)%nat
       end; [done|].
  all: match goal with
       | |- context [drop ?n ?h] =>
           destruct (drop n h) as [|oldest ?]; [done|]
       end.
  all: match goal with
       | |- context [?a && ?b] => destruct (a && b)
       end;
    cbn [limits memoryHistory violations isMonitoring peakMetrics
         monitoringInterval fst snd severity]; rewrite ?Hh; done.
Qed.

End MemoryFacts.

(* ===================================================================== *)
(** ** The coordinator: [executeSecurely]                                 *)
(* ===================================================================== *)

Section Coordinator.
Import MainSecurityManager.
Context (rt : Runtime) {T : Type}.
Implicit Types (s : MainSecurityManager.t)
               (executor : Executor MainSecurityManager.t T).

Lemma grows_refl s : grows s s.
Proof. by split. Qed.

Lemma grows_trans s1 s2 s3 : grows s1 s2 → grows s2 s3 → grows s1 s3.
Proof. intros [H1 H2] [H3 H4]. split; by etrans. Qed.

#[local] Instance within_refl executor : Reflexive (within executor).
Proof. intros s _. apply grows_refl. Qed.

#[local] Instance within_trans executor : Transitive (within executor).
Proof.
  intros s1 s2 s3 H1 H2 Ha. eapply grows_trans; [by apply H1|by apply H2].
Qed.

(** Writes to the two supervisors leave the logs alone. *)
Lemma within_setTimeoutManager executor x s s' :
  within executor s s' → within executor s (setTimeoutManager x s').
Proof. intros H Ha. destruct (H Ha). by split. Qed.

Lemma within_setMemoryMonitor executor x s s' :
  within executor s s' → within executor s (setMemoryMonitor x s').
Proof. intros H Ha. destruct (H Ha). by split. Qed.

Lemma emergencyCleanup_returns executor (id : string) s s' :
  within executor s s' →
  returns (emergencyCleanup id) (λ _ s'', within executor s s'') s'.
Proof.
  intros H. unfold returns, emergencyCleanup.
  apply wp_tryCatch, wp_bind, wp_gets, wp_bind.
  unfold onTimeoutManager. apply wp_zoom.
  eapply wp_returns; [apply terminateExecution_config|].
  intros b t' _. simpl. apply wp_bind, wp_gets, wp_bind.
  unfold onMemoryMonitor. apply wp_zoom.
  eapply wp_returns; [apply stopMonitoring_returns|].
  intros mm t'' _. simpl. apply wp_ret.
  by apply within_setMemoryMonitor, within_setTimeoutManager.
Qed.

(** The callbacks of the timer write to the memory monitor only, and
    leave the current reading of its peak record alone. *)
Lemma runTicks_frame samples s :
  ∃ mm, (runTicks rt samples s).2 = setMemoryMonitor mm s
        ∧ MemoryMonitor.limits mm = MemoryMonitor.limits (memoryMonitor s)
        ∧ MemoryMonitor.heapUsed (MemoryMonitor.peakMetrics mm)
          = MemoryMonitor.heapUsed
              (MemoryMonitor.peakMetrics (memoryMonitor s)).
Proof.
  revert s. induction samples as [|[usage at_] samples IH]; intros s.
  - exists (memoryMonitor s). by destruct s.
  - simpl. unfold bind at 1, uncaught, onMemoryMonitor, zoom.
    destruct (checkMemoryUsage_keeps rt usage at_ (memoryMonitor s))
      as (Hl & _ & Hp).
    destruct (MemoryMonitor.checkMemoryUsage rt usage at_ (memoryMonitor s))
      as [[[]|e|] mm1]; simpl in Hl, Hp.
    + destruct (IH (setMemoryMonitor mm1 s)) as (mm & E & Hl' & Hp').
      exists mm. rewrite E. simpl in Hl', Hp'.
      split; [done|]. split; congruence.
    + by exists mm1.
    + by exists mm1.
Qed.

(** The callbacks return when every reading is within the heap and the
    RSS limit. *)
Lemma runTicks_within_limits samples s :
  Forall (λ sample : Process.MemoryUsage * Z,
            Process.heapUsed sample.1
            ≤ MemoryMonitor.maxHeapSize (MemoryMonitor.limits (memoryMonitor s))
            ∧ Process.rss sample.1
              ≤ MemoryMonitor.maxRssSize
                  (MemoryMonitor.limits (memoryMonitor s))) samples →
  (runTicks rt samples s).1 = Normal tt.
Proof.
  revert s. induction samples as [|[usage at_] samples IH]; intros s Hall;
    [done|].
  apply Forall_cons in Hall as [[Hheap Hrss] Hall]. simpl in Hheap, Hrss.
  simpl. unfold bind at 1, uncaught, onMemoryMonitor, zoom.
  pose proof (checkMemoryUsage_within_limits rt usage at_ (memoryMonitor s)
                Hheap Hrss) as Hn.
  destruct (checkMemoryUsage_keeps rt usage at_ (memoryMonitor s))
    as (Hl & _ & _).
  destruct (MemoryMonitor.checkMemoryUsage rt usage at_ (memoryMonitor s))
    as [[[]|e|] mm1]; simpl in Hn, Hl; [|done..].
  apply IH. simpl. by rewrite Hl.
Qed.

Lemma intervalTicks_frame s :
  ∃ mm, (intervalTicks rt s).2 = setMemoryMonitor mm s
        ∧ MemoryMonitor.heapUsed (MemoryMonitor.peakMetrics mm)
          = MemoryMonitor.heapUsed
              (MemoryMonitor.peakMetrics (memoryMonitor s)).
Proof.
  unfold intervalTicks, bind, gets. simpl.
  destruct (MemoryMonitor.monitoringInterval (memoryMonitor s)).
  - destruct (runTicks_frame (ticks s) s) as (mm & E & _ & Hp). by exists mm.
  - exists (memoryMonitor s). by destruct s.
Qed.

Lemma intervalTicks_quiet s :
  quiet s → (intervalTicks rt s).1 = Normal tt.
Proof.
  intros Hq. unfold intervalTicks, bind, gets. simpl.
  destruct (MemoryMonitor.monitoringInterval (memoryMonitor s)) eqn:E;
    [|done].
  destruct Hq as [Hq|Hq]; [congruence|].
  by apply runTicks_within_limits.
Qed.

(** The rule for [suspend]: what the awaited call establishes must
    survive the writes of the timer to the memory monitor, and a wait
    that is not quiet may end the process. *)
Lemma wp_suspend {A} (c : M t A) (Qn : A → t → Prop) Qt (Qh : t → Prop) s :
  wp c
    (λ a s1, (¬ quiet s1 → ∀ s2, Qh s2)
             ∧ ∀ mm, MemoryMonitor.heapUsed (MemoryMonitor.peakMetrics mm)
                     = MemoryMonitor.heapUsed
                         (MemoryMonitor.peakMetrics (memoryMonitor s1)) →
                     Qn a (setMemoryMonitor mm s1))
    (λ e s1, (¬ quiet s1 → ∀ s2, Qh s2)
             ∧ ∀ mm, MemoryMonitor.heapUsed (MemoryMonitor.peakMetrics mm)
                     = MemoryMonitor.heapUsed
                         (MemoryMonitor.peakMetrics (memoryMonitor s1)) →
                     Qt e (setMemoryMonitor mm s1))
    Qh s →
  wp (suspend rt c) Qn Qt Qh s.
Proof.
  unfold wp, suspend.
  destruct (c s) as [[a|e|] s1]; [| |done].
  - intros [Hn Hq].
    destruct (intervalTicks_frame s1) as (mm & E & Hp).
    pose proof (intervalTicks_quiet s1) as Hquiet.
    destruct (intervalTicks rt s1) as [[[]|e'|] s2]; simpl in E, Hquiet;
      subst s2.
    + by apply Hq.
    + apply Hn. intros H. by specialize (Hquiet H).
    + apply Hn. intros H. by specialize (Hquiet H).
  - intros [Hn Hq].
    destruct (intervalTicks_frame s1) as (mm & E & Hp).
    pose proof (intervalTicks_quiet s1) as Hquiet.
    destruct (intervalTicks rt s1) as [[[]|e'|] s2]; simpl in E, Hquiet;
      subst s2.
    + by apply Hq.
    + apply Hn. intros H. by specialize (Hquiet H).
    + apply Hn. intros H. by specialize (Hquiet H).
Qed.

Lemma quiet_setTimeoutManager x s : quiet s → quiet (setTimeoutManager x s).
Proof. done. Qed.

(** Everything [executeSecurely] can do in an initialized manager, given
    what its static analysis returns. *)
Lemma executeSecurely_wp (context : SecureExecutionContext.t) executor s a m' :
  initialized s = true →
  ModuleSecurityManager.analyzeCode rt (now s)
    (SecureExecutionContext.code context) (moduleBlocker s) = (Normal a, m') →
  wp (executeSecurely rt context executor)
    (λ r s',
       (∃ mem,
          securityReport r
          = createSecurityReport (SecureExecutionContext.executionId context)
              (ModuleSecurityManager.found a) (now s) mem s')
       ∧ within executor s s')
    (λ _ _,
       SecurityConfig.enableMemoryMonitoring (config s) = true
       ∧ MemoryMonitor.isMonitoring (memoryMonitor s) = false
       ∧ (MemoryMonitor.maxHeapSize (MemoryMonitor.limits (memoryMonitor s))
          < Process.heapUsed (memoryUsage s)
          ∨ MemoryMonitor.maxRssSize (MemoryMonitor.limits (memoryMonitor s))
            < Process.rss (memoryUsage s)))
    (λ _,
       (SecurityConfig.enableTimeoutManagement (config s) = false
        ∧ ∃ s0, (executor s0).1 = Pending)
       ∨ ¬ ∀ s0, MemoryMonitor.limits (memoryMonitor s0)
                 = MemoryMonitor.limits (memoryMonitor s) →
                 quiet (executor s0).2)
    s.
Proof.
  intros Hinit Ha.
  set (Qn := λ (r : Result T) (s' : MainSecurityManager.t), _ ∧ _).
  set (Qt := λ (_ : Thrown) (_ : MainSecurityManager.t), _ ∧ _).
  set (Qh := λ _ : MainSecurityManager.t, _ ∨ _).
  assert (Hg1 : within executor s (setModuleBlocker m' s)).
  { destruct (analyzeCode_appends rt (now s)
                (SecureExecutionContext.code context) (moduleBlocker s))
      as (a' & m'' & Ha' & Hlog).
    rewrite Ha in Ha'. injection Ha' as <- <-.
    intros _. split; simpl; [|done].
    rewrite Hlog. by apply prefix_app_r. }
  unfold executeSecurely.
  apply wp_bind, wp_gets. rewrite Hinit. simpl.
  apply wp_bind, wp_gets, wp_bind. unfold onModuleBlocker. apply wp_zoom.
  unfold wp at 1. rewrite Ha.
  apply wp_bind, wp_gets. simpl.
  destruct (negb (ModuleSecurityManager.safe a)
            && SecurityConfig.strictMode (config s)).
  { apply wp_bind, wp_gets, wp_ret. split; [by exists None|exact Hg1]. }
  apply wp_bind, wp_gets. simpl. apply wp_bind.
  set (P := λ s2 : MainSecurityManager.t,
         config s2 = config s
         ∧ MemoryMonitor.limits (memoryMonitor s2)
           = MemoryMonitor.limits (memoryMonitor s)
         ∧ within executor s s2).
  apply (wp_mono _ (λ _ s2, P s2) _ Qt _ Qh); [| |done..].
  { unfold when.
    destruct (SecurityConfig.enableMemoryMonitoring (config s)) eqn:Hmem;
      [|by apply wp_ret].
    apply wp_bind, wp_gets, wp_bind, wp_gets.
    unfold onMemoryMonitor. apply wp_zoom.
    eapply wp_mono; [apply startMonitoring_wp| | |done].
    - intros [] t' Hl. split; [done|]. split; [exact Hl|].
      by apply within_setMemoryMonitor.
    - intros e t' [H1 H2]. by split. }
  intros [] s2 (Hc2 & Hl2 & Hg2). simpl.
  apply wp_bind, wp_gets, wp_bind.
  apply (wp_mono _ (λ _ s3, P s3) _ Qt _ Qh); [| |done..].
  { unfold when.
    destruct (SecurityConfig.enableTimeoutManagement (config s2));
      [|by apply wp_ret].
    apply wp_bind, wp_gets, wp_bind.
    unfold onTimeoutManager. apply wp_zoom.
    eapply wp_returns; [apply startExecution_config|].
    intros ref t' _. apply wp_ret. split; [done|]. split; [exact Hl2|].
    by apply within_setTimeoutManager. }
  intros [] s3 (Hc3 & Hl3 & Hg3). simpl.
  set (calm := ∀ s0, MemoryMonitor.limits (memoryMonitor s0)
                     = MemoryMonitor.limits (memoryMonitor s) →
                     quiet (executor s0).2).
  apply wp_tryCatch.
  set (handled := λ (e : Thrown) (s4 : MainSecurityManager.t), wp _ Qn Qt Qh s4).
  assert (Hhandler : ∀ e s4, within executor s s4 → handled e s4).
  { intros e s4 H4. unfold handled. apply wp_bind.
    eapply wp_returns; [by apply emergencyCleanup_returns|].
    intros [] s5 H5. simpl. apply wp_bind, wp_gets, wp_ret.
    split; [by exists None|exact H5]. }
  apply wp_bind, wp_gets, wp_bind.
  apply (wp_mono _ (λ _ s4, within executor s s4)
                 _ (λ _ s4, within executor s s4) _ Qh);
    [| |exact Hhandler|done].
  { destruct (SecurityConfig.enableTimeoutManagement (config s3)) eqn:Hflag.
    - apply wp_bind, wp_gets, wp_bind, wp_suspend.
      eapply wp_returns;
        [apply returns_conj;
           [apply (executeWithTimeout_frame now timeoutManager
                     setTimeoutManager (within executor))
           |apply (executeWithTimeout_after now timeoutManager
                     setTimeoutManager
                     (λ s', MemoryMonitor.limits (memoryMonitor s')
                            = MemoryMonitor.limits (memoryMonitor s))
                     (λ s', calm → quiet s'))]|].
      + intros x s0. by apply within_setTimeoutManager.
      + intros s0 Happ. apply Happ.
      + by intros x s0 H0.
      + intros x s0 H0 Hq. by apply quiet_setTimeoutManager, H0.
      + intros s0 Hl0 Hq. by apply Hq.
      + exact Hl3.
      + intros r s4 [H4 Hq4]. split.
        * intros Hn s5. right. intros Hq. by apply Hn, Hq4.
        * intros mm _. apply wp_ret.
          apply within_setMemoryMonitor. by etrans.
    - apply wp_bind, wp_suspend. unfold wp at 1, await.
      pose proof (λ Happ : appendOnly executor, Happ s3) as Hex.
      destruct (executor s3) as [[v|e|] s4] eqn:E; simpl in Hex.
      + split.
        * intros Hn s5. right. intros Hq. apply Hn.
          specialize (Hq s3 Hl3). by rewrite E in Hq.
        * intros mm _. apply wp_ret.
          apply within_setMemoryMonitor. by etrans.
      + split.
        * intros Hn s5. right. intros Hq. apply Hn.
          specialize (Hq s3 Hl3). by rewrite E in Hq.
        * intros mm _. apply within_setMemoryMonitor. by etrans.
      + left. split; [by rewrite <- Hc3|]. exists s3. by rewrite E. }
  intros res s4 H4. simpl.
  apply wp_bind, wp_gets, wp_bind.
  apply (wp_mono _ (λ _ s5, within executor s s5) _ handled _ Qh);
    [| |done..].
  { destruct (SecurityConfig.enableMemoryMonitoring (config s4));
      [|by apply wp_ret].
    apply wp_bind, wp_gets, wp_bind.
    unfold onMemoryMonitor. apply wp_zoom.
    eapply wp_returns; [apply stopMonitoring_returns|].
    intros mm t' _. apply wp_ret. by apply within_setMemoryMonitor. }
  intros mem s5 H5. simpl.
  apply wp_bind, wp_gets, wp_bind.
  apply (wp_mono _ (λ _ s6, within executor s s6) _ handled _ Qh);
    [| |done..].
  { unfold when.
    destruct (SecurityConfig.enableTimeoutManagement (config s5));
      [|by apply wp_ret].
    apply wp_bind, wp_gets, wp_bind.
    unfold onTimeoutManager. apply wp_zoom.
    eapply wp_returns; [apply stopExecution_config|].
    intros stopped t' _. apply wp_ret. by apply within_setTimeoutManager. }
  intros [] s6 H6. simpl.
  apply wp_bind, wp_gets, wp_ret. split; [by exists mem|exact H6].
Qed.

End Coordinator.

(** The guard at the head of [executeSecurely]. *)
Lemma executeSecurely_guard (rt : Runtime) {T : Type}
    (context : SecureExecutionContext.t)
    (executor : Executor MainSecurityManager.t T)
    (s : MainSecurityManager.t) :
  MainSecurityManager.initialized s = false →
  MainSecurityManager.executeSecurely rt context executor s
  = (Throw (ErrorObj "Security manager not initialized"), s).
Proof.
  intros Hinit. unfold MainSecurityManager.executeSecurely, bind, gets.
  by rewrite Hinit.
Qed.




(** The three provisos on an initialized manager are needed.  In an
    initialized manager whose process is above the heap limit the first
    sample of the monitor throws out of [executeSecurely], before its
    [try]; with timeout management switched off, a candidate whose
    promise never settles is awaited for ever; and when the timer of the
    monitor takes a reading above the heap limit while the candidate is
    awaited, its callback throws where nothing catches, and the call does
    not return. *)
Example executeSecurely_other_exits :
  let request := Sample.request "job" "console.log(2+2)" in
  let s := Sample.manager ∅ true in
  let loaded :=
    {| MainSecurityManager.now := 0;
       MainSecurityManager.memoryUsage :=
         {| Process.heapUsed := 200 * 1024 * 1024; Process.heapTotal := 0;
            Process.rss := 0; Process.external := 0;
            Process.arrayBuffers := 0 |};
       MainSecurityManager.moduleBlocker := MainSecurityManager.moduleBlocker s;
       MainSecurityManager.environmentBlocker :=
         MainSecurityManager.environmentBlocker s;
       MainSecurityManager.timeoutManager := MainSecurityManager.timeoutManager s;
       MainSecurityManager.memoryMonitor := MainSecurityManager.memoryMonitor s;
       MainSecurityManager.config := MainSecurityManager.config s;
       MainSecurityManager.initialized := true;
       MainSecurityManager.ticks := [] |} in
  let unbounded :=
    {| MainSecurityManager.now := 0;
       MainSecurityManager.memoryUsage := MainSecurityManager.memoryUsage s;
       MainSecurityManager.moduleBlocker := MainSecurityManager.moduleBlocker s;
       MainSecurityManager.environmentBlocker :=
         MainSecurityManager.environmentBlocker s;
       MainSecurityManager.timeoutManager := MainSecurityManager.timeoutManager s;
       MainSecurityManager.memoryMonitor := MainSecurityManager.memoryMonitor s;
       MainSecurityManager.config :=
         {| SecurityConfig.enableModuleBlocking := true;
            SecurityConfig.enableEnvironmentBlocking := true;
            SecurityConfig.enableTimeoutManagement := false;
            SecurityConfig.enableMemoryMonitoring := true;
            SecurityConfig.maxExecutionTime := 30000;
            SecurityConfig.maxMemoryUsage := 128 * 1024 * 1024;
            SecurityConfig.strictMode := true |};
       MainSecurityManager.initialized := true;
       MainSecurityManager.ticks := [] |} in
  match (MainSecurityManager.executeSecurely Sample.runtime request
           (Sample.resolves "4") loaded).1 with
  | Throw (ErrorObj _) => True
  | _ => False
  end
  ∧ (MainSecurityManager.executeSecurely Sample.runtime request
       Sample.hangs unbounded).1 = Never
  ∧ (∃ r, (MainSecurityManager.executeSecurely Sample.runtime request
             Sample.hangs s).1 = Normal r
          ∧ MainSecurityManager.success r = false
          ∧ MainSecurityManager.error r = Some "Execution timeout"%string)
  ∧ (MainSecurityManager.executeSecurely Sample.runtime request
       (Sample.waits (Resolved "4"%string)
          [(Sample.idleProcess, 500);
           (MainSecurityManager.memoryUsage loaded, 1000)]) s).1 = Never.
Proof.
  intros request s loaded unbounded. split_and!.
  - vm_compute. exact I.
  - vm_compute. reflexivity.
  - eexists. split; [vm_compute; reflexivity|]. split; reflexivity.
  - vm_compute. reflexivity.
Qed.

(** In strict mode a finding of the analyzer ends the call before the
    supervisors are started and before the candidate is looked at. *)
Lemma executeSecurely_rejects (rt : Runtime) {T : Type}
    (context : SecureExecutionContext.t)
    (executor : Executor MainSecurityManager.t T)
    (s : MainSecurityManager.t) (a : ModuleSecurityManager.CodeAnalysis)
    (m' : ModuleSecurityManager.t) :
  MainSecurityManager.initialized s = true →
  SecurityConfig.strictMode (MainSecurityManager.config s) = true →
  ModuleSecurityManager.analyzeCode rt (MainSecurityManager.now s)
    (SecureExecutionContext.code context) (MainSecurityManager.moduleBlocker s)
  = (Normal a, m') →
  ModuleSecurityManager.safe a = false →
  MainSecurityManager.executeSecurely rt context executor s
  = (Normal
       {| MainSecurityManager.result := None;
          MainSecurityManager.securityReport :=
            MainSecurityManager.createSecurityReport
              (SecureExecutionContext.executionId context)
              (ModuleSecurityManager.found a) (MainSecurityManager.now s) None
              (MainSecurityManager.setModuleBlocker m' s);
          MainSecurityManager.success := false;
          MainSecurityManager.error :=
            Some "Code failed security analysis - contains dangerous patterns"%string |},
     MainSecurityManager.setModuleBlocker m' s).
Proof.
  intros Hinit Hstrict Ha Hunsafe.
  unfold MainSecurityManager.executeSecurely, bind, gets,
    MainSecurityManager.dateNow, MainSecurityManager.onModuleBlocker, zoom.
  rewrite Hinit. simpl. rewrite Ha. simpl. rewrite Hstrict, Hunsafe. done.
Qed.

(** C2, as the code has it.  When a capability pattern whose cursor is at
    the start occurs in the code, [executeSecurely] in strict mode returns
    [success = false] without a result, its report lists a
    DANGEROUS_PATTERN violation of severity HIGH, and the call is the same
    for every candidate: the candidate is not run. *)
Theorem strict_rejection (rt : Runtime) {T : Type}
    (context : SecureExecutionContext.t) (s : MainSecurityManager.t)
    (p : RegExp) :
  MainSecurityManager.initialized s = true →
  SecurityConfig.strictMode (MainSecurityManager.config s) = true →
  p ∈ ModuleSecurityManager.DANGEROUS_PATTERNS
        (MainSecurityManager.moduleBlocker s) →
  source p ∈ ModuleSecurityManager.CAPABILITY_PATTERNS →
  lastIndex p = 0%nat →
  occurs (source p) (SecureExecutionContext.code context) →
  ∃ r s',
    (∀ executor : Executor MainSecurityManager.t T,
       MainSecurityManager.executeSecurely rt context executor s
       = (Normal r, s'))
    ∧ MainSecurityManager.success r = false
    ∧ MainSecurityManager.result r = None
    ∧ ∃ v, v ∈ SecurityReport.violations (MainSecurityManager.securityReport r)
           ∧ SecurityReport.severity v = HIGH
           ∧ SecurityReport.type v = DANGEROUS_PATTERN.
Proof.
  intros Hinit Hstrict Hin _ H0 Hocc.
  pose proof (analyzeCode_unfold rt (MainSecurityManager.now s)
                (SecureExecutionContext.code context)
                (MainSecurityManager.moduleBlocker s)) as Ha.
  cbv zeta in Ha.
  pose proof (scanPatterns_hit (MainSecurityManager.now s)
                (sha256_hex rt (SecureExecutionContext.code context))
                _ _ p Hin H0 Hocc) as Hhit.
  eexists _, _. split_and!.
  - intros executor.
    apply (executeSecurely_rejects rt context executor s _ _ Hinit Hstrict Ha).
    simpl. apply bool_decide_eq_false_2. intros Hnil. rewrite Hnil in Hhit.
    by apply elem_of_nil in Hhit.
  - done.
  - done.
  - exists (MainSecurityManager.ofCode
              (ModuleSecurityManager.patternViolation
                 (MainSecurityManager.now s)
                 (sha256_hex rt (SecureExecutionContext.code context)) p)).
    split_and!; [|done..].
    simpl. apply elem_of_app. left. apply list_elem_of_fmap.
    eexists. split; [reflexivity|]. apply elem_of_app. by left.
Qed.

Lemma strict_rejection_witness :
  ∃ r s',
    (∀ executor : Executor MainSecurityManager.t string,
       MainSecurityManager.executeSecurely Sample.runtime
         (Sample.request "job" "const fs = require('fs')") executor
         (Sample.manager ∅ true) = (Normal r, s'))
    ∧ MainSecurityManager.success r = false
    ∧ MainSecurityManager.result r = None
    ∧ ∃ v, v ∈ SecurityReport.violations (MainSecurityManager.securityReport r)
           ∧ SecurityReport.severity v = HIGH
           ∧ SecurityReport.type v = DANGEROUS_PATTERN.
Proof.
  apply (strict_rejection Sample.runtime
           (Sample.request "job" "const fs = require('fs')")
           (Sample.manager ∅ true) (mkRegExp (requirePattern "fs") 0)).
  - reflexivity.
  - reflexivity.
  - simpl. right. left.
  - simpl. right. left.
  - reflexivity.
  - eapply occurs_by_search. vm_compute. reflexivity.
Defined.

(** C2 as stated fails on a new, initialized manager in strict mode and
    the code require('fs'): the call is rejected, but the report lists the
    finding with severity HIGH (twice) and nothing of severity CRITICAL;
    its score is 60. *)
Lemma strict_rejection_without_critical :
  occurs (requirePattern "fs") (units "require('fs')")
  ∧ match MainSecurityManager.executeSecurely Sample.runtime
            (Sample.request "job" "require('fs')") (Sample.resolves "x")
            (Sample.manager ∅ true) with
    | (Normal r, _) =>
        MainSecurityManager.success r = false
        ∧ map SecurityReport.severity
            (SecurityReport.violations (MainSecurityManager.securityReport r))
          = [HIGH; HIGH]
        ∧ ¬ (∃ v, v ∈ SecurityReport.violations
                        (MainSecurityManager.securityReport r)
                  ∧ SecurityReport.severity v = CRITICAL)
        ∧ SecurityReport.securityScore (MainSecurityManager.securityReport r)
          = 60
    | _ => False
    end.
Proof.
  split.
  - eapply occurs_by_search. vm_compute. reflexivity.
  - vm_compute. split_and!; [reflexivity..| |reflexivity].
    intros (v & Hv & Hs).
    repeat (apply elem_of_cons in Hv as [->|Hv]; [discriminate|]).
    by apply elem_of_nil in Hv.
Qed.

(** The cursor of a pattern outlives the call that moved it.  The same
    request, sent twice to a new manager in strict mode, is rejected the
    first time and run the second time. *)
Example strict_rejection_every_other_call :
  let request := Sample.request "job" "require('fs')" in
  let first := MainSecurityManager.executeSecurely Sample.runtime request
                 (Sample.resolves "ran") (Sample.manager ∅ true) in
  let second := MainSecurityManager.executeSecurely Sample.runtime request
                  (Sample.resolves "ran") first.2 in
  match first.1, second.1 with
  | Normal r1, Normal r2 =>
      MainSecurityManager.success r1 = false
      ∧ MainSecurityManager.result r1 = None
      ∧ MainSecurityManager.success r2 = true
      ∧ MainSecurityManager.result r2 = Some "ran"%string
  | _, _ => False
  end.
Proof. vm_compute. done. Qed.

(** C3, as the code has it.  The report that [executeSecurely] returns
    lists the findings of its own static analysis followed by everything
    that is in the log of the module blocker and in the log of the
    environment blocker when the report is made.  The two logs belong to
    the process, not to an execution, and [executeSecurely] never empties
    them: when the candidate only appends to them, every violation that
    was in a log when the call started, such as one recorded during an
    earlier execution with another id, is listed in the report. *)
Theorem report_includes_earlier_violations (rt : Runtime) {T : Type}
    (context : SecureExecutionContext.t)
    (executor : Executor MainSecurityManager.t T)
    (s s' : MainSecurityManager.t) (r : MainSecurityManager.Result T) :
  MainSecurityManager.executeSecurely rt context executor s = (Normal r, s') →
  (∃ a m',
     ModuleSecurityManager.analyzeCode rt (MainSecurityManager.now s)
       (SecureExecutionContext.code context)
       (MainSecurityManager.moduleBlocker s) = (Normal a, m')
     ∧ SecurityReport.violations (MainSecurityManager.securityReport r)
       = map MainSecurityManager.ofCode (ModuleSecurityManager.found a)
         ++ map MainSecurityManager.ofCode
              (ModuleSecurityManager.getViolations
                 (MainSecurityManager.moduleBlocker s'))
         ++ map MainSecurityManager.ofEnvironment
              (EnvironmentBlocker.getViolations
                 (MainSecurityManager.environmentBlocker s')))
  ∧ (MainSecurityManager.appendOnly executor →
     (∀ v, v ∈ ModuleSecurityManager.getViolations
                 (MainSecurityManager.moduleBlocker s) →
           MainSecurityManager.ofCode v
           ∈ SecurityReport.violations (MainSecurityManager.securityReport r))
     ∧ (∀ v, v ∈ EnvironmentBlocker.getViolations
                   (MainSecurityManager.environmentBlocker s) →
             MainSecurityManager.ofEnvironment v
             ∈ SecurityReport.violations
                 (MainSecurityManager.securityReport r))).
Proof.
  intros E.
  destruct (MainSecurityManager.initialized s) eqn:Hinit.
  2:{ rewrite (executeSecurely_guard rt context executor s Hinit) in E.
      discriminate. }
  destruct (analyzeCode_appends rt (MainSecurityManager.now s)
              (SecureExecutionContext.code context)
              (MainSecurityManager.moduleBlocker s)) as (a & m' & Ha & _).
  pose proof (executeSecurely_wp rt context executor s a m' Hinit Ha) as H.
  apply (wp_elim _ _ _ _ _ _ _ H) in E as [[mem Hr] Hlogs].
  assert (Hall : SecurityReport.violations (MainSecurityManager.securityReport r)
    = map MainSecurityManager.ofCode (ModuleSecurityManager.found a)
      ++ map MainSecurityManager.ofCode
           (ModuleSecurityManager.getViolations
              (MainSecurityManager.moduleBlocker s'))
      ++ map MainSecurityManager.ofEnvironment
           (EnvironmentBlocker.getViolations
              (MainSecurityManager.environmentBlocker s'))) by by rewrite Hr.
  split; [by exists a, m'|].
  intros Happ. destruct (Hlogs Happ) as [[l1 H1] [l2 H2]].
  unfold ModuleSecurityManager.getViolations,
    EnvironmentBlocker.getViolations in *.
  rewrite Hall, H1, H2. split; intros v Hv.
  - apply elem_of_app. right. apply elem_of_app. left.
    apply list_elem_of_fmap. exists v. split; [done|].
    apply elem_of_app. by left.
  - apply elem_of_app. right. apply elem_of_app. right.
    apply list_elem_of_fmap. exists v. split; [done|].
    apply elem_of_app. by left.
Qed.

Lemma report_includes_earlier_violations_witness :
  let earlier :=
    (MainSecurityManager.executeSecurely Sample.runtime
       (Sample.request "first" "eval(1)") (Sample.resolves "x")
       (Sample.manager ∅ true)).2 in
  ∃ r s',
    MainSecurityManager.executeSecurely Sample.runtime
      (Sample.request "second" "1 + 1") (Sample.resolves "2") earlier
    = (Normal r, s')
    ∧ ∀ v, v ∈ ModuleSecurityManager.getViolations
                 (MainSecurityManager.moduleBlocker earlier) →
           MainSecurityManager.ofCode v
           ∈ SecurityReport.violations (MainSecurityManager.securityReport r).
Proof.
  intros earlier.
  destruct (MainSecurityManager.executeSecurely Sample.runtime
              (Sample.request "second" "1 + 1") (Sample.resolves "2") earlier)
    as [[r|e|] s'] eqn:E; [|vm_compute in E; discriminate..].
  exists r, s'. split; [reflexivity|].
  destruct (report_includes_earlier_violations Sample.runtime
              (Sample.request "second" "1 + 1") (Sample.resolves "2")
              earlier s' r E) as [_ H].
  apply H. intros s. split; reflexivity.
Defined.

(** C3 as stated fails on two executions with the ids first and second,
    run one after the other on a new manager.  The first scans the code
    eval(1) and records one violation.  The second scans 1 + 1, finds
    nothing, runs a candidate that touches nothing and records nothing;
    its report nevertheless lists the violation of the first. *)
Lemma second_report_lists_first_violation :
  let start := Sample.manager ∅ true in
  let first := MainSecurityManager.executeSecurely Sample.runtime
                 (Sample.request "first" "eval(1)") (Sample.resolves "x")
                 start in
  let second := MainSecurityManager.executeSecurely Sample.runtime
                  (Sample.request "second" "1 + 1") (Sample.resolves "2")
                  first.2 in
  "first"%string ≠ "second"%string
  ∧ ModuleSecurityManager.getViolations
      (MainSecurityManager.moduleBlocker start) = []
  ∧ ∃ v r2,
      ModuleSecurityManager.getViolations
        (MainSecurityManager.moduleBlocker first.2) = [v]
      ∧ ModuleSecurityManager.getViolations
          (MainSecurityManager.moduleBlocker second.2) = [v]
      ∧ second.1 = Normal r2
      ∧ SecurityReport.executionId (MainSecurityManager.securityReport r2)
        = "second"%string
      ∧ SecurityReport.violations (MainSecurityManager.securityReport r2)
        = [MainSecurityManager.ofCode v].
Proof.
  intros start first second. split; [discriminate|]. split; [reflexivity|].
  eexists _, _. split_and!; vm_compute; reflexivity.
Qed.

(* ===================================================================== *)
(** ** Further properties of the timeout manager                          *)
(* ===================================================================== *)

Section TimeoutLifecycle.
Import TimeoutManager.
Implicit Types (s : TimeoutManager.t).

Lemma stopExecution_unfold now id s :
  stopExecution now id s
  = match activeExecutions s !! id with
    | None => (Normal None, s)
    | Some e =>
        (Normal (Some (metrics e)),
         {| config := config s;
            activeExecutions := delete id (activeExecutions s);
            objects :=
              alter (λ x,
                {| startTime := startTime x; endTime := Some now;
                   executionTime := now - exec_startTime e;
                   cpuUsage := cpuUsage x; memoryPeak := memoryPeak x;
                   timedOut := timedOut x; reason := reason x |})
                (metrics e) (objects s) |})
    end.
Proof.
  unfold stopExecution, bind, gets. simpl.
  by destruct (activeExecutions s !! id).
Qed.

Lemma terminateExecution_unfold now id why s :
  terminateExecution now id why s
  = match activeExecutions s !! id with
    | None => (Normal false, s)
    | Some e =>
        (Normal true,
         {| config := config s;
            activeExecutions := delete id (activeExecutions s);
            objects :=
              alter (λ x,
                {| startTime := startTime x; endTime := Some now;
                   executionTime := now - exec_startTime e;
                   cpuUsage := cpuUsage x; memoryPeak := memoryPeak x;
                   timedOut := true; reason := Some why |})
                (metrics e) (objects s) |})
    end.
Proof.
  unfold terminateExecution, bind, gets. simpl.
  by destruct (activeExecutions s !! id).
Qed.

Lemma deref_fresh s (f : ExecutionMetrics → ExecutionMetrics) x rest :
  objects s = rest ++ [x] →
  default x (alter f (length rest) (objects s) !! length rest) = f x.
Proof.
  intros ->. rewrite list_lookup_alter_eq, list_lookup_middle by done. done.
Qed.

(** Start, then stop: the metrics that [stopExecution] returns are those
    of this execution, with the elapsed time between the two calls; the
    entry is gone and the configuration is untouched. *)
Theorem start_stop_round_trip s (t0 t1 : Z) (id : string) (w : option nat) :
  ∃ a s1 s2,
    startExecution t0 id w s = (Normal a, s1)
    ∧ stopExecution t1 id s1 = (Normal (Some a), s2)
    ∧ deref s2 a
      = {| startTime := t0; endTime := Some t1; executionTime := t1 - t0;
           cpuUsage := 0; memoryPeak := 0; timedOut := false;
           reason := None |}
    ∧ activeExecutions s2 = delete id (activeExecutions s)
    ∧ objects s2 !! a = Some (deref s2 a)
    ∧ config s2 = config s.
Proof.
  eexists _, _, _. split; [reflexivity|].
  rewrite stopExecution_unfold. cbn [activeExecutions objects config].
  rewrite lookup_insert_eq. split; [reflexivity|].
  unfold deref. cbn [objects metrics exec_startTime].
  rewrite list_lookup_alter_eq, list_lookup_middle by done.
  split_and!; [done| |done..].
  by rewrite delete_insert_eq.
Qed.

(** A second [startExecution] under the same id replaces the entry.  The
    next [stopExecution] measures from the second start, and the metrics
    object of the first start is never completed. *)
Theorem restart_replaces_entry s (t0 t1 t2 : Z) (id : string)
    (w w' : option nat) :
  ∃ a a' s1 s2 s3,
    startExecution t0 id w s = (Normal a, s1)
    ∧ startExecution t1 id w' s1 = (Normal a', s2)
    ∧ stopExecution t2 id s2 = (Normal (Some a'), s3)
    ∧ a ≠ a'
    ∧ executionTime (deref s3 a') = t2 - t1
    ∧ objects s3 !! a
      = Some {| startTime := t0; endTime := None; executionTime := 0;
                cpuUsage := 0; memoryPeak := 0; timedOut := false;
                reason := None |}
    ∧ activeExecutions s3 !! id = None.
Proof.
  eexists _, _, _, _, _. split; [reflexivity|]. split; [reflexivity|].
  rewrite stopExecution_unfold. cbn [activeExecutions objects config].
  rewrite lookup_insert_eq. split; [reflexivity|].
  cbn [metrics exec_startTime objects activeExecutions].
  rewrite length_app. simpl.
  split_and!.
  - lia.
  - unfold deref. cbn [objects].
    rewrite list_lookup_alter_eq.
    replace (length (objects s) + 1)%nat
      with (length (objects s ++ [ {| startTime := t0; endTime := None;
              executionTime := 0; cpuUsage := 0; memoryPeak := 0;
              timedOut := false; reason := None |} ]))
      by (rewrite length_app; simpl; lia).
    by rewrite list_lookup_middle.
  - rewrite list_lookup_alter_ne by lia.
    rewrite lookup_app_l by (rewrite length_app; simpl; lia).
    by rewrite list_lookup_middle.
  - by rewrite lookup_delete_eq.
Qed.

(** Once an execution has been stopped or terminated, stopping or
    terminating it again finds nothing and changes nothing. *)
Theorem ended_execution_stays_ended s (now now' : Z) (id why why' : string) :
  let stopped := (stopExecution now id s).2 in
  let terminated := (terminateExecution now id why s).2 in
  stopExecution now' id stopped = (Normal None, stopped)
  ∧ terminateExecution now' id why' stopped = (Normal false, stopped)
  ∧ stopExecution now' id terminated = (Normal None, terminated)
  ∧ terminateExecution now' id why' terminated = (Normal false, terminated).
Proof.
  assert (H1 : activeExecutions (stopExecution now id s).2 !! id = None).
  { rewrite stopExecution_unfold.
    destruct (activeExecutions s !! id) eqn:E; simpl; [|done].
    by rewrite lookup_delete_eq. }
  assert (H2 : activeExecutions (terminateExecution now id why s).2 !! id = None).
  { rewrite terminateExecution_unfold.
    destruct (activeExecutions s !! id) eqn:E; simpl; [|done].
    by rewrite lookup_delete_eq. }
  cbv zeta. rewrite !stopExecution_unfold with (now := now'),
    !terminateExecution_unfold with (now := now').
  by rewrite H1, H2.
Qed.

Lemma wellFormed_new cfg : wellFormed (new cfg).
Proof.
  split; simpl; [intros i e H | intros i i' e e' _ H];
    by apply lookup_empty_Some in H.
Qed.

Lemma wellFormed_start s now id w :
  wellFormed s → wellFormed (startExecution now id w s).2.
Proof.
  intros [Hin Hsep]. split; simpl.
  - intros i e. rewrite length_app. simpl.
    destruct (decide (id = i)) as [->|Hne].
    + rewrite lookup_insert_eq. intros [= <-]. simpl. lia.
    + rewrite lookup_insert_ne by done. intros H%Hin. lia.
  - intros i i' e e' Hne.
    destruct (decide (id = i)) as [E1|H1];
      destruct (decide (id = i')) as [E2|H2]; subst; try done.
    + rewrite lookup_insert_eq, lookup_insert_ne by done.
      intros [= <-] H%Hin. simpl. lia.
    + rewrite lookup_insert_ne, lookup_insert_eq by done.
      intros H%Hin [= <-]. simpl. lia.
    + rewrite !lookup_insert_ne by done. by apply Hsep.
Qed.

Lemma wellFormed_delete s id objs :
  length objs = length (objects s) → wellFormed s →
  wellFormed {| config := config s;
                activeExecutions := delete id (activeExecutions s);
                objects := objs |}.
Proof.
  intros Hlen [Hin Hsep]. split; simpl.
  - intros i e'. rewrite Hlen.
    intros [_ H]%lookup_delete_Some. by apply Hin in H.
  - intros i i' e1 e2 Hne [_ H1]%lookup_delete_Some
      [_ H2]%lookup_delete_Some. by eapply Hsep.
Qed.

Lemma wellFormed_stop s now id :
  wellFormed s → wellFormed (stopExecution now id s).2.
Proof.
  intros H. rewrite stopExecution_unfold.
  destruct (activeExecutions s !! id) eqn:E; simpl; [|done].
  apply wellFormed_delete; [by rewrite length_alter|done].
Qed.

Lemma wellFormed_terminate s now id why :
  wellFormed s → wellFormed (terminateExecution now id why s).2.
Proof.
  intros H. rewrite terminateExecution_unfold.
  destruct (activeExecutions s !! id) eqn:E; simpl; [|done].
  apply wellFormed_delete; [by rewrite length_alter|done].
Qed.

(** [wellFormed] holds of a new manager and is kept by the three
    bookkeeping methods: no two active executions ever share a metrics
    object, and none refers to a missing one. *)
Theorem wellFormed_invariant s (now : Z) (id why : string) (w : option nat) :
  wellFormed s →
  wellFormed (startExecution now id w s).2
  ∧ wellFormed (stopExecution now id s).2
  ∧ wellFormed (terminateExecution now id why s).2.
Proof.
  intros H. split_and!.
  - by apply wellFormed_start.
  - by apply wellFormed_stop.
  - by apply wellFormed_terminate.
Qed.

Lemma wellFormed_invariant_witness :
  let s := (startExecution 10 "a" None (new DEFAULT_CONFIG)).2 in
  wellFormed (startExecution 20 "a" None s).2
  ∧ wellFormed (stopExecution 20 "a" s).2
  ∧ wellFormed (terminateExecution 20 "a" "why" s).2.
Proof.
  intros s. apply (wellFormed_invariant s 20 "a" "why" None).
  apply wellFormed_start, wellFormed_new.
Defined.

(** Stopping or terminating one execution leaves every other active
    execution as it is: its entry, and the metrics object of its entry. *)
Theorem other_executions_untouched s (now : Z) (id id' why : string)
    (e' : Execution) :
  wellFormed s → id ≠ id' → activeExecutions s !! id' = Some e' →
  let stopped := (stopExecution now id s).2 in
  let terminated := (terminateExecution now id why s).2 in
  activeExecutions stopped !! id' = Some e'
  ∧ deref stopped (metrics e') = deref s (metrics e')
  ∧ activeExecutions terminated !! id' = Some e'
  ∧ deref terminated (metrics e') = deref s (metrics e').
Proof.
  intros [_ Hsep] Hne He'. cbv zeta.
  rewrite stopExecution_unfold, terminateExecution_unfold.
  destruct (activeExecutions s !! id) as [e|] eqn:E; simpl; [|done].
  assert (metrics e ≠ metrics e') by by eapply Hsep.
  unfold deref. simpl.
  rewrite !lookup_delete_ne, !list_lookup_alter_ne by done. done.
Qed.

Lemma other_executions_untouched_witness :
  let s := (startExecution 20 "b" None
              (startExecution 10 "a" None (new DEFAULT_CONFIG)).2).2 in
  let e' := {| exec_startTime := 20; worker := None; metrics := 1%nat |} in
  activeExecutions (stopExecution 30 "a" s).2 !! "b"%string = Some e'
  ∧ deref (stopExecution 30 "a" s).2 1 = deref s 1
  ∧ activeExecutions (terminateExecution 30 "a" "why" s).2 !! "b"%string
    = Some e'
  ∧ deref (terminateExecution 30 "a" "why" s).2 1 = deref s 1.
Proof.
  intros s e'.
  apply (other_executions_untouched s 30 "a" "b" "why" e').
  - apply wellFormed_start, wellFormed_start, wellFormed_new.
  - discriminate.
  - vm_compute. reflexivity.
Defined.

End TimeoutLifecycle.

Section TerminateAll.
Import TimeoutManager.
Implicit Types (s : TimeoutManager.t).

Lemma terminate_fold (now : Z) (why : string) (l : list string) :
  ∀ (acc : M TimeoutManager.t nat) s n s1,
    acc s = (Normal n, s1) → NoDup l →
    (∀ i, i ∈ l → is_Some (activeExecutions s1 !! i)) →
    ∃ s2,
      foldl (λ acc executionId,
               n <~ acc ;;
               done <~ terminateExecution now executionId why ;;
               ret (if done : bool then S n else n))%js acc l s
      = (Normal (n + length l)%nat, s2)
      ∧ config s2 = config s1
      ∧ (∀ i, activeExecutions s2 !! i
              = if decide (i ∈ l) then None else activeExecutions s1 !! i)
      ∧ (wellFormed s1 →
         ∀ i e, i ∈ l → activeExecutions s1 !! i = Some e →
           deref s2 (metrics e)
           = {| startTime := startTime (deref s1 (metrics e));
                endTime := Some now;
                executionTime := now - exec_startTime e;
                cpuUsage := cpuUsage (deref s1 (metrics e));
                memoryPeak := memoryPeak (deref s1 (metrics e));
                timedOut := true; reason := Some why |})
      ∧ (∀ a, (∀ i e, i ∈ l → activeExecutions s1 !! i = Some e →
                      metrics e ≠ a) →
              objects s2 !! a = objects s1 !! a).
Proof.
  induction l as [|k l IH]; intros acc s n s1 Hacc Hnd Hin.
  - exists s1. simpl. rewrite Nat.add_0_r. split_and!; try done.
    intros _ i e Hi. by apply elem_of_nil in Hi.
  - apply NoDup_cons in Hnd as [Hk Hnd].
    destruct (Hin k) as [ek Hek]; [by left|].
    set (s1' := (terminateExecution now k why s1).2).
    assert (Hstep :
      (n <~ acc ;;
       done <~ terminateExecution now k why ;;
       ret (if done : bool then S n else n))%js s = (Normal (S n), s1')).
    { unfold bind at 1. rewrite Hacc. unfold bind at 1. subst s1'.
      rewrite terminateExecution_unfold, Hek. done. }
    assert (Hs1' : s1' =
      {| config := config s1;
         activeExecutions := delete k (activeExecutions s1);
         objects :=
           alter (λ x,
             {| startTime := startTime x; endTime := Some now;
                executionTime := now - exec_startTime ek;
                cpuUsage := cpuUsage x; memoryPeak := memoryPeak x;
                timedOut := true; reason := Some why |})
             (metrics ek) (objects s1) |}).
    { subst s1'. by rewrite terminateExecution_unfold, Hek. }
    destruct (IH _ s (S n) s1' Hstep Hnd) as (s2 & E & Hc & Hm & Hw & Hf).
    { intros i Hi. rewrite Hs1'. simpl.
      rewrite lookup_delete_ne by (intros ->; done). apply Hin. by right. }
    exists s2. cbn [foldl]. rewrite E. split_and!.
    + f_equal. f_equal. simpl. lia.
    + by rewrite Hc, Hs1'.
    + intros i. rewrite Hm.
      destruct (decide (i = k)) as [->|Hne].
      * rewrite (decide_True (P := k ∈ k :: l)) by by left.
        destruct (decide (k ∈ l)); [done|].
        rewrite Hs1'. simpl. by rewrite lookup_delete_eq.
      * rewrite Hs1'. simpl. rewrite lookup_delete_ne by done.
        destruct (decide (i ∈ l)) as [H1|H1];
          destruct (decide (i ∈ k :: l)) as [H2|H2]; try done.
        -- exfalso. apply H2. by right.
        -- exfalso. apply elem_of_cons in H2 as [?|?]; done.
    + intros Hwf i e Hi He.
      assert (Hwf' : wellFormed s1').
      { subst s1'. by apply wellFormed_terminate. }
      apply elem_of_cons in Hi as [->|Hi].
      * assert (e = ek) as -> by congruence.
        unfold deref. rewrite Hf.
        -- rewrite Hs1'. simpl. rewrite list_lookup_alter_eq.
           destruct Hwf as [Hrange _]. apply Hrange in Hek.
           apply lookup_lt_is_Some in Hek as [x Hx]. by rewrite Hx.
        -- intros i e'. rewrite Hs1'. simpl. intros Hi [Hne He']%lookup_delete_Some.
           destruct Hwf as [_ Hsep]. by apply (Hsep i k e' ek).
      * assert (i ≠ k) by (intros ->; done).
        rewrite (Hw Hwf' i e Hi).
        2:{ rewrite Hs1'. simpl. by rewrite lookup_delete_ne. }
        assert (metrics ek ≠ metrics e).
        { destruct Hwf as [_ Hsep]. apply (Hsep k i ek e); done. }
        unfold deref. rewrite Hs1'. simpl.
        rewrite list_lookup_alter_ne by done. done.
    + intros a Ha. rewrite Hf.
      * rewrite Hs1'. simpl. rewrite list_lookup_alter_ne; [done|].
        eapply Ha; [by left|done].
      * intros i e Hi. rewrite Hs1'. simpl.
        intros [Hne He]%lookup_delete_Some. eapply Ha; [by right|done].
Qed.

(** The loop of [terminateAllExecutions] visits every entry once. *)
Lemma terminateAllExecutions_cleared s (now : Z) (why : string) :
  ∃ s',
    terminateAllExecutions now why s
    = (Normal (size (activeExecutions s)), s')
    ∧ activeExecutions s' = ∅
    ∧ getActiveExecutions s' = []
    ∧ config s' = config s.
Proof.
  unfold terminateAllExecutions, bind at 1, gets at 1.
  destruct (terminate_fold now why (getActiveExecutions s) (ret 0%nat) s 0%nat s)
    as (s' & E & Hc & Hm & _ & _).
  - done.
  - apply NoDup_fst_map_to_list.
  - intros i [[i' e] [-> H]]%list_elem_of_fmap.
    apply elem_of_map_to_list in H. simpl. by rewrite H.
  - exists s'. rewrite E.
    assert (He : activeExecutions s' = ∅).
    { apply map_eq. intros i. rewrite Hm, lookup_empty.
      destruct (decide (i ∈ getActiveExecutions s)) as [Hi|Hi]; [done|].
      destruct (activeExecutions s !! i) as [e|] eqn:Ei; [|done].
      exfalso. apply Hi. apply list_elem_of_fmap. exists (i, e).
      split; [done|]. by apply elem_of_map_to_list. }
    split_and!; [|done| |done].
    + unfold getActiveExecutions. rewrite length_fmap, length_map_to_list. done.
    + unfold getActiveExecutions. by rewrite He, map_to_list_empty.
Qed.

(** [terminateAllExecutions] terminates every active execution: it
    returns their number, leaves no entry, and keeps the configuration. *)
Theorem terminateAllExecutions_empties s (now : Z) (why : string) :
  ∃ s',
    terminateAllExecutions now why s
    = (Normal (size (activeExecutions s)), s')
    ∧ activeExecutions s' = ∅
    ∧ getActiveExecutions s' = []
    ∧ config s' = config s.
Proof. apply terminateAllExecutions_cleared. Qed.

(** Every execution that was active is marked by
    [terminateAllExecutions]: its metrics object is flagged as timed out
    with the reason given, its end time and elapsed time are set, and
    its other fields are kept. *)
Theorem terminateAllExecutions_marks s (now : Z) (why id : string)
    (e : Execution) :
  wellFormed s → activeExecutions s !! id = Some e →
  deref (terminateAllExecutions now why s).2 (metrics e)
  = {| startTime := startTime (deref s (metrics e));
       endTime := Some now;
       executionTime := now - exec_startTime e;
       cpuUsage := cpuUsage (deref s (metrics e));
       memoryPeak := memoryPeak (deref s (metrics e));
       timedOut := true; reason := Some why |}.
Proof.
  intros Hwf He.
  unfold terminateAllExecutions, bind at 1, gets at 1.
  destruct (terminate_fold now why (getActiveExecutions s) (ret 0%nat) s 0%nat s)
    as (s' & E & _ & _ & Hw & _).
  - done.
  - apply NoDup_fst_map_to_list.
  - intros i [[i' e'] [-> H]]%list_elem_of_fmap.
    apply elem_of_map_to_list in H. simpl. by rewrite H.
  - rewrite E. simpl. apply (Hw Hwf id); [|done].
    apply list_elem_of_fmap. exists (id, e). split; [done|].
    by apply elem_of_map_to_list.
Qed.

Lemma terminateAllExecutions_marks_witness :
  let s := (startExecution 20 "b" None
              (startExecution 10 "a" None (new DEFAULT_CONFIG)).2).2 in
  deref (terminateAllExecutions 50 "EMERGENCY_SHUTDOWN" s).2 0
  = {| startTime := 10; endTime := Some 50; executionTime := 40;
       cpuUsage := 0; memoryPeak := 0; timedOut := true;
       reason := Some "EMERGENCY_SHUTDOWN"%string |}.
Proof.
  intros s.
  apply (terminateAllExecutions_marks s 50 "EMERGENCY_SHUTDOWN" "a"
           {| exec_startTime := 10; worker := None; metrics := 0%nat |}).
  - apply wellFormed_start, wellFormed_start, wellFormed_new.
  - vm_compute. reflexivity.
Defined.

End TerminateAll.

Section TimeoutOutcome.
Import TimeoutManager.
Context {S T : Type} (clock : S → Z) (getTM : S → TimeoutManager.t)
  (setTM : TimeoutManager.t → S → S).
Hypothesis get_set : ∀ x s, getTM (setTM x s) = x.

Lemma on_stopExecution_absent now id (s : S) :
  activeExecutions (getTM (on getTM setTM (stopExecution now id) s).2) !! id
  = None.
Proof.
  unfold on, zoom. rewrite stopExecution_unfold.
  destruct (activeExecutions (getTM s) !! id) eqn:E; simpl;
    rewrite get_set; simpl; [by rewrite lookup_delete_eq|done].
Qed.

Lemma cleanup_keeps_entries (customTimeout : option Z) (v : Z) (s : S) :
  ∃ s', whenTruthy customTimeout
          (λ _, on getTM setTM (setMaxExecutionTime v)) s = (Normal tt, s')
        ∧ activeExecutions (getTM s') = activeExecutions (getTM s)
        ∧ objects (getTM s') = objects (getTM s).
Proof.
  unfold whenTruthy. destruct customTimeout as [c|]; [|by eexists].
  destruct (c =? 0); [by eexists|].
  eexists. split; [reflexivity|]. by rewrite get_set.
Qed.

(** The paths of [executeWithTimeout], one for each way the candidate
    can end. *)
Lemma executeWithTimeout_cases (id : string) (execution : Executor S T)
    (customTimeout : option Z) (s : S) :
  ∃ r s',
    executeWithTimeout clock getTM setTM id execution customTimeout s
    = (Normal r, s')
    ∧ activeExecutions (getTM s') !! id = None
    ∧ match (execution (started clock getTM setTM id customTimeout s)).1 with
      | Resolved v =>
          result r = Some v ∧ success r = true ∧ error r = None
      | Rejected (ErrorObj msg) =>
          result r = None ∧ success r = false ∧ error r = Some msg
      | Rejected OtherValue =>
          result r = None ∧ success r = false
          ∧ error r = Some "Unknown error"%string
      | Pending =>
          result r = None ∧ success r = false
          ∧ error r = Some "Execution timeout"%string
      end.
Proof.
  unfold executeWithTimeout, started.
  unfold bind at 1, gets at 1. unfold bind at 1.
  destruct (whenTruthy customTimeout _ s) as [[[]|e|] s0] eqn:E0.
  2,3: unfold whenTruthy in E0; destruct customTimeout as [c|];
       [destruct (c =? 0)|]; discriminate.
  cbn [snd]. unfold bind at 1, dateNow at 1, gets at 1.
  unfold bind at 1.
  destruct (on getTM setTM (startExecution (clock s0) id None) s0)
    as [[a|e|] s1] eqn:E1; [|discriminate..].
  cbn [snd]. unfold tryFinally, tryCatch.
  unfold bind at 1, race at 1.
  destruct (execution s1) as [[v|e|] s2] eqn:E2; cbn [fst].
  - unfold bind at 1, dateNow at 1, gets at 1. unfold bind at 1.
    pose proof (on_stopExecution_absent (clock s2) id s2) as Hs.
    destruct (on getTM setTM (stopExecution (clock s2) id) s2)
      as [[st|e|] s3] eqn:E3;
      [|unfold on, zoom in E3; rewrite stopExecution_unfold in E3;
        destruct (activeExecutions (getTM s2) !! id); discriminate..].
    unfold bind at 1, gets at 1, ret.
    destruct (cleanup_keeps_entries customTimeout
                (maxExecutionTime (config (getTM s))) s3) as (s4 & E4 & H4 & _).
    rewrite E4. eexists _, _. split; [reflexivity|].
    split; [by rewrite H4|]. done.
  - unfold bind at 1, dateNow at 1, gets at 1. unfold bind at 1.
    pose proof (on_stopExecution_absent (clock s2) id s2) as Hs.
    destruct (on getTM setTM (stopExecution (clock s2) id) s2)
      as [[st|e'|] s3] eqn:E3;
      [|unfold on, zoom in E3; rewrite stopExecution_unfold in E3;
        destruct (activeExecutions (getTM s2) !! id); discriminate..].
    unfold bind at 1, on at 1, zoom at 1, mutate at 1, modify at 1.
    unfold bind at 1, gets at 1, ret.
    match goal with
    | |- context [whenTruthy _ _ ?x] =>
        destruct (cleanup_keeps_entries customTimeout
                    (maxExecutionTime (config (getTM s))) x)
          as (s4 & E4 & H4 & _)
    end.
    rewrite E4. eexists _, _. split; [reflexivity|].
    split; [by rewrite H4, get_set|]. by destruct e.
  - unfold bind at 1, dateNow at 1, gets at 1. unfold bind at 1.
    destruct (on getTM setTM
                (terminateExecution (clock s2) id "EXECUTION_TIMEOUT") s2)
      as [[b|e|] s2'] eqn:E2';
      [|unfold on, zoom in E2'; rewrite terminateExecution_unfold in E2';
        destruct (activeExecutions (getTM s2) !! id); discriminate..].
    unfold throw at 1.
    unfold bind at 1, dateNow at 1, gets at 1. unfold bind at 1.
    pose proof (on_stopExecution_absent (clock s2') id s2') as Hs.
    destruct (on getTM setTM (stopExecution (clock s2') id) s2')
      as [[st|e'|] s3] eqn:E3;
      [|unfold on, zoom in E3; rewrite stopExecution_unfold in E3;
        destruct (activeExecutions (getTM s2') !! id); discriminate..].
    unfold bind at 1, on at 1, zoom at 1, mutate at 1, modify at 1.
    unfold bind at 1, gets at 1, ret.
    match goal with
    | |- context [whenTruthy _ _ ?x] =>
        destruct (cleanup_keeps_entries customTimeout
                    (maxExecutionTime (config (getTM s))) x)
          as (s4 & E4 & H4 & _)
    end.
    rewrite E4. eexists _, _. split; [reflexivity|].
    split; [by rewrite H4, get_set|]. done.
Qed.

(** What [executeWithTimeout] returns is decided by how the candidate
    ends: its value with [success]; its error message, or the words
    Unknown error when it rejects with something that is not an Error;
    or the words Execution timeout when it is still pending at the
    deadline.  On every path the execution is no longer registered. *)
Theorem executeWithTimeout_outcome (id : string) (execution : Executor S T)
    (customTimeout : option Z) (s : S) :
  ∃ r s',
    executeWithTimeout clock getTM setTM id execution customTimeout s
    = (Normal r, s')
    ∧ activeExecutions (getTM s') !! id = None
    ∧ match (execution (started clock getTM setTM id customTimeout s)).1 with
      | Resolved v =>
          result r = Some v ∧ success r = true ∧ error r = None
      | Rejected (ErrorObj msg) =>
          result r = None ∧ success r = false ∧ error r = Some msg
      | Rejected OtherValue =>
          result r = None ∧ success r = false
          ∧ error r = Some "Unknown error"%string
      | Pending =>
          result r = None ∧ success r = false
          ∧ error r = Some "Execution timeout"%string
      end.
Proof. apply executeWithTimeout_cases. Qed.

(** When the candidate leaves the manager alone, the metrics returned by
    [executeWithTimeout] are flagged as timed out exactly when the call
    fails, whether the deadline passed or the candidate rejected, and
    then carry the error message as the reason. *)
Theorem executeWithTimeout_failure_metrics (id : string)
    (execution : Executor S T) (customTimeout : option Z) (s : S) :
  let s1 := started clock getTM setTM id customTimeout s in
  getTM (execution s1).2 = getTM s1 →
  ∃ r s',
    executeWithTimeout clock getTM setTM id execution customTimeout s
    = (Normal r, s')
    ∧ timedOut (finalMetrics r) = negb (success r)
    ∧ reason (finalMetrics r) = error r
    ∧ endTime (finalMetrics r) = Some (clock (execution s1).2)
    ∧ executionTime (finalMetrics r)
      = clock (execution s1).2 - startTime (finalMetrics r).
Proof.
  unfold executeWithTimeout, started.
  unfold bind at 1, gets at 1. unfold bind at 1.
  destruct (whenTruthy customTimeout _ s) as [[[]|e|] s0] eqn:E0.
  2,3: unfold whenTruthy in E0; destruct customTimeout as [c|];
       [destruct (c =? 0)|]; discriminate.
  cbn [snd].
  set (a := length (objects (getTM s0))).
  set (fresh := {| startTime := clock s0; endTime := None;
                   executionTime := 0; cpuUsage := 0; memoryPeak := 0;
                   timedOut := false; reason := None |}).
  set (tm1 := {| config := config (getTM s0);
                 activeExecutions :=
                   <[id := {| exec_startTime := clock s0; worker := None;
                              metrics := a |}]> (activeExecutions (getTM s0));
                 objects := objects (getTM s0) ++ [fresh] |}).
  set (s1 := setTM tm1 s0).
  assert (Hstart : on getTM setTM (startExecution (clock s0) id None) s0
                   = (Normal a, s1)) by reflexivity.
  rewrite Hstart. cbn [snd]. intros Hkeep.
  rewrite (get_set tm1 s0 : getTM s1 = tm1) in Hkeep.
  unfold bind at 1, dateNow at 1, gets at 1.
  unfold bind at 1. rewrite Hstart.
  unfold tryFinally, tryCatch.
  unfold bind at 1, race at 1.
  assert (Hstop : ∀ now,
    on getTM setTM (stopExecution now id) (execution s1).2
    = (Normal (Some a),
       setTM {| config := config tm1;
                activeExecutions := delete id (activeExecutions tm1);
                objects := alter (λ x,
                  {| startTime := startTime x; endTime := Some now;
                     executionTime := now - clock s0;
                     cpuUsage := cpuUsage x; memoryPeak := memoryPeak x;
                     timedOut := timedOut x; reason := reason x |})
                  a (objects tm1) |} (execution s1).2)).
  { intros now. unfold on, zoom. rewrite stopExecution_unfold, Hkeep.
    subst tm1. simpl. by rewrite lookup_insert_eq. }
  assert (Hat : objects tm1 !! a = Some fresh).
  { subst tm1 a. simpl. by rewrite list_lookup_middle. }
  destruct (execution s1) as [[v|e|] s2] eqn:E2; cbn [fst snd] in *.
  - unfold bind at 1, dateNow at 1, gets at 1. unfold bind at 1.
    rewrite Hstop. unfold bind at 1, gets at 1, ret.
    match goal with
    | |- context [whenTruthy _ _ ?x] =>
        destruct (cleanup_keeps_entries customTimeout
                    (maxExecutionTime (config (getTM s))) x)
          as (s4 & E4 & _ & _)
    end.
    rewrite E4. eexists _, _. split; [reflexivity|].
    cbn [finalMetrics success error default].
    unfold deref. rewrite get_set. cbn [objects].
    rewrite list_lookup_alter_eq, Hat. done.
  - unfold bind at 1, dateNow at 1, gets at 1. unfold bind at 1.
    rewrite Hstop.
    unfold bind at 1, on at 1, zoom at 1, mutate at 1, modify at 1.
    unfold bind at 1, gets at 1, ret.
    match goal with
    | |- context [whenTruthy _ _ ?x] =>
        destruct (cleanup_keeps_entries customTimeout
                    (maxExecutionTime (config (getTM s))) x)
          as (s4 & E4 & _ & _)
    end.
    rewrite E4. eexists _, _. split; [reflexivity|].
    cbn [finalMetrics success error default].
    unfold deref. rewrite !get_set. cbn [objects].
    rewrite !list_lookup_alter_eq, Hat. done.
  - unfold bind at 1, dateNow at 1, gets at 1. unfold bind at 1.
    unfold on at 1, zoom at 1.
    rewrite terminateExecution_unfold, Hkeep.
    replace (activeExecutions tm1 !! id)
      with (Some {| exec_startTime := clock s0; worker := None;
                    metrics := a |})
      by (subst tm1; simpl; by rewrite lookup_insert_eq).
    unfold throw at 1.
    unfold bind at 1, dateNow at 1, gets at 1. unfold bind at 1.
    unfold on at 1, zoom at 1.
    rewrite stopExecution_unfold, get_set. cbn [activeExecutions].
    rewrite lookup_delete_eq.
    unfold bind at 1, on at 1, zoom at 1, mutate at 1, modify at 1.
    unfold bind at 1, gets at 1, ret.
    match goal with
    | |- context [whenTruthy _ _ ?x] =>
        destruct (cleanup_keeps_entries customTimeout
                    (maxExecutionTime (config (getTM s))) x)
          as (s4 & E4 & _ & _)
    end.
    rewrite E4. eexists _, _. split; [reflexivity|].
    cbn [finalMetrics success error default metrics exec_startTime].
    unfold deref. rewrite !get_set. cbn [objects].
    rewrite !list_lookup_alter_eq, Hat. done.
Qed.

End TimeoutOutcome.

Lemma executeWithTimeout_outcome_witness :
  let s := Sample.manager ∅ true in
  let run (execution : Executor MainSecurityManager.t string) :=
    TimeoutManager.executeWithTimeout MainSecurityManager.now
      MainSecurityManager.timeoutManager MainSecurityManager.setTimeoutManager
      "job" execution (Some 1000) s in
  ∃ r s', run (Sample.rejects "boom") = (Normal r, s')
    ∧ TimeoutManager.activeExecutions (MainSecurityManager.timeoutManager s')
        !! "job"%string = None
    ∧ TimeoutManager.result r = None ∧ TimeoutManager.success r = false
    ∧ TimeoutManager.error r = Some "boom"%string.
Proof.
  intros s run.
  apply (executeWithTimeout_outcome MainSecurityManager.now
           MainSecurityManager.timeoutManager
           MainSecurityManager.setTimeoutManager (λ _ _, eq_refl)
           "job" (Sample.rejects "boom") (Some 1000) s).
Defined.

Lemma executeWithTimeout_failure_metrics_witness :
  let s := Sample.manager ∅ true in
  ∃ r s',
    TimeoutManager.executeWithTimeout MainSecurityManager.now
      MainSecurityManager.timeoutManager MainSecurityManager.setTimeoutManager
      "job" (Sample.rejects "boom") (Some 1000) s = (Normal r, s')
    ∧ TimeoutManager.timedOut (TimeoutManager.finalMetrics r)
      = negb (TimeoutManager.success r)
    ∧ TimeoutManager.reason (TimeoutManager.finalMetrics r)
      = TimeoutManager.error r
    ∧ TimeoutManager.endTime (TimeoutManager.finalMetrics r) = Some 0
    ∧ TimeoutManager.executionTime (TimeoutManager.finalMetrics r)
      = 0 - TimeoutManager.startTime (TimeoutManager.finalMetrics r).
Proof.
  intros s.
  apply (executeWithTimeout_failure_metrics MainSecurityManager.now
           MainSecurityManager.timeoutManager
           MainSecurityManager.setTimeoutManager (λ _ _, eq_refl)
           "job" (Sample.rejects "boom") (Some 1000) s).
  reflexivity.
Defined.

(* ===================================================================== *)
(** ** Further properties of the memory monitor                           *)
(* ===================================================================== *)

Section MemorySampling.
Import MemoryMonitor.
Context (rt : Runtime).
Implicit Types (s : MemoryMonitor.t).

(** What one check does to every field but the violation log, however it
    completes. *)
Lemma checkMemoryUsage_state usage now s :
  let s' := (checkMemoryUsage rt usage now s).2 in
  let metrics :=
    {| heapUsed := Process.heapUsed usage;
       heapTotal := Process.heapTotal usage;
       rss := Process.rss usage;
       external := Process.external usage;
       arrayBuffers := Process.arrayBuffers usage;
       peakHeapUsed :=
         Z.max (peakHeapUsed (peakMetrics s)) (Process.heapUsed usage);
       peakRss := Z.max (peakRss (peakMetrics s)) (Process.rss usage);
       timestamp := now |} in
  limits s' = limits s
  ∧ isMonitoring s' = isMonitoring s
  ∧ memoryHistory s'
    = (if (100 <? length (memoryHistory s ++ [metrics]))%nat
       then drop 1 (memoryHistory s ++ [metrics])
       else memoryHistory s ++ [metrics])
  ∧ peakMetrics s'
    = {| heapUsed := heapUsed (peakMetrics s);
         heapTotal := heapTotal (peakMetrics s);
         rss := rss (peakMetrics s);
         external := external (peakMetrics s);
         arrayBuffers := arrayBuffers (peakMetrics s);
         peakHeapUsed := peakHeapUsed metrics;
         peakRss := peakRss metrics;
         timestamp := timestamp (peakMetrics s) |}.
Proof.
  cbv [checkMemoryUsage checkLimits report pushViolation
       handleViolation checkMemoryGrowthAnomalies bind gets modify throw ret].
  cbn [limits memoryHistory violations isMonitoring peakMetrics fst snd
       severity heapUsed rss arrayBuffers].
  assert (Hc : bool_decide (CRITICAL = CRITICAL) = true) by done.
  assert (Hh : bool_decide (HIGH = CRITICAL) = false) by done.
  destruct (maxHeapSize (limits s) <? Process.heapUsed usage);
    cbn [limits memoryHistory violations isMonitoring peakMetrics fst snd
         severity]; [rewrite Hc; done|].
  destruct (maxRssSize (limits s) <? Process.rss usage);
    cbn [limits memoryHistory violations isMonitoring peakMetrics fst snd
         severity]; [rewrite Hc; done|].
  destruct (maxArrayBufferSize (limits s) <? Process.arrayBuffers usage);
    cbn [limits memoryHistory violations isMonitoring peakMetrics fst snd
         severity]; rewrite ?Hh;
    cbn [limits memoryHistory violations isMonitoring peakMetrics fst snd
         severity].
  all: match goal with
       | |- context [(length ?h <? 10)%nat] => destruct (length h <? 10)%nat
       end; [done|].
  all: match goal with
       | |- context [drop ?n ?h] =>
           destruct (drop n h) as [|oldest ?]; [done|]
       end.
  all: match goal with
       | |- context [?a && ?b] => destruct (a && b)
       end;
    cbn [limits memoryHistory violations isMonitoring peakMetrics fst snd
         severity]; rewrite ?Hh; done.
Qed.

Lemma window_step {A} (h : list A) (x : A) (rest : list A) :
  (length h ≤ 100)%nat →
  let h' := if (100 <? length (h ++ [x]))%nat
            then drop 1 (h ++ [x]) else h ++ [x] in
  (length h' ≤ 100)%nat
  ∧ drop (length (h' ++ rest) - 100) (h' ++ rest)
    = drop (length (h ++ x :: rest) - 100) (h ++ x :: rest).
Proof.
  intros Hh. cbv zeta. rewrite (length_app h [x]).
  change (length [x]) with 1%nat.
  destruct (Nat.ltb_spec 100 (length h + 1)) as [Hlt|Hle].
  - assert (length h = 100%nat) as Hl by lia.
    assert (Hd : drop 1 (h ++ [x]) ++ rest = drop 1 (h ++ x :: rest)).
    { destruct h as [|y h]; [simpl in Hl; lia|].
      simpl. rewrite !drop_0. by rewrite <- app_assoc. }
    split.
    + rewrite length_drop, length_app. simpl. lia.
    + rewrite Hd, drop_drop. f_equal.
      rewrite length_drop, length_app. simpl. lia.
  - split; [rewrite length_app; simpl; lia|].
    by rewrite <- app_assoc.
Qed.

Lemma sampleAll_cons usage now samples s :
  sampleAll rt ((usage, now) :: samples) s
  = sampleAll rt samples (checkMemoryUsage rt usage now s).2.
Proof. reflexivity. Qed.

(** The history is a sliding window: after any sequence of checks it
    holds the last hundred samples, oldest first, whatever the checks
    reported or threw. *)
Theorem memoryHistory_window (samples : list (Process.MemoryUsage * Z)) s :
  (length (memoryHistory s) ≤ 100)%nat →
  let reading (m : MemoryMetrics) := (heapUsed m, rss m, timestamp m) in
  let all := (reading <$> memoryHistory s)
             ++ ((λ p, (Process.heapUsed p.1, Process.rss p.1, p.2))
                   <$> samples) in
  reading <$> getMemoryHistory (sampleAll rt samples s)
  = drop (length all - 100) all
  ∧ (length (getMemoryHistory (sampleAll rt samples s)) ≤ 100)%nat.
Proof.
  cbv zeta. unfold getMemoryHistory.
  revert s. induction samples as [|[usage now] samples IH]; intros s Hs.
  - simpl. rewrite app_nil_r, length_fmap.
    replace (length (memoryHistory s) - 100)%nat with 0%nat by lia.
    by rewrite drop_0.
  - rewrite sampleAll_cons.
    destruct (checkMemoryUsage_state usage now s) as (_ & _ & Hh & _).
    set (metrics := {| heapUsed := Process.heapUsed usage |}) in Hh.
    destruct (window_step (memoryHistory s) metrics [] Hs) as [Hlen _].
    cbv zeta in Hlen. rewrite <- Hh in Hlen.
    destruct (IH _ Hlen) as [IH1 IH2]. split; [|done].
    rewrite IH1, Hh. clear IH1 IH2 Hlen Hh IH.
    set (f := λ m : MemoryMetrics, (heapUsed m, rss m, timestamp m)).
    set (g := λ p : Process.MemoryUsage * Z,
                (Process.heapUsed p.1, Process.rss p.1, p.2)).
    assert (Hs' : (length (f <$> memoryHistory s) ≤ 100)%nat)
      by by rewrite length_fmap.
    destruct (window_step (f <$> memoryHistory s) (f metrics)
                (g <$> samples) Hs') as [_ Hw].
    cbv zeta in Hw. cbn [fmap list_fmap]. 
    change (g (usage, now)) with (f metrics).
    rewrite <- Hw. rewrite !length_app, !length_fmap. simpl.
    destruct (100 <? length (memoryHistory s) + 1)%nat.
    + rewrite fmap_drop, fmap_app.
      by rewrite !length_drop, !length_app, !length_fmap.
    + rewrite fmap_app.
      by rewrite !length_app, !length_fmap.
Qed.

(** How one check completes.  Above the heap limit it throws with the
    heap violation as the only new entry of the log, and the RSS and
    ArrayBuffer limits are not looked at; otherwise, above the RSS limit
    it throws likewise; otherwise it returns, and whatever it logged is
    of severity HIGH. *)
Theorem checkMemoryUsage_completion usage now s :
  let r := checkMemoryUsage rt usage now s in
  if maxHeapSize (limits s) <? Process.heapUsed usage then
    ∃ v, r.1 = Throw (ErrorObj ("Memory limit exceeded: " +:+ description v))
         ∧ violations r.2 = violations s ++ [v]
         ∧ type v = HEAP_LIMIT_EXCEEDED ∧ severity v = CRITICAL
         ∧ limit v = maxHeapSize (limits s)
         ∧ actual v = Process.heapUsed usage
  else if maxRssSize (limits s) <? Process.rss usage then
    ∃ v, r.1 = Throw (ErrorObj ("Memory limit exceeded: " +:+ description v))
         ∧ violations r.2 = violations s ++ [v]
         ∧ type v = RSS_LIMIT_EXCEEDED ∧ severity v = CRITICAL
         ∧ limit v = maxRssSize (limits s)
         ∧ actual v = Process.rss usage
  else
    r.1 = Normal tt
    ∧ ∃ logged, violations r.2 = violations s ++ logged
                ∧ Forall (λ v, severity v = HIGH) logged
                ∧ (length logged ≤ 2)%nat
                ∧ ((maxArrayBufferSize (limits s)
                      <? Process.arrayBuffers usage) = true
                   → ∃ v, v ∈ logged ∧ type v = ARRAY_BUFFER_LIMIT_EXCEEDED).
Proof.
  cbv [checkMemoryUsage checkLimits report pushViolation
       handleViolation checkMemoryGrowthAnomalies bind gets modify throw ret].
  cbn [limits memoryHistory violations isMonitoring peakMetrics fst snd
       severity heapUsed rss arrayBuffers].
  assert (Hc : bool_decide (CRITICAL = CRITICAL) = true) by done.
  assert (Hh : bool_decide (HIGH = CRITICAL) = false) by done.
  destruct (maxHeapSize (limits s) <? Process.heapUsed usage);
    cbn [limits memoryHistory violations isMonitoring peakMetrics fst snd
         severity].
  { rewrite Hc. cbn [fst snd violations]. eexists. split; [reflexivity|].
    split; [reflexivity|]. done. }
  destruct (maxRssSize (limits s) <? Process.rss usage);
    cbn [limits memoryHistory violations isMonitoring peakMetrics fst snd
         severity].
  { rewrite Hc. cbn [fst snd violations]. eexists. split; [reflexivity|].
    split; [reflexivity|]. done. }
  destruct (maxArrayBufferSize (limits s) <? Process.arrayBuffers usage);
    cbn [limits memoryHistory violations isMonitoring peakMetrics fst snd
         severity]; rewrite ?Hh;
    cbn [limits memoryHistory violations isMonitoring peakMetrics fst snd
         severity].
  all: match goal with
       | |- context [(length ?h <? 10)%nat] => destruct (length h <? 10)%nat
       end.
  all: try match goal with
       | |- context [drop ?n ?h] => destruct (drop n h) as [|oldest ?]
       end.
  all: try match goal with
       | |- context [?a && ?b] => destruct (a && b)
       end.
  all: cbn [limits memoryHistory violations isMonitoring peakMetrics fst snd
            severity]; rewrite ?Hh; cbn [fst snd violations].
  all: split; [reflexivity|].
  all: try (eexists [_; _]; split; [by rewrite <- app_assoc|];
            split; [by repeat constructor|]; split; [simpl; lia|];
            intros _; eexists; split; [by left|done]).
  all: try (eexists [_]; split; [reflexivity|];
            split; [by repeat constructor|]; split; [simpl; lia|];
            first [ intros _; eexists; split; [by left|done]
                  | intros; discriminate ]).
  all: exists []; split; [by rewrite app_nil_r|];
       split; [constructor|]; split; [simpl; lia|]; intros; discriminate.
Qed.

Lemma sampleAll_peaks (samples : list (Process.MemoryUsage * Z)) s :
  let s' := sampleAll rt samples s in
  limits s' = limits s
  ∧ isMonitoring s' = isMonitoring s
  ∧ peakHeapUsed (peakMetrics s')
    = foldl Z.max (peakHeapUsed (peakMetrics s))
        (Process.heapUsed <$> samples.*1)
  ∧ peakRss (peakMetrics s')
    = foldl Z.max (peakRss (peakMetrics s)) (Process.rss <$> samples.*1)
  ∧ heapUsed (peakMetrics s') = heapUsed (peakMetrics s)
  ∧ rss (peakMetrics s') = rss (peakMetrics s)
  ∧ timestamp (peakMetrics s') = timestamp (peakMetrics s).
Proof.
  cbv zeta. revert s.
  induction samples as [|[usage now] samples IH]; intros s; [done|].
  rewrite sampleAll_cons.
  destruct (checkMemoryUsage_state usage now s) as (Hl & Hm & _ & Hp).
  destruct (IH (checkMemoryUsage rt usage now s).2)
    as (H1 & H2 & H3 & H4 & H5 & H6 & H7).
  rewrite H1, H2, H3, H4, H5, H6, H7, Hl, Hm, Hp. done.
Qed.

Lemma startMonitoring_idle usage now s :
  isMonitoring s = false →
  startMonitoring rt usage now s
  = checkMemoryUsage rt usage now
      {| limits := limits s; memoryHistory := []; violations := [];
         isMonitoring := true; peakMetrics := createEmptyMetrics now;
         monitoringInterval := Some (checkInterval (limits s)) |}.
Proof.
  intros H. unfold startMonitoring, bind at 1, gets at 1. by rewrite H.
Qed.

(** A monitoring session: [startMonitoring] from idle, any number of
    checks, [stopMonitoring].  The metrics returned carry the largest
    heap and RSS readings of the session as their peaks; their fields
    for the current usage are those of the empty metrics made at the
    start.  A second [stopMonitoring] returns empty metrics. *)
Theorem monitoring_session usage0 t0
    (samples : list (Process.MemoryUsage * Z)) t1 t2 s :
  isMonitoring s = false →
  let s1 := (startMonitoring rt usage0 t0 s).2 in
  let s2 := sampleAll rt samples s1 in
  ∃ m s3,
    stopMonitoring t1 s2 = (Normal m, s3)
    ∧ peakHeapUsed m
      = foldl Z.max 0 (Process.heapUsed <$> usage0 :: samples.*1)
    ∧ peakRss m = foldl Z.max 0 (Process.rss <$> usage0 :: samples.*1)
    ∧ heapUsed m = 0 ∧ rss m = 0 ∧ timestamp m = t0
    ∧ getPeakMemoryUsage s3 = m
    ∧ stopMonitoring t2 s3 = (Normal (createEmptyMetrics t2), s3).
Proof.
  intros Hidle s1 s2.
  assert (H1 : isMonitoring s1 = true
               ∧ peakHeapUsed (peakMetrics s1) = Z.max 0 (Process.heapUsed usage0)
               ∧ peakRss (peakMetrics s1) = Z.max 0 (Process.rss usage0)
               ∧ heapUsed (peakMetrics s1) = 0
               ∧ rss (peakMetrics s1) = 0
               ∧ timestamp (peakMetrics s1) = t0).
  { subst s1. rewrite (startMonitoring_idle _ _ _ Hidle).
    match goal with
    | |- context [checkMemoryUsage rt usage0 t0 ?x] =>
        destruct (checkMemoryUsage_state usage0 t0 x) as (_ & Hm & _ & Hp)
    end.
    rewrite Hm, Hp. done. }
  destruct H1 as (Hon & Hph & Hpr & Hh & Hr & Ht).
  destruct (sampleAll_peaks samples s1) as (_ & Hm2 & Hph2 & Hpr2 & Hh2 & Hr2 & Ht2).
  fold s2 in Hm2, Hph2, Hpr2, Hh2, Hr2, Ht2.
  unfold stopMonitoring at 1, bind at 1, gets at 1. rewrite Hm2, Hon.
  eexists _, _. split; [reflexivity|].
  cbn [peakMetrics]. rewrite Hph2, Hpr2, Hh2, Hr2, Ht2, Hph, Hpr.
  split_and!; done.
Qed.

Lemma checkMemoryUsage_throws usage now s :
  maxHeapSize (limits s) < Process.heapUsed usage
  ∨ maxRssSize (limits s) < Process.rss usage →
  ∃ v, (checkMemoryUsage rt usage now s).1
       = Throw (ErrorObj ("Memory limit exceeded: " +:+ description v))
       ∧ violations (checkMemoryUsage rt usage now s).2 = violations s ++ [v].
Proof.
  intros Hover.
  cbv [checkMemoryUsage checkLimits report pushViolation
       handleViolation checkMemoryGrowthAnomalies bind gets modify throw ret].
  cbn [limits memoryHistory violations isMonitoring peakMetrics fst snd
       severity heapUsed rss arrayBuffers].
  assert (Hc : bool_decide (CRITICAL = CRITICAL) = true) by done.
  destruct (Z.ltb_spec (maxHeapSize (limits s)) (Process.heapUsed usage));
    cbn [limits memoryHistory violations isMonitoring peakMetrics fst snd
         severity].
  { rewrite Hc. cbn [fst snd violations]. by eexists. }
  destruct (Z.ltb_spec (maxRssSize (limits s)) (Process.rss usage));
    cbn [limits memoryHistory violations isMonitoring peakMetrics fst snd
         severity]; [|lia].
  rewrite Hc. cbn [fst snd violations]. by eexists.
Qed.

(** When the first check of [startMonitoring] is above the heap or the
    RSS limit, the call throws and leaves the monitor switched on with
    that one violation logged; every later [startMonitoring] then
    returns at once and resets nothing. *)
Theorem startMonitoring_latches usage now s :
  isMonitoring s = false →
  maxHeapSize (limits s) < Process.heapUsed usage
  ∨ maxRssSize (limits s) < Process.rss usage →
  ∃ e s',
    startMonitoring rt usage now s = (Throw e, s')
    ∧ isMonitoring s' = true
    ∧ length (getViolations s') = 1%nat
    ∧ ∀ usage' now', startMonitoring rt usage' now' s' = (Normal tt, s').
Proof.
  intros Hidle Hover.
  rewrite (startMonitoring_idle _ _ _ Hidle).
  match goal with
  | |- context [checkMemoryUsage rt usage now ?x] =>
      destruct (checkMemoryUsage_state usage now x) as (_ & Hm & _ & _);
      destruct (checkMemoryUsage_throws usage now x Hover) as (v & Hr & Hv);
      destruct (checkMemoryUsage rt usage now x) as [r s'] eqn:E
  end.
  cbn [fst snd isMonitoring violations] in *. subst r.
  eexists _, s'. split; [reflexivity|]. split; [done|].
  split; [unfold getViolations; by rewrite Hv|].
  intros usage' now'. unfold startMonitoring, bind, gets.
  by rewrite Hm.
Qed.

(** [isMemoryUsageSafe] answers true exactly when [checkLimits], run on
    the same reading, logs nothing and returns. *)
Theorem isMemoryUsageSafe_iff_checkLimits_silent usage now s :
  isMemoryUsageSafe usage now s = true
  ↔ checkLimits rt (getCurrentMemoryUsage usage now s) s = (Normal tt, s).
Proof.
  unfold isMemoryUsageSafe.
  cbv [checkLimits report pushViolation handleViolation bind gets modify
       throw ret getCurrentMemoryUsage].
  cbn [heapUsed rss arrayBuffers severity].
  assert (Hc : bool_decide (CRITICAL = CRITICAL) = true) by done.
  assert (Hh : bool_decide (HIGH = CRITICAL) = false) by done.
  rewrite !andb_true_iff, !Z.leb_le.
  destruct (Z.ltb_spec (maxHeapSize (limits s)) (Process.heapUsed usage));
    cbn [fst snd limits]; rewrite ?Hc.
  { split; [lia|discriminate]. }
  destruct (Z.ltb_spec (maxRssSize (limits s)) (Process.rss usage));
    cbn [fst snd limits]; rewrite ?Hc.
  { split; [lia|discriminate]. }
  destruct (Z.ltb_spec (maxArrayBufferSize (limits s))
              (Process.arrayBuffers usage));
    cbn [fst snd limits]; rewrite ?Hh.
  - split; [lia|]. intros [= Hs].
    apply (f_equal violations) in Hs. simpl in Hs.
    apply (f_equal length) in Hs. rewrite length_app in Hs. simpl in Hs. lia.
  - split; [|lia]. intros _. by destruct s.
Qed.

End MemorySampling.

Lemma memoryHistory_window_witness :
  let s := MemoryMonitor.new 0 MemoryMonitor.DEFAULT_LIMITS in
  let usage h := {| Process.heapUsed := h; Process.heapTotal := 0;
                    Process.rss := 1; Process.external := 0;
                    Process.arrayBuffers := 0 |} in
  let samples := [(usage 5, 10); (usage 7, 20)] in
  (λ m, (MemoryMonitor.heapUsed m, MemoryMonitor.rss m,
         MemoryMonitor.timestamp m))
    <$> MemoryMonitor.getMemoryHistory
          (MemoryMonitor.sampleAll Sample.runtime samples s)
  = [(5, 1, 10); (7, 1, 20)]
  ∧ (length (MemoryMonitor.getMemoryHistory
               (MemoryMonitor.sampleAll Sample.runtime samples s))
     ≤ 100)%nat.
Proof.
  intros s usage samples.
  apply (memoryHistory_window Sample.runtime samples s). simpl. lia.
Defined.

Lemma monitoring_session_witness :
  let usage h := {| Process.heapUsed := h; Process.heapTotal := 0;
                    Process.rss := 1; Process.external := 0;
                    Process.arrayBuffers := 0 |} in
  let s := MemoryMonitor.new 0 MemoryMonitor.DEFAULT_LIMITS in
  let s2 :=
    MemoryMonitor.sampleAll Sample.runtime [(usage 9, 20); (usage 4, 30)]
      (MemoryMonitor.startMonitoring Sample.runtime (usage 5) 10 s).2 in
  ∃ m s3,
    MemoryMonitor.stopMonitoring 40 s2 = (Normal m, s3)
    ∧ MemoryMonitor.peakHeapUsed m = 9 ∧ MemoryMonitor.peakRss m = 1
    ∧ MemoryMonitor.heapUsed m = 0 ∧ MemoryMonitor.rss m = 0
    ∧ MemoryMonitor.timestamp m = 10
    ∧ MemoryMonitor.getPeakMemoryUsage s3 = m
    ∧ MemoryMonitor.stopMonitoring 50 s3
      = (Normal (MemoryMonitor.createEmptyMetrics 50), s3).
Proof.
  intros usage s s2.
  apply (monitoring_session Sample.runtime (usage 5) 10
           [(usage 9, 20); (usage 4, 30)] 40 50 s).
  reflexivity.
Defined.

Lemma startMonitoring_latches_witness :
  let usage := {| Process.heapUsed := 200 * 1024 * 1024;
                  Process.heapTotal := 0; Process.rss := 1;
                  Process.external := 0; Process.arrayBuffers := 0 |} in
  ∃ e s',
    MemoryMonitor.startMonitoring Sample.runtime usage 10
      (MemoryMonitor.new 0 MemoryMonitor.DEFAULT_LIMITS) = (Throw e, s')
    ∧ MemoryMonitor.isMonitoring s' = true
    ∧ length (MemoryMonitor.getViolations s') = 1%nat
    ∧ ∀ usage' now',
        MemoryMonitor.startMonitoring Sample.runtime usage' now' s'
        = (Normal tt, s').
Proof.
  intros usage.
  apply (startMonitoring_latches Sample.runtime usage 10
           (MemoryMonitor.new 0 MemoryMonitor.DEFAULT_LIMITS)).
  - reflexivity.
  - left. simpl. lia.
Defined.

(* ===================================================================== *)
(** ** Further properties of the module blocker                           *)
(* ===================================================================== *)

Section AnalyzerScans.
Import ModuleSecurityManager.
Context (rt : Runtime).
Implicit Types (ps : list RegExp) (code : jsstring)
               (s : ModuleSecurityManager.t).

Lemma test_miss_resets (p : RegExp) code :
  (test p code).1 = false → test p code = (false, mkRegExp (source p) 0).
Proof.
  unfold test. destruct (length code <? lastIndex p)%nat; [done|].
  by destruct (search (source p) (drop (lastIndex p) code)).
Qed.

(** A scan without findings leaves every cursor at the start. *)
Lemma scanPatterns_miss_resets now hash code ps :
  (scanPatterns now hash code ps).1 = [] →
  (scanPatterns now hash code ps).2 = map (λ p, mkRegExp (source p) 0) ps.
Proof.
  induction ps as [|p ps IH]; simpl; [done|].
  pose proof (test_miss_resets p code) as Hp.
  destruct (test p code) as [hit p'].
  destruct (scanPatterns now hash code ps) as [vs ps'']. simpl in *.
  destruct hit; [done|]. intros Hvs. simpl in Hvs.
  specialize (Hp eq_refl). injection Hp as ->. by rewrite (IH Hvs).
Qed.

(** The findings of a scan by patterns whose cursors are at the start:
    one for each pattern that occurs in the code, in the order of the
    patterns. *)
Lemma scanPatterns_from_start now hash code ps v :
  Forall (λ p, lastIndex p = 0%nat) ps →
  v ∈ (scanPatterns now hash code ps).1
  ↔ ∃ p, p ∈ ps ∧ occurs (source p) code ∧ v = patternViolation now hash p.
Proof.
  induction 1 as [|p ps H0 Hps IH]; simpl.
  - split; [by intros ?%elem_of_nil|]. by intros (p & ?%elem_of_nil & _).
  - pose proof (test_from_start p code H0) as Hp.
    destruct (test p code) as [hit p'].
    destruct (scanPatterns now hash code ps) as [vs ps'']. simpl in *.
    rewrite elem_of_app, IH. split.
    + intros [Hv|(q & Hq & Ho & ->)].
      * destruct hit; [|by apply elem_of_nil in Hv].
        apply list_elem_of_singleton in Hv as ->.
        exists p. split; [by left|]. split; [by apply Hp|done].
      * exists q. split; [by right|done].
    + intros (q & [->|Hq]%elem_of_cons & Ho & ->).
      * left. rewrite (proj2 Hp Ho). by apply list_elem_of_singleton.
      * right. by exists q.
Qed.

(** An analyzer whose cursors are all at the start, as a new one, judges
    the code by its content: it answers safe exactly when none of its
    patterns occurs in the code, and its findings are the size finding
    and one finding for each pattern that occurs. *)
Theorem analyzeCode_from_start now code s :
  Forall (λ p, lastIndex p = 0%nat) (DANGEROUS_PATTERNS s) →
  ∃ r s',
    analyzeCode rt now code s = (Normal r, s')
    ∧ (safe r = true
       ↔ ∀ p, p ∈ DANGEROUS_PATTERNS s → ¬ occurs (source p) code)
    ∧ ∀ v, v ∈ found r
           ↔ (∃ p, p ∈ DANGEROUS_PATTERNS s ∧ occurs (source p) code
                   ∧ v = patternViolation now (sha256_hex rt code) p)
             ∨ (50000 < Z.of_nat (length code)
                ∧ v = sizeViolation now (sha256_hex rt code)).
Proof.
  intros H0. pose proof (analyzeCode_unfold rt now code s) as E.
  cbv zeta in E. eexists _, _. split; [exact E|]. cbn [safe found].
  pose proof (scanPatterns_from_start now (sha256_hex rt code) code
                (DANGEROUS_PATTERNS s)) as Hhits.
  split.
  - rewrite bool_decide_eq_true. split.
    + intros He p Hp Ho.
      assert (patternViolation now (sha256_hex rt code) p
              ∈ (scanPatterns now (sha256_hex rt code) code
                   (DANGEROUS_PATTERNS s)).1) as Hin.
      { apply Hhits; [done|]. by exists p. }
      rewrite He in Hin. by apply elem_of_nil in Hin.
    + intros Hno.
      destruct (scanPatterns now (sha256_hex rt code) code
                  (DANGEROUS_PATTERNS s)).1 as [|v vs] eqn:Ev; [done|].
      exfalso. destruct (proj1 (Hhits v H0)) as (p & Hp & Ho & _).
      * by left.
      * by apply (Hno p).
  - intros v. rewrite elem_of_app, (Hhits v H0).
    destruct (Z.ltb_spec 50000 (Z.of_nat (length code))).
    + rewrite list_elem_of_singleton. split.
      * intros [Hv| ->]; [by left|by right].
      * intros [Hv|[_ ->]]; [by left|by right].
    + rewrite elem_of_nil. split.
      * intros [Hv|[]]. by left.
      * intros [Hv|[? _]]; [by left|lia].
Qed.

(** A scan that misses is followed by one that does not: when a pattern
    of the analyzer occurs in the code and a call of [analyzeCode]
    answers safe all the same, the next call on the same code answers
    unsafe and reports that pattern. *)
Theorem analyzeCode_miss_then_hit now1 now2 code s p r1 s1 :
  p ∈ DANGEROUS_PATTERNS s → occurs (source p) code →
  analyzeCode rt now1 code s = (Normal r1, s1) →
  safe r1 = true →
  ∃ r2 s2,
    analyzeCode rt now2 code s1 = (Normal r2, s2)
    ∧ safe r2 = false
    ∧ patternViolation now2 (sha256_hex rt code)
        (mkRegExp (source p) 0) ∈ found r2.
Proof.
  intros Hp Ho Hcall Hsafe.
  pose proof (analyzeCode_unfold rt now1 code s) as E1. cbv zeta in E1.
  rewrite Hcall in E1. injection E1 as -> ->.
  pose proof (analyzeCode_unfold rt now2 code
                (analyzeCode rt now1 code s).2) as E2. cbv zeta in E2.
  pose proof (analyzeCode_unfold rt now1 code s) as E1. cbv zeta in E1.
  rewrite E1 in E2 at 1. cbn [snd] in E2.
  eexists _, _. split; [exact E2|].
  cbn [safe found] in Hsafe |- *. apply bool_decide_eq_true in Hsafe.
  rewrite E1. cbn [snd DANGEROUS_PATTERNS].
  rewrite (scanPatterns_miss_resets _ _ _ _ Hsafe).
  assert (Hin : patternViolation now2 (sha256_hex rt code)
                  (mkRegExp (source p) 0)
                ∈ (scanPatterns now2 (sha256_hex rt code) code
                     (map (λ p, mkRegExp (source p) 0)
                        (DANGEROUS_PATTERNS s))).1).
  { apply scanPatterns_hit; [|done|done].
    apply (list_elem_of_fmap_2 (λ p, mkRegExp (source p) 0) _ _ Hp). }
  split.
  - apply bool_decide_eq_false. intros He. rewrite He in Hin.
    by apply elem_of_nil in Hin.
  - apply elem_of_app. by left.
Qed.

Lemma countOf_app sev (l1 l2 : list SecurityViolation) :
  countOf sev (l1 ++ l2) = (countOf sev l1 + countOf sev l2)%nat.
Proof. unfold countOf. by rewrite List.filter_app, length_app. Qed.

Lemma countOf_zero sev (l : list SecurityViolation) :
  countOf sev l = 0%nat ↔ ∀ v, v ∈ l → severity v ≠ sev.
Proof.
  unfold countOf. induction l as [|v l IH]; simpl.
  - split; [|done]. by intros _ v ?%elem_of_nil.
  - destruct (decide (severity v = sev)) as [He|Hne].
    + rewrite bool_decide_eq_true_2 by done. simpl. split; [done|].
      intros H. exfalso. apply (H v); [by left|done].
    + rewrite bool_decide_eq_false_2 by done. rewrite IH. split.
      * intros H w [->|Hw]%elem_of_cons; [done|by apply H].
      * intros H w Hw. apply H. by right.
Qed.

(** The counts of [getSecurityReport] partition the log by severity,
    and [isSecure] says that nothing of severity CRITICAL or HIGH is
    logged. *)
Theorem getSecurityReport_counts s :
  let r := getSecurityReport s in
  totalViolations r
  = (criticalCount r + highCount r + mediumCount r + lowCount r)%nat
  ∧ (isSecure r = true
     ↔ ∀ v, v ∈ getViolations s → severity v = MEDIUM ∨ severity v = LOW).
Proof.
  cbv zeta. unfold getSecurityReport, getViolations.
  cbn [totalViolations criticalCount highCount mediumCount lowCount isSecure].
  split.
  - unfold countOf. induction (violations s) as [|v l IH]; simpl; [done|].
    rewrite IH. destruct (severity v); simpl; lia.
  - rewrite andb_true_iff, !Nat.eqb_eq, !countOf_zero. split.
    + intros [Hc Hh] v Hv. specialize (Hc v Hv). specialize (Hh v Hv).
      destruct (severity v); auto; done.
    + intros H. split; intros v Hv; destruct (H v Hv) as [-> | ->]; done.
Qed.

(** How the verdict [isSecure] moves: after [analyzeCode] it is the
    verdict before, and the code was answered safe; after
    [secureRequire] it is the verdict before, and the name was on the
    allow list, for which the call logs nothing.  So it never comes back
    to true, except by [clearViolations]. *)
Theorem isSecure_after now code id s :
  isSecure (getSecurityReport (analyzeCode rt now code s).2)
  = isSecure (getSecurityReport s)
    && match (analyzeCode rt now code s).1 with
       | Normal r => safe r
       | _ => false
       end
  ∧ isSecure (getSecurityReport (secureRequire rt now id s).2)
    = isSecure (getSecurityReport s) && bool_decide (id ∈ ALLOWED_MODULES)
  ∧ isSecure (getSecurityReport (clearViolations s).2) = true.
Proof.
  split_and!; [| |done].
  - pose proof (analyzeCode_unfold rt now code s) as E. cbv zeta in E.
    rewrite E. cbn [fst snd safe].
    unfold getSecurityReport. cbn [isSecure violations].
    rewrite !countOf_app.
    pose proof (scanPatterns_findings now (sha256_hex rt code) code
                  (DANGEROUS_PATTERNS s)) as Hf.
    destruct ((scanPatterns now (sha256_hex rt code) code
                 (DANGEROUS_PATTERNS s)).1) as [|v vs]; simpl.
    + destruct (50000 <? Z.of_nat (length code)); simpl;
        rewrite !Nat.add_0_r; by rewrite andb_true_r.
    + rewrite andb_false_r.
      destruct (Hf v) as [_ Hs]; [by left|].
      assert (countOf HIGH (v :: vs) = S (countOf HIGH vs)) as ->.
      { unfold countOf. simpl. by rewrite Hs. }
      apply andb_false_iff. right. apply Nat.eqb_neq. lia.
  - destruct (decide (id ∈ ALLOWED_MODULES)) as [Ha|Ha].
    + unfold secureRequire.
      rewrite (secureRequireWithin_allowed rt _ now id s Ha).
      rewrite (bool_decide_eq_true_2 _ Ha). by rewrite andb_true_r.
    + rewrite (bool_decide_eq_false_2 _ Ha), andb_false_r.
      unfold secureRequire.
      destruct (stackRoom rt); simpl;
        rewrite (bool_decide_eq_false_2 _ Ha);
        destruct (bool_decide (id ∈ BLOCKED_MODULES)); simpl;
        unfold getSecurityReport; cbn [isSecure violations];
        rewrite !countOf_app.
      1,3: apply andb_false_iff; left; apply Nat.eqb_neq;
           unfold countOf at 2; simpl; lia.
      all: apply andb_false_iff; right; apply Nat.eqb_neq;
           unfold countOf at 2; simpl; lia.
Qed.

End AnalyzerScans.

Lemma analyzeCode_from_start_witness :
  let code := units "require('fs')" in
  let hash := sha256_hex Sample.runtime code in
  let patterns :=
    ModuleSecurityManager.DANGEROUS_PATTERNS ModuleSecurityManager.new in
  ∃ r s',
    ModuleSecurityManager.analyzeCode Sample.runtime 0 code
      ModuleSecurityManager.new = (Normal r, s')
    ∧ (ModuleSecurityManager.safe r = true
       ↔ ∀ p, p ∈ patterns → ¬ occurs (source p) code)
    ∧ ∀ v, v ∈ ModuleSecurityManager.found r
           ↔ (∃ p, p ∈ patterns ∧ occurs (source p) code
                   ∧ v = ModuleSecurityManager.patternViolation 0 hash p)
             ∨ (50000 < Z.of_nat (length code)
                ∧ v = ModuleSecurityManager.sizeViolation 0 hash).
Proof.
  intros code hash patterns.
  apply (analyzeCode_from_start Sample.runtime 0 code
           ModuleSecurityManager.new).
  apply (bool_decide_unpack _). vm_compute. exact I.
Defined.


Lemma analyzeCode_miss_then_hit_witness :
  let code := units "eval(1)" in
  let s := (ModuleSecurityManager.analyzeCode Sample.runtime 0 code
              ModuleSecurityManager.new).2 in
  let p := mkRegExp (Seq (lit "eval") (Seq ws (lit "("))) 5 in
  ∃ r1 s1,
    ModuleSecurityManager.analyzeCode Sample.runtime 1 code s
    = (Normal r1, s1)
    ∧ ModuleSecurityManager.safe r1 = true
    ∧ ∃ r2 s2,
        ModuleSecurityManager.analyzeCode Sample.runtime 2 code s1
        = (Normal r2, s2)
        ∧ ModuleSecurityManager.safe r2 = false
        ∧ ModuleSecurityManager.patternViolation 2
            (sha256_hex Sample.runtime code) (mkRegExp (source p) 0)
          ∈ ModuleSecurityManager.found r2.
Proof.
  intros code s p.
  eexists _, _. split; [reflexivity|]. split; [reflexivity|].
  eapply (analyzeCode_miss_then_hit Sample.runtime 1 2 code s p).
  - apply list_elem_of_lookup. exists 6%nat. reflexivity.
  - eapply occurs_by_search. vm_compute. reflexivity.
  - reflexivity.
  - reflexivity.
Defined.

(* ===================================================================== *)
(** ** Further properties of the environment blocker                      *)
(* ===================================================================== *)

Section EnvironmentViews.
Import EnvironmentBlocker.
Context (rt : Runtime).
Implicit Types (s : EnvironmentBlocker.t) (prop : PropertyKey).

(** The three read-only views of the proxy agree: a key is reported by
    [has] exactly when it has a property descriptor; the descriptor is
    enumerable, and its value is what a read of the key returns, without
    a violation being logged. *)
Theorem env_views_agree now prop s :
  (has rt prop = true ↔ is_Some (getOwnPropertyDescriptor rt prop s))
  ∧ ∀ d, getOwnPropertyDescriptor rt prop s = Some d →
         enumerable d = true
         ∧ get rt now prop s = (Normal (value d), s).
Proof.
  destruct prop as [name|text]; simpl.
  - destruct (decide (toUpperCase rt name ∈ ALLOWED_VARS)) as [Ha|Ha].
    + rewrite (bool_decide_eq_true_2 _ Ha).
      rewrite (bool_decide_eq_false_2 _ (allowed_not_sensitive _ Ha)).
      split; [by split; eauto|]. by intros d [= <-].
    + rewrite (bool_decide_eq_false_2 _ Ha).
      split; [|done]. split; [done|]. by intros [??].
  - split; [|done]. split; [done|]. by intros [??].
Qed.

Lemma filter_true {A} (f : A → bool) (l : list A) :
  Forall (λ x, f x = true) l → List.filter f l = l.
Proof.
  induction 1 as [|x l Hx _ IH]; simpl; [done|]. by rewrite Hx, IH.
Qed.

Lemma objectKeys_unfold now s :
  (∀ k, k ∈ ALLOWED_VARS → toUpperCase rt k = k) →
  objectKeys rt now s
  = (Normal ALLOWED_VARS,
     push {| type := ENV_ENUMERATION; severity := HIGH; variable := None;
             description := "Attempt to enumerate environment variables";
             timestamp := now |} s).
Proof.
  intros Hup. unfold objectKeys, ownKeys, bind, modify, gets, ret.
  cbn beta iota. f_equal. f_equal.
  apply filter_true, Forall_forall. intros k Hk.
  unfold getOwnPropertyDescriptor. rewrite (Hup k Hk).
  by rewrite (bool_decide_eq_true_2 _ Hk).
Qed.

(** [Object.keys] on the proxy lists all five allow-listed names, also
    those that the environment does not define and that a read answers
    with [undefined], and logs the enumeration. *)
Theorem objectKeys_lists_allowed now s :
  (∀ k, k ∈ ALLOWED_VARS → toUpperCase rt k = k) →
  ∃ v s',
    objectKeys rt now s = (Normal ALLOWED_VARS, s')
    ∧ getViolations s' = getViolations s ++ [v]
    ∧ type v = ENV_ENUMERATION ∧ severity v = HIGH
    ∧ ∀ k, k ∈ ALLOWED_VARS →
           get rt now (StringKey k) s' = (Normal (originalProcessEnv s !! k), s').
Proof.
  intros Hup. rewrite (objectKeys_unfold now s Hup).
  eexists _, _. split; [reflexivity|]. split; [reflexivity|].
  split; [done|]. split; [done|]. intros k Hk. simpl.
  rewrite (Hup k Hk), (bool_decide_eq_true_2 _ Hk).
  by rewrite (bool_decide_eq_false_2 _ (allowed_not_sensitive _ Hk)).
Qed.

Lemma existsb_false {A} (f : A → bool) (l : list A) :
  Forall (λ x, f x = false) l → existsb f l = false.
Proof.
  induction 1 as [|x l Hx _ IH]; simpl; [done|]. by rewrite Hx, IH.
Qed.

(** The self-test of the blocker passes all four of its tests, and in
    doing so logs three violations of its own, one of them CRITICAL: a
    blocker that has tested itself reports that it is not secure. *)
Theorem testBlocking_passes now s :
  (∀ k, k ∈ "API_KEY"%string :: ALLOWED_VARS → toUpperCase rt k = k) →
  ∃ results s' v1 v2 v3,
    testBlocking rt now s = (Normal (true, results), s')
    ∧ length results = 4%nat
    ∧ Forall (λ r, passed r = true ∧ error r = None) results
    ∧ getViolations s' = getViolations s ++ [v1; v2; v3]
    ∧ (type v1, severity v1, variable v1)
      = (SENSITIVE_VAR_ACCESS, CRITICAL, Some "API_KEY"%string)
    ∧ (type v2, severity v2, variable v2)
      = (ENV_ACCESS_BLOCKED, HIGH, Some "TEST_VAR"%string)
    ∧ (type v3, severity v3, variable v3) = (ENV_ENUMERATION, HIGH, None)
    ∧ originalProcessEnv s' = originalProcessEnv s
    ∧ isSecure (getSecurityReport s') = false.
Proof.
  intros Hup.
  assert (Hall : ∀ k, k ∈ ALLOWED_VARS → toUpperCase rt k = k).
  { intros k Hk. apply Hup. by right. }
  assert (Hapi : toUpperCase rt "API_KEY" ∈ SENSITIVE_VARS).
  { rewrite Hup by by left.
    apply (bool_decide_unpack _). vm_compute. exact I. }
  assert (Hnode : "NODE_ENV"%string ∈ ALLOWED_VARS) by by left.
  unfold testBlocking.
  unfold bind at 1, tryCatch at 1, bind at 1, get at 1.
  rewrite (bool_decide_eq_true_2 _ Hapi).
  unfold bind at 1, modify at 1, throw at 1, ret at 1. cbn beta iota.
  unfold bind at 1, tryCatch at 1, bind at 1, get at 1.
  rewrite (Hall _ Hnode), (bool_decide_eq_true_2 _ Hnode).
  rewrite (bool_decide_eq_false_2 _ (allowed_not_sensitive _ Hnode)).
  unfold gets at 1, ret at 1. cbn beta iota.
  unfold bind at 1, tryCatch at 1, bind at 1, set at 1.
  unfold bind at 1, modify at 1, throw at 1, ret at 1. cbn beta iota.
  unfold bind at 1, tryCatch at 1, bind at 1.
  rewrite (objectKeys_unfold now _ Hall). cbn beta iota.
  rewrite existsb_false.
  2:{ apply Forall_forall. intros k Hk. rewrite (Hall k Hk).
      rewrite (bool_decide_eq_true_2 _ Hk).
      by rewrite (bool_decide_eq_false_2 _ (allowed_not_sensitive _ Hk)). }
  unfold ret. cbn [negb forallb passed andb].
  eexists _, _, _, _, _. split; [reflexivity|].
  split; [done|]. split; [by repeat constructor|].
  split; [unfold getViolations, push; simpl; by rewrite <- !app_assoc|].
  split_and!; try done.
  unfold getSecurityReport, push. cbn [isSecure violations].
  apply Nat.eqb_neq. rewrite !List.filter_app, !length_app. simpl. lia.
Qed.

Lemma countType_app ty (l1 l2 : list EnvironmentViolation) :
  countType ty (l1 ++ l2) = (countType ty l1 + countType ty l2)%nat.
Proof. unfold countType. by rewrite List.filter_app, length_app. Qed.

(** The log of a blocker is written by the traps alone; then the three
    counts of [getSecurityReport] add up to the total, and [isSecure]
    says that no sensitive variable was asked for.  Every trap keeps the
    log so, and leaves [originalProcessEnv] alone. *)
Theorem env_report_consistent now prop text s :
  Forall trapWritten (getViolations s) →
  let r := getSecurityReport s in
  totalViolations r
  = (sensitiveAccessAttempts r + blockedAccessAttempts r
     + enumerationAttempts r)%nat
  ∧ (isSecure r = true ↔ sensitiveAccessAttempts r = 0%nat)
  ∧ Forall (λ s', Forall trapWritten (getViolations s')
                  ∧ originalProcessEnv s' = originalProcessEnv s)
      [ (get rt now prop s).2; (set now prop text s).2;
        (ownKeys now s).2; (objectKeys rt now s).2 ].
Proof.
  unfold getViolations. intros Hlog. cbv zeta.
  unfold getSecurityReport.
  cbn [totalViolations sensitiveAccessAttempts blockedAccessAttempts
       enumerationAttempts isSecure].
  split_and!.
  - unfold countType. induction Hlog as [|v l Hv _ IH]; simpl; [done|].
    rewrite IH.
    destruct Hv as [[-> _]|[[-> _]|[-> _]]]; simpl; lia.
  - rewrite Nat.eqb_eq. unfold countType.
    induction Hlog as [|v l Hv _ IH]; simpl; [done|].
    destruct Hv as [[-> ->]|[[-> ->]|[-> ->]]]; simpl; [done|tauto..].
  - repeat constructor; try done.
    + destruct prop as [name|?]; simpl; [|done].
      destruct (bool_decide (toUpperCase rt name ∈ SENSITIVE_VARS)); simpl.
      * apply Forall_app. split; [done|].
        constructor; [|done]. left. done.
      * destruct (bool_decide (toUpperCase rt name ∈ ALLOWED_VARS)); simpl;
          [done|].
        apply Forall_app. split; [done|].
        constructor; [|done]. right. left. done.
    + destruct prop as [name|?]; simpl; [|done].
      destruct (bool_decide (toUpperCase rt name ∈ SENSITIVE_VARS)); simpl;
        [done|].
      by destruct (bool_decide (toUpperCase rt name ∈ ALLOWED_VARS)).
    + simpl. apply Forall_app. split; [done|].
      constructor; [|done]. right. left. done.
    + simpl. apply Forall_app. split; [done|].
      constructor; [|done]. right. right. done.
    + simpl. apply Forall_app. split; [done|].
      constructor; [|done]. right. right. done.
Qed.

(** [createSafeEnvironment] is idempotent: a blocker built over the safe
    environment hands out that same environment. *)
Theorem createSafeEnvironment_idempotent s :
  createSafeEnvironment (new (createSafeEnvironment s))
  = createSafeEnvironment s.
Proof.
  apply map_eq. intros k. unfold createSafeEnvironment.
  cbn [originalProcessEnv new].
  destruct (decide (k = "SANDBOX"%string)) as [->|H1];
    [by rewrite !lookup_insert_eq|].
  destruct (decide (k = "NODE_ENV"%string)) as [->|H2].
  { rewrite !(lookup_insert_ne _ "SANDBOX"%string) by done.
    by rewrite !lookup_insert_eq. }
  rewrite !lookup_insert_ne by done.
  rewrite !copyAllowed_lookup.
  destruct (decide (k ∈ ALLOWED_VARS)); [|done].
  rewrite !lookup_insert_ne by done. rewrite copyAllowed_lookup.
  by rewrite decide_True.
Qed.

End EnvironmentViews.

Lemma objectKeys_lists_allowed_witness :
  let s := EnvironmentBlocker.new {[ "TZ"%string := "UTC"%string ]} in
  ∃ v s',
    EnvironmentBlocker.objectKeys Sample.runtime 5 s
    = (Normal EnvironmentBlocker.ALLOWED_VARS, s')
    ∧ EnvironmentBlocker.getViolations s'
      = EnvironmentBlocker.getViolations s ++ [v]
    ∧ EnvironmentBlocker.type v = ENV_ENUMERATION
    ∧ EnvironmentBlocker.severity v = HIGH
    ∧ ∀ k, k ∈ EnvironmentBlocker.ALLOWED_VARS →
           EnvironmentBlocker.get Sample.runtime 5
             (EnvironmentBlocker.StringKey k) s'
           = (Normal (EnvironmentBlocker.originalProcessEnv s !! k), s').
Proof.
  intros s. apply (objectKeys_lists_allowed Sample.runtime 5 s).
  apply Forall_forall. repeat constructor.
Defined.

Lemma testBlocking_passes_witness :
  ∃ results s' v1 v2 v3,
    EnvironmentBlocker.testBlocking Sample.runtime 5
      (EnvironmentBlocker.new ∅) = (Normal (true, results), s')
    ∧ length results = 4%nat
    ∧ Forall (λ r, EnvironmentBlocker.passed r = true
                   ∧ EnvironmentBlocker.error r = None) results
    ∧ EnvironmentBlocker.getViolations s'
      = EnvironmentBlocker.getViolations (EnvironmentBlocker.new ∅)
        ++ [v1; v2; v3]
    ∧ (EnvironmentBlocker.type v1, EnvironmentBlocker.severity v1,
       EnvironmentBlocker.variable v1)
      = (SENSITIVE_VAR_ACCESS, CRITICAL, Some "API_KEY"%string)
    ∧ (EnvironmentBlocker.type v2, EnvironmentBlocker.severity v2,
       EnvironmentBlocker.variable v2)
      = (ENV_ACCESS_BLOCKED, HIGH, Some "TEST_VAR"%string)
    ∧ (EnvironmentBlocker.type v3, EnvironmentBlocker.severity v3,
       EnvironmentBlocker.variable v3) = (ENV_ENUMERATION, HIGH, None)
    ∧ EnvironmentBlocker.originalProcessEnv s'
      = EnvironmentBlocker.originalProcessEnv (EnvironmentBlocker.new ∅)
    ∧ EnvironmentBlocker.isSecure (EnvironmentBlocker.getSecurityReport s')
      = false.
Proof.
  apply (testBlocking_passes Sample.runtime 5 (EnvironmentBlocker.new ∅)).
  apply Forall_forall. repeat constructor.
Defined.

Lemma env_report_consistent_witness :
  let s := (EnvironmentBlocker.ownKeys 1 (EnvironmentBlocker.new ∅)).2 in
  let r := EnvironmentBlocker.getSecurityReport s in
  EnvironmentBlocker.totalViolations r
  = (EnvironmentBlocker.sensitiveAccessAttempts r
     + EnvironmentBlocker.blockedAccessAttempts r
     + EnvironmentBlocker.enumerationAttempts r)%nat
  ∧ (EnvironmentBlocker.isSecure r = true
     ↔ EnvironmentBlocker.sensitiveAccessAttempts r = 0%nat)
  ∧ Forall (λ s', Forall EnvironmentBlocker.trapWritten
                    (EnvironmentBlocker.getViolations s')
                  ∧ EnvironmentBlocker.originalProcessEnv s'
                    = EnvironmentBlocker.originalProcessEnv s)
      [ (EnvironmentBlocker.get Sample.runtime 2
           (EnvironmentBlocker.StringKey "HOME") s).2;
        (EnvironmentBlocker.set 2 (EnvironmentBlocker.StringKey "HOME")
           "x" s).2;
        (EnvironmentBlocker.ownKeys 2 s).2;
        (EnvironmentBlocker.objectKeys Sample.runtime 2 s).2 ].
Proof.
  intros s.
  apply (env_report_consistent Sample.runtime 2
           (EnvironmentBlocker.StringKey "HOME") "x" s).
  constructor; [|constructor]. right. right. done.
Defined.

(* ===================================================================== *)
(** ** Further properties of the coordinator                              *)
(* ===================================================================== *)

Section CoordinatorOutcome.
Import MainSecurityManager.
Context (rt : Runtime) {T : Type}.
Implicit Types (s : MainSecurityManager.t)
               (executor : Executor MainSecurityManager.t T).

Lemma afterCall_frame (call : GateCall) s :
  grows s (afterCall rt call s)
  ∧ timeoutManager (afterCall rt call s) = timeoutManager s
  ∧ memoryMonitor (afterCall rt call s) = memoryMonitor s
  ∧ config (afterCall rt call s) = config s
  ∧ initialized (afterCall rt call s) = initialized s
  ∧ EnvironmentBlocker.originalProcessEnv
      (environmentBlocker (afterCall rt call s))
    = EnvironmentBlocker.originalProcessEnv (environmentBlocker s).
Proof.
  destruct call as [id|prop|prop value|]; simpl.
  - unfold onModuleBlocker, zoom.
    destruct (decide (id ∈ ModuleSecurityManager.ALLOWED_MODULES)) as [Ha|Ha].
    + unfold ModuleSecurityManager.secureRequire.
      rewrite (secureRequireWithin_allowed rt _ (now s) id _ Ha). simpl.
      by destruct s.
    + unfold ModuleSecurityManager.secureRequire.
      destruct (stackRoom rt); simpl;
        rewrite (bool_decide_eq_false_2 _ Ha);
        destruct (bool_decide (id ∈ ModuleSecurityManager.BLOCKED_MODULES));
        simpl; (split; [split; simpl; [|done]|done]);
        by apply prefix_app_r.
  - unfold onEnvironmentBlocker, zoom, EnvironmentBlocker.get.
    destruct prop as [name|?]; simpl; [|by repeat split].
    destruct (bool_decide
                (toUpperCase rt name ∈ EnvironmentBlocker.SENSITIVE_VARS));
      [|destruct (bool_decide
                    (toUpperCase rt name ∈ EnvironmentBlocker.ALLOWED_VARS))];
      simpl; (split; [split; simpl; [done|]|done]);
      first [done | by apply prefix_app_r].
  - split; [split; simpl; [done|by apply prefix_app_r]|done].
  - split; [split; simpl; [done|by apply prefix_app_r]|done].
Qed.

(** A candidate that reaches the manager only through the secure
    [require] and the proxy of [process.env] appends to the two logs and
    changes nothing else: not the supervisors, not the configuration,
    not the copy of the environment. *)
Theorem throughGates_appendOnly (calls : list GateCall) (outcome : Outcome T) :
  appendOnly (throughGates rt calls outcome)
  ∧ ∀ s, let s' := (throughGates rt calls outcome s).2 in
         (throughGates rt calls outcome s).1 = outcome
         ∧ timeoutManager s' = timeoutManager s
         ∧ memoryMonitor s' = memoryMonitor s
         ∧ config s' = config s
         ∧ initialized s' = initialized s
         ∧ EnvironmentBlocker.originalProcessEnv (environmentBlocker s')
           = EnvironmentBlocker.originalProcessEnv (environmentBlocker s).
Proof.
  assert (H : ∀ s,
    grows s (foldl (λ s call, afterCall rt call s) s calls)
    ∧ timeoutManager (foldl (λ s call, afterCall rt call s) s calls)
      = timeoutManager s
    ∧ memoryMonitor (foldl (λ s call, afterCall rt call s) s calls)
      = memoryMonitor s
    ∧ config (foldl (λ s call, afterCall rt call s) s calls) = config s
    ∧ initialized (foldl (λ s call, afterCall rt call s) s calls)
      = initialized s
    ∧ EnvironmentBlocker.originalProcessEnv
        (environmentBlocker (foldl (λ s call, afterCall rt call s) s calls))
      = EnvironmentBlocker.originalProcessEnv (environmentBlocker s)).
  { induction calls as [|call calls IH]; intros s; cbn [foldl].
    - split; [apply grows_refl|done].
    - destruct (afterCall_frame call s) as (H1 & H2 & H3 & H4 & H5 & H6).
      destruct (IH (afterCall rt call s)) as (G1 & G2 & G3 & G4 & G5 & G6).
      split; [by eapply grows_trans|].
      by rewrite G2, G3, G4, G5, G6. }
  split.
  - intros s. apply H.
  - intros s. cbv zeta. unfold throughGates. cbn [fst snd].
    split; [done|]. apply H.
Qed.

Lemma startMonitoring_peak usage now0 (m : MemoryMonitor.t) :
  MemoryMonitor.heapUsed (MemoryMonitor.peakMetrics m) = 0 →
  wp (MemoryMonitor.startMonitoring rt usage now0)
     (λ _ m', MemoryMonitor.heapUsed (MemoryMonitor.peakMetrics m') = 0)
     (λ _ _, True) (λ _, True) m.
Proof.
  intros Hm. unfold wp.
  destruct (MemoryMonitor.isMonitoring m) eqn:Hmon.
  - unfold MemoryMonitor.startMonitoring, bind, gets. by rewrite Hmon.
  - rewrite (startMonitoring_idle rt usage now0 m Hmon).
    match goal with
    | |- context [MemoryMonitor.checkMemoryUsage rt usage now0 ?x] =>
        destruct (checkMemoryUsage_state rt usage now0 x) as (_ & _ & _ & Hp);
        destruct (MemoryMonitor.checkMemoryUsage rt usage now0 x)
          as [[[]|e|] m'']
    end; [|done..].
    cbn [snd] in Hp. by rewrite Hp.
Qed.

Lemma stopMonitoring_peak now0 (m : MemoryMonitor.t) :
  MemoryMonitor.heapUsed (MemoryMonitor.peakMetrics m) = 0 →
  returns (MemoryMonitor.stopMonitoring now0)
    (λ mm m', MemoryMonitor.heapUsed mm = 0
              ∧ MemoryMonitor.heapUsed (MemoryMonitor.peakMetrics m') = 0) m.
Proof.
  intros Hm.
  unfold returns, wp, MemoryMonitor.stopMonitoring, bind, gets. simpl.
  by destruct (MemoryMonitor.isMonitoring m).
Qed.

(** No method of the monitor writes the field [heapUsed] of its peak
    metrics, the checks that the interval timer runs included. *)
Lemma peak_heapUsed_kept (m : MemoryMonitor.t)
    (samples : list (Process.MemoryUsage * Z)) (now0 : Z)
    (heap rss buffers interval : option Z) :
  MemoryMonitor.heapUsed (MemoryMonitor.peakMetrics m) = 0 →
  Forall (λ m', MemoryMonitor.heapUsed (MemoryMonitor.peakMetrics m') = 0)
    [ MemoryMonitor.sampleAll rt samples m;
      (MemoryMonitor.clearHistory now0 m).2;
      (MemoryMonitor.updateLimits heap rss buffers interval m).2 ].
Proof.
  intros Hm. repeat constructor; try done.
  destruct (sampleAll_peaks rt samples m) as (_ & _ & _ & _ & H & _).
  by rewrite H.
Qed.

Lemma emergencyCleanup_peak (id : string) s :
  returns (emergencyCleanup id)
    (λ _ s',
       MemoryMonitor.heapUsed (MemoryMonitor.peakMetrics (memoryMonitor s))
       = 0 →
       MemoryMonitor.heapUsed (MemoryMonitor.peakMetrics (memoryMonitor s'))
       = 0) s.
Proof.
  unfold returns, emergencyCleanup.
  apply wp_tryCatch, wp_bind, wp_gets, wp_bind.
  unfold onTimeoutManager. apply wp_zoom.
  eapply wp_returns; [apply terminateExecution_config|].
  intros b t' _. simpl. apply wp_bind, wp_gets, wp_bind.
  unfold onMemoryMonitor. apply wp_zoom. unfold wp at 1. simpl.
  pose proof (stopMonitoring_returns (now s) (memoryMonitor s)) as Hret.
  pose proof (stopMonitoring_peak (now s) (memoryMonitor s)) as Hpeak.
  unfold returns, wp in Hret, Hpeak.
  destruct (MemoryMonitor.stopMonitoring (now s) (memoryMonitor s))
    as [[mm|e|] m5]; [|done..].
  apply wp_ret. intros Hj. by destruct (Hpeak Hj).
Qed.

(** One pass over [executeSecurely] in an initialized manager, for the
    two facts below: where the memory figures of the report come from,
    and how the result follows the candidate. *)
Lemma executeSecurely_run (context : SecureExecutionContext.t) executor
    (outcome : Outcome T) s a m' :
  initialized s = true →
  ModuleSecurityManager.analyzeCode rt (now s)
    (SecureExecutionContext.code context) (moduleBlocker s) = (Normal a, m') →
  wp (executeSecurely rt context executor)
    (λ r s',
       (MemoryMonitor.heapUsed (MemoryMonitor.peakMetrics (memoryMonitor s))
        = 0 →
        (∀ s0,
           MemoryMonitor.heapUsed
             (MemoryMonitor.peakMetrics (memoryMonitor s0)) = 0 →
           MemoryMonitor.heapUsed
             (MemoryMonitor.peakMetrics (memoryMonitor (executor s0).2))
           = 0) →
        SecurityReport.current
          (SecurityReport.memoryUsage (securityReport r)) = 0
        ∧ MemoryMonitor.heapUsed
            (MemoryMonitor.peakMetrics (memoryMonitor s')) = 0)
       ∧ (negb (ModuleSecurityManager.safe a)
          && SecurityConfig.strictMode (config s) = false →
          (∀ s0, (executor s0).1 = outcome) →
          match outcome with
          | Resolved v =>
              result r = Some v ∧ success r = true ∧ error r = None
          | Rejected e =>
              result r = None ∧ success r = false
              ∧ error r
                = Some (messageOr
                          (if SecurityConfig.enableTimeoutManagement (config s)
                           then "Unknown error"
                           else "Security execution failed") e)
          | Pending =>
              result r = None ∧ success r = false
              ∧ error r = Some "Execution timeout"%string
          end))
    (λ _ _, True) (λ _, True) s.
Proof.
  intros Hinit Ha.
  set (J := λ s1 : MainSecurityManager.t,
         MemoryMonitor.heapUsed (MemoryMonitor.peakMetrics (memoryMonitor s1))
         = 0).
  set (keeps := ∀ s0, J s0 → J (executor s0).2).
  set (R := λ s1 s2 : MainSecurityManager.t, keeps → J s1 → J s2).
  assert (HR : Reflexive R) by (intros s1 _ H; exact H).
  assert (HT : Transitive R).
  { intros s1 s2 s3 H1 H2 Hk H. by apply H2, H1. }
  set (Qn := λ (r : Result T) (s' : MainSecurityManager.t), _ ∧ _).
  unfold executeSecurely.
  apply wp_bind, wp_gets. rewrite Hinit. simpl.
  apply wp_bind, wp_gets, wp_bind. unfold onModuleBlocker. apply wp_zoom.
  unfold wp at 1. rewrite Ha.
  apply wp_bind, wp_gets. simpl.
  destruct (negb (ModuleSecurityManager.safe a)
            && SecurityConfig.strictMode (config s)) eqn:Hstrict.
  { apply wp_bind, wp_gets, wp_ret.
    split; [by intros Hj _|]. intros H. congruence. }
  apply wp_bind, wp_gets. simpl. apply wp_bind.
  set (P := λ s2 : MainSecurityManager.t, config s2 = config s ∧ R s s2).
  apply (wp_mono _ (λ _ s2, P s2) _ (λ _ _, True) _ (λ _, True)); [| |done..].
  { unfold when.
    destruct (SecurityConfig.enableMemoryMonitoring (config s)) eqn:Hmem;
      [|apply wp_ret; split; [done|by intros _ H]].
    apply wp_bind, wp_gets, wp_bind, wp_gets.
    unfold onMemoryMonitor. apply wp_zoom. simpl.
    unfold wp.
    destruct (MemoryMonitor.startMonitoring rt (memoryUsage s) (now s)
                (memoryMonitor s)) as [[[]|e|] mm] eqn:E; [|done..].
    split; [done|]. intros _ Hj. unfold J. simpl.
    pose proof (startMonitoring_peak (memoryUsage s) (now s)
                  (memoryMonitor s) Hj) as Hp.
    unfold wp in Hp. by rewrite E in Hp. }
  intros [] s2 [Hc2 Hg2]. simpl.
  apply wp_bind, wp_gets, wp_bind.
  apply (wp_mono _ (λ _ s3, P s3) _ (λ _ _, True) _ (λ _, True)); [| |done..].
  { unfold when.
    destruct (SecurityConfig.enableTimeoutManagement (config s2));
      [|apply wp_ret; by split].
    apply wp_bind, wp_gets, wp_bind.
    unfold onTimeoutManager. apply wp_zoom.
    eapply wp_returns; [apply startExecution_config|].
    intros ref t' _. apply wp_ret. split; [done|].
    intros Hk Hj. apply (Hg2 Hk Hj). }
  intros [] s3 [Hc3 Hg3]. simpl.
  apply wp_tryCatch.
  set (flag := SecurityConfig.enableTimeoutManagement (config s)).
  set (handled := λ (e : Thrown) (s4 : MainSecurityManager.t),
         wp _ Qn (λ _ _, True) (λ _, True) s4).
  (* what a throw of the body tells, and that the handler then answers *)
  assert (Hhandler : ∀ e s4,
            R s s4
            ∧ ((∀ s0, (executor s0).1 = outcome) →
               outcome = Rejected e ∧ flag = false) →
            handled e s4).
  { intros e s4 [Hr4 H4]. unfold handled. apply wp_bind.
    eapply wp_returns; [apply (emergencyCleanup_peak _ s4)|].
    intros [] s5 H5. simpl. apply wp_bind, wp_gets, wp_ret.
    split; [intros Hj Hk; split; [done|exact (H5 (Hr4 Hk Hj))]|].
    intros _ Hex. destruct (H4 Hex) as [-> Hf].
    cbn [result success error]. fold flag. by rewrite Hf. }
  set (fields := λ res : option T * bool * option string,
         (∀ s0, (executor s0).1 = outcome) →
         match outcome with
         | Resolved v => res = (Some v, true, None)
         | Rejected e =>
             res = (None, false,
                    Some (messageOr
                            (if flag then "Unknown error"
                             else "Security execution failed") e))
         | Pending => res = (None, false, Some "Execution timeout"%string)
         end).
  apply wp_bind, wp_gets, wp_bind.
  apply (wp_mono _ (λ res s4, R s s4 ∧ fields res)
                 _ (λ e s4, R s s4
                            ∧ ((∀ s0, (executor s0).1 = outcome) →
                               outcome = Rejected e ∧ flag = false))
                 _ (λ _, True));
    [| |exact Hhandler|done].
  assert (Hticks : ∀ mm s4,
            MemoryMonitor.heapUsed (MemoryMonitor.peakMetrics mm)
            = MemoryMonitor.heapUsed
                (MemoryMonitor.peakMetrics (memoryMonitor s4)) →
            R s s4 → R s (setMemoryMonitor mm s4)).
  { intros mm s4 Hmm H4 Hk Hj. unfold J. simpl. rewrite Hmm.
    exact (H4 Hk Hj). }
  { destruct (SecurityConfig.enableTimeoutManagement (config s3)) eqn:Hflag.
    - apply wp_bind, wp_gets, wp_bind, wp_suspend.
      match goal with
      | |- wp (TimeoutManager.executeWithTimeout _ _ _ ?id _ ?ct) _ _ _ _ =>
          destruct (executeWithTimeout_cases now timeoutManager
                      setTimeoutManager (λ _ _, eq_refl) id executor ct s3)
            as (r & s4 & E & _ & Hm);
          pose proof (@executeWithTimeout_frame _ T now timeoutManager
                        setTimeoutManager R HR HT
                        (λ x s0 _ H, H) id executor ct s3) as Hfr
      end.
      unfold wp at 1. rewrite E. split; [done|].
      intros mm Hmm. apply wp_ret. split.
      + apply Hticks; [exact Hmm|]. etrans; [exact Hg3|].
        refine (wp_elim _ _ _ _ _ _ _ (Hfr _) E).
        intros s0 Hk Hj. exact (Hk s0 Hj).
      + intros Hex. rewrite Hex in Hm. unfold flag.
        rewrite <- Hc3, Hflag.
        destruct outcome as [v|[msg|]|];
          destruct Hm as (H1 & H2 & H3);
          destruct r as [rr rm rs re]; simpl in *; by subst.
    - apply wp_bind, wp_suspend. unfold wp at 1, await.
      destruct (executor s3) as [[v|e|] s4] eqn:E.
      + split; [done|]. intros mm Hmm. apply wp_ret. split.
        * apply Hticks; [exact Hmm|]. etrans; [exact Hg3|]. intros Hk Hj.
          pose proof (Hk s3 Hj) as Hk3. by rewrite E in Hk3.
        * intros Hex. specialize (Hex s3). rewrite E in Hex. simpl in Hex.
          by rewrite <- Hex.
      + split; [done|]. intros mm Hmm. split.
        * apply Hticks; [exact Hmm|]. etrans; [exact Hg3|]. intros Hk Hj.
          pose proof (Hk s3 Hj) as Hk3. by rewrite E in Hk3.
        * intros Hex. specialize (Hex s3). rewrite E in Hex. simpl in Hex.
          split; [done|]. unfold flag. by rewrite <- Hc3.
      + done. }
  intros res s4 [H4 Hres]. simpl.
  apply wp_bind, wp_gets, wp_bind.
  apply (wp_mono _ (λ mem s5,
                      R s s5
                      ∧ (keeps → J s →
                         from_option MemoryMonitor.heapUsed 0 mem = 0))
                 _ handled _ (λ _, True));
    [| |done..].
  { destruct (SecurityConfig.enableMemoryMonitoring (config s4));
      [|by apply wp_ret].
    apply wp_bind, wp_gets, wp_bind.
    unfold onMemoryMonitor. apply wp_zoom. unfold wp at 1.
    pose proof (stopMonitoring_returns (now s4) (memoryMonitor s4)) as Hret.
    pose proof (stopMonitoring_peak (now s4) (memoryMonitor s4)) as Hpeak.
    unfold returns, wp in Hret, Hpeak.
    destruct (MemoryMonitor.stopMonitoring (now s4) (memoryMonitor s4))
      as [[mm|e|] m5]; [|done..].
    apply wp_ret. split.
    - intros Hk Hj. by destruct (Hpeak (H4 Hk Hj)).
    - intros Hk Hj. by destruct (Hpeak (H4 Hk Hj)). }
  intros mem s5 [H5 Hmem]. simpl.
  apply wp_bind, wp_gets, wp_bind.
  apply (wp_mono _ (λ _ s6, R s s6) _ handled _ (λ _, True)); [| |done..].
  { unfold when.
    destruct (SecurityConfig.enableTimeoutManagement (config s5));
      [|by apply wp_ret].
    apply wp_bind, wp_gets, wp_bind.
    unfold onTimeoutManager. apply wp_zoom.
    eapply wp_returns; [apply stopExecution_config|].
    intros stopped t' _. apply wp_ret. intros Hk Hj. exact (H5 Hk Hj). }
  intros [] s6 H6. simpl.
  apply wp_bind, wp_gets, wp_ret. split.
  - intros Hj Hk. split; [exact (Hmem Hk Hj)|exact (H6 Hk Hj)].
  - intros _ Hex. specialize (Hres Hex). cbn [result success error].
    fold flag. destruct outcome as [v|e|]; by rewrite Hres.
Qed.


(** The figure [memoryUsage.current] of every report is 0.  The report
    takes it from the field [heapUsed] of the metrics that
    [stopMonitoring] returns, which are the peak metrics, and that field
    of the peak metrics is never written after it was created as 0:
    not by [executeSecurely], and not by the checks of the monitor that
    run while the candidate is awaited.  The candidate is only required
    to leave that field as it is. *)
Theorem report_current_memory_is_zero (context : SecureExecutionContext.t)
    executor s r s' :
  executeSecurely rt context executor s = (Normal r, s') →
  MemoryMonitor.heapUsed (MemoryMonitor.peakMetrics (memoryMonitor s)) = 0 →
  (∀ s0,
     MemoryMonitor.heapUsed (MemoryMonitor.peakMetrics (memoryMonitor s0))
     = 0 →
     MemoryMonitor.heapUsed
       (MemoryMonitor.peakMetrics (memoryMonitor (executor s0).2)) = 0) →
  SecurityReport.current (SecurityReport.memoryUsage (securityReport r)) = 0
  ∧ MemoryMonitor.heapUsed (MemoryMonitor.peakMetrics (memoryMonitor s')) = 0.
Proof.
  intros E Hj Hk.
  destruct (initialized s) eqn:Hinit.
  2:{ rewrite (executeSecurely_guard rt context executor s Hinit) in E.
      discriminate. }
  destruct (analyzeCode_appends rt (now s)
              (SecureExecutionContext.code context) (moduleBlocker s))
    as (a & m' & Ha & _).
  pose proof (executeSecurely_run context executor Pending s a m' Hinit Ha)
    as Hrun.
  apply (wp_elim _ _ _ _ _ _ _ Hrun) in E as [H _]. by apply H.
Qed.

(** [shutdown] returns; it leaves no execution registered, the memory
    monitor idle and the manager uninitialized, so that the next
    [executeSecurely] throws; the configuration and the two blockers with
    their logs are as before. *)
Theorem shutdown_then_guard (context : SecureExecutionContext.t) executor s :
  ∃ s',
    shutdown s = (Normal tt, s')
    ∧ TimeoutManager.getActiveExecutions (timeoutManager s') = []
    ∧ MemoryMonitor.isMonitoring (memoryMonitor s') = false
    ∧ initialized s' = false
    ∧ config s' = config s
    ∧ moduleBlocker s' = moduleBlocker s
    ∧ environmentBlocker s' = environmentBlocker s
    ∧ executeSecurely rt context executor s'
      = (Throw (ErrorObj "Security manager not initialized"), s').
Proof.
  unfold shutdown.
  unfold bind at 1, dateNow at 1, gets at 1.
  unfold bind at 1, onTimeoutManager at 1, zoom at 1.
  destruct (terminateAllExecutions_cleared (timeoutManager s) (now s)
              "SYSTEM_SHUTDOWN") as (tm' & Etm & _ & Hnone & Hcfg).
  rewrite Etm.
  unfold bind at 1, dateNow at 1, gets at 1.
  unfold bind at 1, onMemoryMonitor at 1, zoom at 1.
  cbn [now memoryMonitor setTimeoutManager].
  assert (Hstop : ∃ mm m', MemoryMonitor.stopMonitoring (now s)
                             (memoryMonitor s) = (Normal mm, m')
                           ∧ MemoryMonitor.isMonitoring m' = false).
  { unfold MemoryMonitor.stopMonitoring, bind, gets, modify.
    destruct (MemoryMonitor.isMonitoring (memoryMonitor s)) eqn:Hm;
      simpl; eauto. }
  destruct Hstop as (mm & m' & Emm & Hidle). rewrite Emm.
  unfold modify. eexists. split; [reflexivity|].
  split_and!; first [done | by apply executeSecurely_guard].
Qed.

(** The report of a strict rejection lists each finding of the static
    analysis twice, once as handed over by [executeSecurely] and once
    from the log to which [analyzeCode] has just appended it.  A single
    dangerous pattern therefore counts as two HIGH violations: the score
    is at most 60 and the risk level is not LOW. *)
Theorem strict_rejection_report (context : SecureExecutionContext.t) executor
    s a m' :
  initialized s = true →
  SecurityConfig.strictMode (config s) = true →
  ModuleSecurityManager.analyzeCode rt (now s)
    (SecureExecutionContext.code context) (moduleBlocker s) = (Normal a, m') →
  ModuleSecurityManager.safe a = false →
  ∃ r s',
    executeSecurely rt context executor s = (Normal r, s')
    ∧ SecurityReport.violations (securityReport r)
      = map ofCode (ModuleSecurityManager.found a)
        ++ map ofCode (ModuleSecurityManager.getViolations (moduleBlocker s)
                       ++ ModuleSecurityManager.found a)
        ++ map ofEnvironment
             (EnvironmentBlocker.getViolations (environmentBlocker s))
    ∧ 2 ≤ countSeverity HIGH (SecurityReport.violations (securityReport r))
    ∧ SecurityReport.safe (securityReport r) = false
    ∧ SecurityReport.securityScore (securityReport r) ≤ 60
    ∧ SecurityReport.riskLevel (securityReport r) ≠ LOW.
Proof.
  intros Hinit Hstrict Ha Hunsafe.
  rewrite (executeSecurely_rejects rt context executor s a m'
             Hinit Hstrict Ha Hunsafe).
  eexists _, _. split; [reflexivity|].
  pose proof (analyzeCode_unfold rt (now s)
                (SecureExecutionContext.code context) (moduleBlocker s)) as E.
  cbv zeta in E. rewrite E in Ha. injection Ha as <- <-.
  cbn [securityReport ModuleSecurityManager.found ModuleSecurityManager.safe]
    in *.
  apply bool_decide_eq_false in Hunsafe.
  pose proof (scanPatterns_findings (now s)
                (sha256_hex rt (SecureExecutionContext.code context))
                (SecureExecutionContext.code context)
                (ModuleSecurityManager.DANGEROUS_PATTERNS (moduleBlocker s)))
    as Hf.
  destruct ((ModuleSecurityManager.scanPatterns (now s)
               (sha256_hex rt (SecureExecutionContext.code context))
               (SecureExecutionContext.code context)
               (ModuleSecurityManager.DANGEROUS_PATTERNS (moduleBlocker s))).1)
    as [|v hits]; [done|].
  destruct (Hf v) as [_ Hv]; [by left|].
  set (size := if 50000 <? _ then _ else _).
  unfold createSecurityReport.
  cbn [SecurityReport.violations SecurityReport.safe
       SecurityReport.securityScore SecurityReport.riskLevel
       moduleBlocker environmentBlocker setModuleBlocker
       ModuleSecurityManager.getViolations ModuleSecurityManager.violations].
  set (all := map ofCode ((v :: hits) ++ size) ++ _).
  assert (Hall : all
    = ofCode v
      :: (map ofCode (hits ++ size)
          ++ map ofCode (ModuleSecurityManager.violations (moduleBlocker s)))
      ++ ofCode v
      :: (map ofCode (hits ++ size)
          ++ map ofEnvironment
               (EnvironmentBlocker.getViolations (environmentBlocker s)))).
  { subst all. rewrite !map_app. simpl. rewrite <- !app_assoc. simpl.
    by rewrite <- !app_assoc. }
  assert (Hhigh : 2 ≤ countSeverity HIGH all).
  { rewrite Hall. unfold countSeverity.
    simpl. rewrite Hv. simpl.
    rewrite List.filter_app, length_app. simpl. rewrite Hv. simpl. lia. }
  pose proof (countSeverity_nonneg CRITICAL all) as Hc.
  pose proof (countSeverity_nonneg MEDIUM all) as Hm.
  split_and!.
  - done.
  - exact Hhigh.
  - apply andb_false_iff. right. apply Z.eqb_neq. lia.
  - lia.
  - destruct (0 <? countSeverity CRITICAL all); [done|].
    destruct (2 <? countSeverity HIGH all); [done|].
    rewrite (proj2 (Z.ltb_lt 0 _)) by lia. done.
Qed.

End CoordinatorOutcome.


Lemma report_current_memory_is_zero_witness :
  let request := Sample.request "job-1" "1 + 1" in
  let s := Sample.manager ∅ true in
  let run := MainSecurityManager.executeSecurely Sample.runtime request
               (Sample.resolves "2") s in
  ∃ r s',
    run = (Normal r, s')
    ∧ SecurityReport.current
        (SecurityReport.memoryUsage (MainSecurityManager.securityReport r))
      = 0
    ∧ MemoryMonitor.heapUsed
        (MemoryMonitor.peakMetrics (MainSecurityManager.memoryMonitor s'))
      = 0.
Proof.
  intros request s run.
  destruct run as [[r|e|] s'] eqn:E; [|vm_compute in E; discriminate..].
  exists r, s'. split; [reflexivity|].
  apply (report_current_memory_is_zero Sample.runtime request
           (Sample.resolves "2") s r s' E); [reflexivity|].
  intros s0 H0. exact H0.
Defined.

Lemma strict_rejection_report_witness :
  let request := Sample.request "job-1" "require('fs')" in
  let s := Sample.manager ∅ true in
  ∃ r s',
    MainSecurityManager.executeSecurely Sample.runtime request
      (Sample.resolves "2") s = (Normal r, s')
    ∧ 2 ≤ MainSecurityManager.countSeverity HIGH
            (SecurityReport.violations (MainSecurityManager.securityReport r))
    ∧ SecurityReport.securityScore (MainSecurityManager.securityReport r) ≤ 60.
Proof.
  intros request s.
  destruct (analyzeCode_appends Sample.runtime (MainSecurityManager.now s)
              (SecureExecutionContext.code request)
              (MainSecurityManager.moduleBlocker s)) as (a & m' & Ha & _).
  destruct (strict_rejection_report Sample.runtime request
              (Sample.resolves "2") s a m') as (r & s' & E & _ & Hh & _ & Hs & _).
  - reflexivity.
  - reflexivity.
  - exact Ha.
  - vm_compute in Ha. injection Ha as <- _. reflexivity.
  - exists r, s'. split_and!; done.
Defined.

(* ===================================================================== *)
(** ** The engine: memory limits and suggestions                          *)
(* ===================================================================== *)

Section Engine.
Import SecureExecutionEngine.

Lemma spanDigits_app (digits rest : string) :
  forallb isDigit (String.list_ascii_of_string digits) = true →
  match rest with
  | EmptyString => True
  | String c _ => isDigit c = false
  end →
  spanDigits (digits +:+ rest) = (digits, rest).
Proof.
  intros Hd Hr. induction digits as [|c digits IH]; simpl in *.
  - destruct rest as [|c rest]; [done|]. simpl. by rewrite Hr.
  - apply andb_true_iff in Hd as [Hc Hd]. rewrite Hc, (IH Hd). done.
Qed.

Lemma parseDigits_nonneg (digits : string) (acc : Z) :
  0 ≤ acc → 0 ≤ parseDigits acc digits.
Proof.
  revert acc. induction digits as [|c digits IH]; intros acc Hacc; simpl;
    [done|].
  apply IH. lia.
Qed.

Lemma isLetter_cases (upper c : ascii) :
  isLetter upper c = true →
  c = upper ∨ c = ascii_of_N (N_of_ascii upper + 32).
Proof.
  unfold isLetter. intros [H|H]%orb_true_iff; apply N.eqb_eq in H.
  - left. by rewrite <- (ascii_N_embedding c), H, ascii_N_embedding.
  - right. by rewrite <- (ascii_N_embedding c), H.
Qed.

Lemma unitOf_spelled (rest : string) (unit : MemoryUnit) :
  unitOf rest = Some (Some unit) →
  rest ∈ ["KB"; "Kb"; "kB"; "kb"; "MB"; "Mb"; "mB"; "mb";
          "GB"; "Gb"; "gB"; "gb"]%string.
Proof.
  destruct rest as [|a [|b [|]]]; try done. unfold unitOf.
  destruct (isLetter "B" b) eqn:Hb; [|done].
  apply isLetter_cases in Hb.
  destruct (isLetter "M" a) eqn:Hm.
  { apply isLetter_cases in Hm. intros _.
    destruct Hb as [-> | ->], Hm as [-> | ->];
      apply (bool_decide_unpack _); vm_compute; exact I. }
  destruct (isLetter "G" a) eqn:Hg.
  { apply isLetter_cases in Hg. intros _.
    destruct Hb as [-> | ->], Hg as [-> | ->];
      apply (bool_decide_unpack _); vm_compute; exact I. }
  destruct (isLetter "K" a) eqn:Hk; [|done].
  apply isLetter_cases in Hk. intros _.
  destruct Hb as [-> | ->], Hk as [-> | ->];
    apply (bool_decide_unpack _); vm_compute; exact I.
Qed.

(** [parseMemoryLimit] on a number of at most fifteen digits: without a
    unit the number counts megabytes; the units KB, MB and GB are read
    in either case; anything else after the digits gives the default of
    128 MiB, as do a text that does not start with a digit, an empty
    text and an absent argument. *)
Theorem parseMemoryLimit_units (digits : string) :
  digits ≠ EmptyString →
  forallb isDigit (String.list_ascii_of_string digits) = true →
  (String.length digits ≤ 15)%nat →
  let value := parseDigits 0 digits in
  let KBs := ["KB"; "Kb"; "kB"; "kb"]%string in
  let MBs := ["MB"; "Mb"; "mB"; "mb"]%string in
  let GBs := ["GB"; "Gb"; "gB"; "gb"]%string in
  0 ≤ value
  ∧ parseMemoryLimit (Some digits) = value * 1024 * 1024
  ∧ (∀ u, u ∈ KBs → parseMemoryLimit (Some (digits +:+ u)) = value * 1024)
  ∧ (∀ u, u ∈ MBs →
          parseMemoryLimit (Some (digits +:+ u)) = value * 1024 * 1024)
  ∧ (∀ u, u ∈ GBs →
          parseMemoryLimit (Some (digits +:+ u))
          = value * 1024 * 1024 * 1024)
  ∧ (∀ c rest, isDigit c = false →
               String c rest ∉ KBs ++ MBs ++ GBs →
               parseMemoryLimit (Some (digits +:+ String c rest))
               = 128 * 1024 * 1024
               ∧ parseMemoryLimit (Some (String c rest)) = 128 * 1024 * 1024)
  ∧ parseMemoryLimit None = 128 * 1024 * 1024
  ∧ parseMemoryLimit (Some ""%string) = 128 * 1024 * 1024.
Proof.
  intros Hne Hd _. cbv zeta.
  assert (Hrun : ∀ rest,
    match rest with
    | EmptyString => True
    | String c _ => isDigit c = false
    end →
    parseMemoryLimit (Some (digits +:+ rest))
    = match unitOf rest with
      | Some unit =>
          match default MB unit with
          | KB => parseDigits 0 digits * 1024
          | MB => parseDigits 0 digits * 1024 * 1024
          | GB => parseDigits 0 digits * 1024 * 1024 * 1024
          end
      | None => 128 * 1024 * 1024
      end).
  { intros rest Hr. unfold parseMemoryLimit.
    rewrite (spanDigits_app digits rest Hd Hr).
    destruct digits as [|c0 digits0]; [done|]. simpl. done. }
  assert (Hplain : digits +:+ "" = digits).
  { clear. induction digits as [|c d IH]; [done|].
    change (String c d +:+ "") with (String c (d +:+ "")). by rewrite IH. }
  split_and!.
  - by apply parseDigits_nonneg.
  - rewrite <- Hplain at 1. by rewrite Hrun.
  - intros u Hu. repeat (apply elem_of_cons in Hu as [->|Hu]);
      [by rewrite Hrun..|by apply elem_of_nil in Hu].
  - intros u Hu. repeat (apply elem_of_cons in Hu as [->|Hu]);
      [by rewrite Hrun..|by apply elem_of_nil in Hu].
  - intros u Hu. repeat (apply elem_of_cons in Hu as [->|Hu]);
      [by rewrite Hrun..|by apply elem_of_nil in Hu].
  - intros c rest Hc Hu. split.
    + rewrite Hrun by done.
      destruct (unitOf (String c rest)) as [[unit|]|] eqn:E; [| |done].
      * apply unitOf_spelled in E.
        exfalso. apply Hu. revert E.
        rewrite !elem_of_app, !elem_of_cons, !elem_of_nil. tauto.
      * exfalso. destruct rest as [|b [|? ?]]; simpl in E; try discriminate.
        destruct (isLetter "B" b); [|discriminate].
        destruct (isLetter "M" c); [discriminate|].
        destruct (isLetter "G" c); [discriminate|].
        destruct (isLetter "K" c); discriminate.
    + unfold parseMemoryLimit. simpl. by rewrite Hc.
  - done.
  - done.
Qed.

Lemma suggest_fold (vs : list SecurityReport.Entry) (acc : Improvements) :
  let r := foldl suggest acc vs in
  performanceOptimizations r = performanceOptimizations acc
  ∧ codeImprovements r
    = codeImprovements acc
      ++ replicate
           (length (List.filter
              (λ v, bool_decide (SecurityReport.type v = DANGEROUS_PATTERN))
              vs))
           "Remove dangerous code patterns like eval(), dynamic require(), or process manipulation."%string
  ∧ length (securityEnhancements r)
    = (length (securityEnhancements acc)
       + length (List.filter
           (λ v, bool_decide (SecurityReport.type v = BLOCKED_MODULE))
           vs))%nat.
Proof.
  cbv zeta. revert acc.
  induction vs as [|v vs IH]; intros acc; cbn [foldl].
  - simpl. by rewrite app_nil_r, Nat.add_0_r.
  - destruct (IH (suggest acc v)) as (H1 & H2 & H3).
    rewrite H1, H2, H3. unfold suggest. simpl.
    destruct (SecurityReport.type v); simpl;
      rewrite <- ?app_assoc, ?length_app; simpl; split_and!; try done; lia.
Qed.

(** The suggestions of the engine: one and the same code improvement
    for each DANGEROUS_PATTERN entry of the report, one security
    enhancement for each BLOCKED_MODULE entry and three more when the
    score is below 80, and never a performance optimization, since no
    entry of a report has one of the two types that would produce it. *)
Theorem generateSecurityImprovements_counts (report : SecurityReport.t) :
  let count ty :=
    length (List.filter (λ v, bool_decide (SecurityReport.type v = ty))
              (SecurityReport.violations report)) in
  let out := generateSecurityImprovements report in
  performanceOptimizations out = []
  ∧ codeImprovements out
    = replicate (count DANGEROUS_PATTERN)
        "Remove dangerous code patterns like eval(), dynamic require(), or process manipulation."%string
  ∧ length (securityEnhancements out)
    = (count BLOCKED_MODULE
       + if (SecurityReport.securityScore report <? 80)%Z then 3 else 0)%nat.
Proof.
  cbv zeta. unfold generateSecurityImprovements.
  destruct (suggest_fold (SecurityReport.violations report)
              {| codeImprovements := []; performanceOptimizations := [];
                 securityEnhancements := [] |}) as (H1 & H2 & H3).
  cbv zeta in H1, H2, H3. simpl in H1, H2, H3.
  destruct (SecurityReport.securityScore report <? 80); simpl.
  - rewrite H1, H2, length_app, H3. simpl. done.
  - rewrite H1, H2, H3. split_and!; [done..|lia].
Qed.

End Engine.

Lemma parseMemoryLimit_units_witness :
  SecureExecutionEngine.parseMemoryLimit (Some "512"%string)
  = 512 * 1024 * 1024
  ∧ SecureExecutionEngine.parseMemoryLimit (Some "512kb"%string) = 512 * 1024
  ∧ SecureExecutionEngine.parseMemoryLimit (Some "512Gb"%string)
    = 512 * 1024 * 1024 * 1024
  ∧ SecureExecutionEngine.parseMemoryLimit (Some "512.5"%string)
    = 128 * 1024 * 1024.
Proof.
  destruct (parseMemoryLimit_units "512") as (_ & H1 & H2 & _ & H3 & H4 & _).
  - discriminate.
  - reflexivity.
  - simpl. lia.
  - split_and!.
    + exact H1.
    + apply (H2 "kb"%string). apply (bool_decide_unpack _). vm_compute. exact I.
    + apply (H3 "Gb"%string). apply (bool_decide_unpack _). vm_compute. exact I.
    + apply (H4 "."%char "5"%string); [reflexivity|].
      apply (bool_decide_unpack _). vm_compute. exact I.
Defined.
